(** * The scoring engine of wot-blitz-api, embedded in Rocq

    Source: the classes [WargamingService] and [ScoringService]
    (services/wargamingService.ts and services/scoringService.ts, the second
    and the last part of src/routes/scoringRoutes.ts), the class [TankModel]
    (src/models/tankModel.ts), the class [CacheService] (database/redis.ts,
    the last part of src/Dockerfile), the error middleware and the class
    [ScoringController] (the first and the last part of
    src/middleware/errorHandler.ts) and the interfaces of types/index.ts
    (unnamed/part_000).  The Redis client (ioredis) and the database
    (PostgreSQL, through node-postgres) are not code of the repository: they
    are modelled by what they answer to the commands and to the SQL text the
    repository sends them.

    JavaScript numbers are IEEE 754 binary64 values: they are modelled by Rocq's
    primitive floats, so that every arithmetic step rounds exactly as the
    program does, and division by zero yields an infinity or NaN as it does
    there. *)

From Stdlib Require Import ZArith List Lia Bool String Ascii Floats Uint63 Sorted.
From stdpp Require Import base option list gmap strings pretty sorting.

Set Warnings "-inexact-float,-register-all".
Local Open Scope Z_scope.

(** ** JavaScript numbers and the [Math] builtins the service calls *)

Module JS.

Abbreviation number := float.

Definition NaN : number := PrimFloat.nan.

(** The injection of a small integer ([|n| <= 2^53], where it is exact). *)
Definition of_Z (n : Z) : number :=
  if n <? 0 then PrimFloat.opp (PrimFloat.of_uint63 (Uint63.of_Z (- n)))
  else PrimFloat.of_uint63 (Uint63.of_Z n).

(** [Math.min(a, b)]: NaN when an argument is NaN; [-0] counts as smaller than [+0]. *)
Definition Math_min (a b : number) : number :=
  if PrimFloat.is_nan a || PrimFloat.is_nan b then NaN
  else if PrimFloat.ltb a b then a
  else if PrimFloat.ltb b a then b
  else if PrimFloat.Leibniz.eqb a PrimFloat.neg_zero then a else b.

(** [Math.max(a, b)]: NaN when an argument is NaN; [+0] counts as larger than [-0]. *)
Definition Math_max (a b : number) : number :=
  if PrimFloat.is_nan a || PrimFloat.is_nan b then NaN
  else if PrimFloat.ltb a b then b
  else if PrimFloat.ltb b a then a
  else if PrimFloat.Leibniz.eqb a PrimFloat.zero then a else b.

(** The integer [(-1)^s * m]. *)
Definition signed (s : bool) (m : positive) : Z :=
  if s then - Z.pos m else Z.pos m.

(** The integer [Math.round] chooses for a finite [x = (-1)^s * m * 2^e] with
    [e < 0]: the closest integer, a tie going to the one nearer to +infinity,
    that is [floor (x + 1/2)]. *)
Definition round_half_up (s : bool) (m : positive) (e : Z) : Z :=
  let den := 2 ^ (- e) in
  (2 * signed s m + den) / (2 * den).

(** [Math.round(x)]: NaN, the infinities, the zeros and the values that are
    already integers are returned as they are; a result of zero keeps the sign
    of [x]. *)
Definition Math_round (x : number) : number :=
  match Prim2SF x with
  | S754_finite s m e =>
      if 0 <=? e then x
      else
        let n := round_half_up s m e in
        if n =? 0 then (if s then PrimFloat.neg_zero else PrimFloat.zero)
        else of_Z n
  | _ => x
  end.

(** Truthiness of a number: [0], [-0] and NaN are falsy. *)
Definition truthy (x : number) : bool :=
  negb (PrimFloat.is_nan x || PrimFloat.is_zero x).

(** [a !== b] on numbers. *)
Definition strict_neq (a b : number) : bool := negb (PrimFloat.eqb a b).

(** The same number, or both NaN ([+0] and [-0] are the same number). *)
Definition same_number (a b : number) : bool :=
  (PrimFloat.is_nan a && PrimFloat.is_nan b) || PrimFloat.eqb a b.

(** The integer a number is, when it is one. *)
Definition integer_value (x : number) : option Z :=
  match Prim2SF x with
  | S754_zero _ => Some 0
  | S754_finite s m e =>
      if 0 <=? e then Some (signed s m * 2 ^ e)
      else if Z.pos m mod 2 ^ (- e) =? 0 then Some (signed s m / 2 ^ (- e))
      else None
  | _ => None
  end.

(** ** Numbers and their decimal texts

    [Number::toString] prints a number with the fewest digits that are read
    back as the same number, and [StringToNumber] reads a text as the nearest
    number.  Both are computed on the exact value [m * 2^e] of the number. *)

(** The number nearest to the rational [(-1)^s * num / den], ties to even. *)
Definition nearest (s : bool) (num den : Z) : number :=
  if (num <=? 0) || (den <=? 0) then (if s then PrimFloat.neg_zero else PrimFloat.zero)
  else
    let shift := Zdigits2 den - Zdigits2 num + 64 in
    let n := num * 2 ^ Z.max shift 0 in
    let d := den * 2 ^ Z.max (- shift) 0 in
    SF2Prim (binary_round_aux prec emax s (n / d) (- shift) (new_location d (n mod d))).

(** [m * 2^e ?= s * 10^t] *)
Definition compare_scaled (m e s t : Z) : comparison :=
  (m * 2 ^ Z.max e 0 * 10 ^ Z.max (- t) 0 ?= s * 10 ^ Z.max t 0 * 2 ^ Z.max (- e) 0).

(** Whether the decimal [s * 10^t] is read as the number [m * 2^e]. *)
Definition reads_as (m e s t : Z) : bool :=
  let below := if (m =? 2 ^ 52) && (-1074 <? e) then 1 else 2 in
  match compare_scaled (4 * m - below) (e - 2) s t,
        compare_scaled (4 * m + 2) (e - 2) s t with
  | Lt, Gt => true
  | Eq, _ | _, Eq => Z.even m
  | _, _ => false
  end.

(** [n] with [10^(n-1) <= m * 2^e < 10^n]. *)
Fixpoint adjust_exponent (fuel : nat) (m e n : Z) : Z :=
  match fuel with
  | O => n
  | S fuel' =>
      match compare_scaled m e 1 (n - 1) with
      | Lt => adjust_exponent fuel' m e (n - 1)
      | _ => match compare_scaled m e 1 n with
             | Lt => n
             | _ => adjust_exponent fuel' m e (n + 1)
             end
      end
  end.
Definition decimal_exponent (m e : Z) : Z :=
  adjust_exponent 8 m e ((Zdigits2 m + e) * 30103 / 100000).

Fixpoint strip_zeros (fuel : nat) (s t : Z) : Z * Z :=
  match fuel with
  | O => (s, t)
  | S fuel' =>
      if (s mod 10 =? 0) && negb (s =? 0) then strip_zeros fuel' (s / 10) (t + 1)
      else (s, t)
  end.

(** The decimal [s * 10^t] of fewest digits that is read as [m * 2^e]. *)
Fixpoint shortest_from (fuel : nat) (m e n k : Z) : Z * Z :=
  let t := n - k in
  let lo := (m * 2 ^ Z.max e 0 * 10 ^ Z.max (- t) 0) / (2 ^ Z.max (- e) 0 * 10 ^ Z.max t 0) in
  let hi := lo + 1 in
  match fuel with
  | O => (lo, t)
  | S fuel' =>
      match reads_as m e lo t, reads_as m e hi t with
      | true, false => (lo, t)
      | false, true => (hi, t)
      | true, true =>
          match compare_scaled (2 * m) e (lo + hi) t with
          | Lt => (lo, t)
          | Gt => (hi, t)
          | Eq => if Z.even lo then (lo, t) else (hi, t)
          end
      | false, false => shortest_from fuel' m e n (k + 1)
      end
  end.
Definition shortest_decimal (m e : Z) : Z * Z :=
  let '(s, t) := shortest_from 20 m e (decimal_exponent m e) 1 in
  strip_zeros 25 s t.

Fixpoint zeros (n : nat) : string :=
  match n with O => EmptyString | S n' => "0" +:+ zeros n' end.

Definition positive_toString (m e : Z) : string :=
  let '(s, t) := shortest_decimal m e in
  let ds := pretty s in
  let k := Z.of_nat (String.length ds) in
  let n := t + k in
  if (k <=? n) && (n <=? 21) then ds +:+ zeros (Z.to_nat (n - k))
  else if (0 <? n) && (n <=? 21) then
    substring 0 (Z.to_nat n) ds +:+ "." +:+ substring (Z.to_nat n) (Z.to_nat (k - n)) ds
  else if (-6 <? n) && (n <=? 0) then "0." +:+ zeros (Z.to_nat (- n)) +:+ ds
  else
    let exponent := (if n - 1 <? 0 then "-" else "+") +:+ pretty (Z.abs (n - 1)) in
    if k =? 1 then ds +:+ "e" +:+ exponent
    else substring 0 1 ds +:+ "." +:+ substring 1 (Z.to_nat (k - 1)) ds +:+ "e" +:+ exponent.

(** [Number::toString(x)] (radix 10) *)
Definition Number_toString (x : number) : string :=
  match Prim2SF x with
  | S754_nan => "NaN"
  | S754_zero _ => "0"
  | S754_infinity s => if s then "-Infinity" else "Infinity"
  | S754_finite s m e => (if s then "-" else EmptyString) +:+ positive_toString (Z.pos m) e
  end.


(** ** [StringToNumber] *)

Definition bytes (l : list N) : string := string_of_list_ascii (map ascii_of_N l).

(** The UTF-8 encodings of the white space and line terminators of
    [StrWhiteSpaceChar]. *)
Definition white_space : list string :=
  map bytes
    [[9]; [10]; [11]; [12]; [13]; [32]; [194; 160]; [225; 154; 128];
     [226; 128; 128]; [226; 128; 129]; [226; 128; 130]; [226; 128; 131];
     [226; 128; 132]; [226; 128; 133]; [226; 128; 134]; [226; 128; 135];
     [226; 128; 136]; [226; 128; 137]; [226; 128; 138];
     [226; 128; 168]; [226; 128; 169]; [226; 128; 175]; [226; 129; 159];
     [227; 128; 128]; [239; 187; 191]]%N.

Definition string_rev (s : string) : string :=
  string_of_list_ascii (rev (list_ascii_of_string s)).

Definition drop_prefix (p s : string) : option string :=
  if String.prefix p s then Some (substring (String.length p) (String.length s - String.length p) s)
  else None.

Fixpoint trim_start (fuel : nat) (spaces : list string) (s : string) : string :=
  match fuel with
  | O => s
  | S fuel' =>
      match omap (fun p => drop_prefix p s) spaces with
      | rest :: _ => trim_start fuel' spaces rest
      | [] => s
      end
  end.

Definition trim (s : string) : string :=
  let s1 := trim_start (String.length s) white_space s in
  string_rev (trim_start (String.length s1) (map string_rev white_space) (string_rev s1)).

Definition digit_of (radix : Z) (c : ascii) : option Z :=
  let n := Z.of_N (N_of_ascii c) in
  let v := if (48 <=? n) && (n <=? 57) then n - 48
           else if (97 <=? n) && (n <=? 122) then n - 87
           else if (65 <=? n) && (n <=? 90) then n - 55
           else radix in
  if v <? radix then Some v else None.

(** The digits at the head of [s]: their value after [acc], their number,
    and what follows them. *)
Fixpoint read_digits (radix : Z) (s : string) (acc count : Z) : Z * Z * string :=
  match s with
  | String c rest =>
      match digit_of radix c with
      | Some v => read_digits radix rest (radix * acc + v) (count + 1)
      | None => (acc, count, s)
      end
  | EmptyString => (acc, count, s)
  end.

(** [m * 10^t] as a number, for [m >= 0]. *)
Definition decimal_value (negative : bool) (m t : Z) : number :=
  if m =? 0 then (if negative then PrimFloat.neg_zero else PrimFloat.zero)
  else if 400 <? t + (Zdigits2 m - 1) * 30103 / 100000
  then (if negative then PrimFloat.neg_infinity else PrimFloat.infinity)
  else if t + Zdigits2 m * 30103 / 100000 + 1 <? -400
  then (if negative then PrimFloat.neg_zero else PrimFloat.zero)
  else nearest negative (m * 10 ^ Z.max t 0) (10 ^ Z.max (- t) 0).

(** [ExponentPart], optional, to the end of the string. *)
Definition read_exponent (s : string) : option Z :=
  match s with
  | EmptyString => Some 0
  | String c rest =>
      if (Ascii.eqb c "e" || Ascii.eqb c "E")%bool then
        let '(negative, digits) :=
          match rest with
          | String "-" r => (true, r)
          | String "+" r => (false, r)
          | _ => (false, rest)
          end in
        match read_digits 10 digits 0 0 with
        | (v, count, EmptyString) =>
            if 0 <? count then Some (if negative then - v else v) else None
        | _ => None
        end
      else None
  end.

(** [StrUnsignedDecimalLiteral] *)
Definition unsigned_decimal (negative : bool) (s : string) : number :=
  if String.eqb s "Infinity"
  then (if negative then PrimFloat.neg_infinity else PrimFloat.infinity)
  else
    let '(int_part, int_count, after_int) := read_digits 10 s 0 0 in
    let '(mantissa, frac_count, after_frac) :=
      match after_int with
      | String "." r => read_digits 10 r int_part 0
      | _ => (int_part, 0, after_int)
      end in
    if int_count + frac_count =? 0 then NaN
    else
      match read_exponent after_frac with
      | Some e => decimal_value negative mantissa (e - frac_count)
      | None => NaN
      end.

(** A literal in radix 16, 8 or 2, after its prefix. *)
Definition radix_literal (radix : Z) (s : string) : number :=
  match read_digits radix s 0 0 with
  | (v, count, EmptyString) => if 0 <? count then decimal_value false v 0 else NaN
  | _ => NaN
  end.

(** [StringToNumber(str)] *)
Definition StringToNumber (str : string) : number :=
  match trim str with
  | EmptyString => PrimFloat.zero
  | String "0" (String c rest) as s =>
      if (Ascii.eqb c "x" || Ascii.eqb c "X")%bool then radix_literal 16 rest
      else if (Ascii.eqb c "o" || Ascii.eqb c "O")%bool then radix_literal 8 rest
      else if (Ascii.eqb c "b" || Ascii.eqb c "B")%bool then radix_literal 2 rest
      else unsigned_decimal false s
  | String "-" rest => unsigned_decimal true rest
  | String "+" rest => unsigned_decimal false rest
  | s => unsigned_decimal false s
  end.

(** A primitive value that is a number or a string, with the conversions
    [ToNumber] and [ToString] and the operator [+]: the sum of two numbers,
    the concatenation as soon as an operand is a string. *)
Inductive Primitive : Type :=
  | PNumber (x : number)
  | PString (s : string).

Definition ToNumber (v : Primitive) : number :=
  match v with
  | PNumber x => x
  | PString s => StringToNumber s
  end.

Definition ToString (v : Primitive) : string :=
  match v with
  | PNumber x => Number_toString x
  | PString s => s
  end.

Definition plus (a b : Primitive) : Primitive :=
  match a, b with
  | PNumber x, PNumber y => PNumber (x + y)
  | _, _ => PString (ToString a +:+ ToString b)
  end.

End JS.

Import JS.
Local Open Scope float_scope.

(** ** Data model (the interfaces of types/index.ts) *)

Inductive TankType : Set :=
  | LIGHT       (* 'lightTank' *)
  | MEDIUM      (* 'mediumTank' *)
  | HEAVY       (* 'heavyTank' *)
  | DESTROYER   (* 'AT-SPG' *)
  | SPG.        (* 'SPG' *)

Definition TankType_value (t : TankType) : string :=
  match t with
  | LIGHT => "lightTank"
  | MEDIUM => "mediumTank"
  | HEAVY => "heavyTank"
  | DESTROYER => "AT-SPG"
  | SPG => "SPG"
  end.

Definition TankType_eqb (a b : TankType) : bool :=
  match a, b with
  | LIGHT, LIGHT | MEDIUM, MEDIUM | HEAVY, HEAVY
  | DESTROYER, DESTROYER | SPG, SPG => true
  | _, _ => false
  end.

(** A value of a [DECIMAL(p, s)] column of the table: NaN, or a whole number
    of units of [10^-s].  node-postgres hands such a value to JavaScript as
    its text, [numeric_out]: the digits of the integer part, a point and
    [s] digits. *)
Inductive numeric : Type :=
  | numeric_NaN
  | numeric_units (k : Z).

Definition numeric_out (scale : Z) (d : numeric) : string :=
  match d with
  | numeric_NaN => "NaN"
  | numeric_units k =>
      let unit := (10 ^ scale)%Z in
      let fraction := pretty (Z.abs k mod unit)%Z in
      (if (k <? 0)%Z then "-" else EmptyString) +:+ pretty (Z.abs k / unit)%Z
      +:+ (if (0 <? scale)%Z
           then "." +:+ zeros (Z.to_nat scale - String.length fraction) +:+ fraction
           else EmptyString)
  end.

(** [interface Tank].  The fields [image_url], [description], [created_at] and
    [updated_at] are read by no function of the scoring engine and are left out.

    A vehicle read from the table carries the texts of its [DECIMAL] columns.
    The three scores, [DECIMAL(8,3)], are held as the column holds them, their
    text being [score_text]; a score that is [undefined] or [null] is [None].
    [gun_rof], [DECIMAL(5,2)], is read by the scorers in products only, where
    the text counts as the number it reads as: the field holds that number. *)
Record Tank : Type := mkTank {
  id : Z;
  name : string;
  tier : Z;
  type : TankType;
  nation : string;
  is_premium : bool;
  health : number;
  armor_front : number;
  armor_side : number;
  armor_rear : number;
  gun_damage : number;
  gun_penetration : number;
  gun_rof : number;
  mobility_speed : number;
  mobility_power : number;
  score_overall : option numeric;
  score_tier : option numeric;
  score_type : option numeric
}.

(** The score of a row as JavaScript sees it: a string. *)
Definition score_text (d : numeric) : string := numeric_out 3 d.

(** [interface ScoringWeights]; the field order is the key order of the object. *)
Record ScoringWeights : Type := mkWeights {
  damage : number;
  winRate : number;
  survival : number;
  armor : number;
  mobility : number;
  penetration : number
}.

(** ** Pure scorers ([ScoringService], the synchronous part) *)

(** The field [referenceValues]. *)
Module referenceValues.
Definition maxDamage : number := 750.
Definition maxHealth : number := 2500.
Definition maxArmor : number := 300.
Definition maxSpeed : number := 70.
Definition maxPenetration : number := 300.
Definition maxPower : number := 1000.
End referenceValues.

(** The six scorers, [calculateDamageScore] to [calculateWinRateScore]
    (lines 278-371 of the file that holds the class). *)
Definition calculateDamageScore (tank : Tank) : number :=
  let damagePerShot := gun_damage tank in
  let rateOfFire := gun_rof tank in
  let dpm := damagePerShot * rateOfFire in
  let damageRatio := damagePerShot / referenceValues.maxDamage in
  let dpmRatio := dpm / (referenceValues.maxDamage * 10) in
  Math_min 100 ((damageRatio * 0.6 + dpmRatio * 0.4) * 100).

Definition calculateSurvivalScore (tank : Tank) : number :=
  let healthRatio := health tank / referenceValues.maxHealth in
  let avgArmorRatio :=
    (armor_front tank + armor_side tank + armor_rear tank) / 3 / referenceValues.maxArmor in
  Math_min 100 ((healthRatio * 0.7 + avgArmorRatio * 0.3) * 100).

Definition calculateArmorScore (tank : Tank) : number :=
  let frontArmorRatio := armor_front tank / referenceValues.maxArmor in
  let sideArmorRatio := armor_side tank / referenceValues.maxArmor in
  let rearArmorRatio := armor_rear tank / referenceValues.maxArmor in
  let weightedArmor :=
    (frontArmorRatio * 0.5) + (sideArmorRatio * 0.3) + (rearArmorRatio * 0.2) in
  Math_min 100 (weightedArmor * 100).

Definition calculateMobilityScore (tank : Tank) : number :=
  let speedRatio := mobility_speed tank / referenceValues.maxSpeed in
  let powerRatio := mobility_power tank / referenceValues.maxPower in
  let powerToWeightRatio := mobility_power tank / (health tank / 1000) in
  let powerToWeightScore := Math_min 1 (powerToWeightRatio / 30) in
  Math_min 100 ((speedRatio * 0.4 + powerRatio * 0.3 + powerToWeightScore * 0.3) * 100).

Definition calculatePenetrationScore (tank : Tank) : number :=
  let penetrationRatio := gun_penetration tank / referenceValues.maxPenetration in
  Math_min 100 (penetrationRatio * 100).

Definition calculateWinRateScore (tank : Tank) : number :=
  let damageScore := calculateDamageScore tank in
  let survivalScore := calculateSurvivalScore tank in
  let mobilityScore := calculateMobilityScore tank in
  let balanceScore := (damageScore + survivalScore + mobilityScore) / 3 in
  let typeModifier :=
    match type tank with
    | HEAVY => 1.1
    | MEDIUM => 1.05
    | LIGHT => 0.95
    | DESTROYER => 0.9
    | SPG => 1.0
    end in
  Math_min 100 (balanceScore * typeModifier).

(** [calculateOverallScore(tank, weights)] with the weights given. *)
Definition calculateOverallScore (tank : Tank) (weights : ScoringWeights) : number :=
  let damageScore := calculateDamageScore tank in
  let survivalScore := calculateSurvivalScore tank in
  let armorScore := calculateArmorScore tank in
  let mobilityScore := calculateMobilityScore tank in
  let penetrationScore := calculatePenetrationScore tank in
  let winRateScore := calculateWinRateScore tank in
  let overallScore :=
    (damageScore * damage weights) +
    (winRateScore * winRate weights) +
    (survivalScore * survival weights) +
    (armorScore * armor weights) +
    (mobilityScore * mobility weights) +
    (penetrationScore * penetration weights) in
  Math_round (overallScore * 100) / 100.

(** The initial value of the field [defaultWeights]. *)
Definition initialWeights : ScoringWeights :=
  {| damage := 0.25; winRate := 0.20; survival := 0.15;
     armor := 0.15; mobility := 0.15; penetration := 0.10 |}.

(** The keys of a [ScoringWeights] object, in [Object.keys] order. *)
Inductive WeightKey : Set :=
  | k_damage | k_winRate | k_survival | k_armor | k_mobility | k_penetration.

Definition weightKeys : list WeightKey :=
  [k_damage; k_winRate; k_survival; k_armor; k_mobility; k_penetration].

Definition WeightKey_name (k : WeightKey) : string :=
  match k with
  | k_damage => "damage" | k_winRate => "winRate" | k_survival => "survival"
  | k_armor => "armor" | k_mobility => "mobility" | k_penetration => "penetration"
  end.

(** [weights[key]] *)
Definition get_key (k : WeightKey) (o : ScoringWeights) : number :=
  match k with
  | k_damage => damage o | k_winRate => winRate o | k_survival => survival o
  | k_armor => armor o | k_mobility => mobility o | k_penetration => penetration o
  end.

(** [weights[key] = v] *)
Definition set_key (k : WeightKey) (v : number) (o : ScoringWeights) : ScoringWeights :=
  match k with
  | k_damage => mkWeights v (winRate o) (survival o) (armor o) (mobility o) (penetration o)
  | k_winRate => mkWeights (damage o) v (survival o) (armor o) (mobility o) (penetration o)
  | k_survival => mkWeights (damage o) (winRate o) v (armor o) (mobility o) (penetration o)
  | k_armor => mkWeights (damage o) (winRate o) (survival o) v (mobility o) (penetration o)
  | k_mobility => mkWeights (damage o) (winRate o) (survival o) (armor o) v (penetration o)
  | k_penetration => mkWeights (damage o) (winRate o) (survival o) (armor o) (mobility o) v
  end.

(** [Object.values(weights)] *)
Definition Object_values (o : ScoringWeights) : list number :=
  map (fun k => get_key k o) weightKeys.

(** [Partial<ScoringWeights>]: each key present or absent. *)
Definition PartialWeights : Type := WeightKey -> option number.

(** [{ ...base, ...newWeights }] *)
Definition spread (base : ScoringWeights) (newWeights : PartialWeights) : ScoringWeights :=
  let pick k := default (get_key k base) (newWeights k) in
  mkWeights (pick k_damage) (pick k_winRate) (pick k_survival)
            (pick k_armor) (pick k_mobility) (pick k_penetration).

(** ** Exceptions, the object store and the monad of the service *)

Inductive exn : Type := Error (message : string).

Inductive Res (A : Type) : Type :=
  | Ok (a : A)
  | Throw (e : exn).
Arguments Ok {A} a.
Arguments Throw {A} e.

(** A computation over a state [S] that returns or throws. *)
Definition M (S A : Type) : Type := S -> Res A * S.

Definition ret {S A} (a : A) : M S A := fun s => (Ok a, s).
Definition throw {S A} (e : exn) : M S A := fun s => (Throw e, s).
Definition bind {S A B} (c : M S A) (k : A -> M S B) : M S B :=
  fun s => match c s with
           | (Ok a, s') => k a s'
           | (Throw e, s') => (Throw e, s')
           end.
(** [try { body } catch (error) { handler }] *)
Definition try_catch {S A} (body : M S A) (handler : exn -> M S A) : M S A :=
  fun s => match body s with
           | (Ok a, s') => (Ok a, s')
           | (Throw e, s') => handler e s'
           end.

Declare Scope js_scope.
Delimit Scope js_scope with js.
Notation "'let!' x ':=' c 'in' k" := (bind c (fun x => k))
  (at level 10, x pattern, c at level 100, k at level 200) : js_scope.
Notation "c ';;;' k" := (bind c (fun _ => k))
  (at level 100, k at level 200, right associativity) : js_scope.
Local Open Scope js_scope.

(** [await Promise.all(acts)]: every call is started, in order; the result
    is the list of theirs, and the promise rejects with the first rejection. *)
Fixpoint Promise_all {S A} (acts : list (M S A)) : M S (list A) :=
  match acts with
  | [] => ret []
  | act :: rest =>
      fun s => match act s with
               | (Ok a, s') =>
                   match Promise_all rest s' with
                   | (Ok results, s'') => (Ok (a :: results), s'')
                   | (Throw e, s'') => (Throw e, s'')
                   end
               | (Throw e, s') => (Throw e, snd (Promise_all rest s'))
               end
  end.

(** ** The cache: a Redis client, and [CacheService] over it *)

(** The text [JSON.stringify(x)] of a number [x], as [JSON.parse] reads it.
    A finite number is printed with the digits of [Number::toString], which
    are read back as the same number; [-0] is printed as [0]; NaN and the
    infinities are printed as [null]. *)
Inductive JSONText : Type :=
  | text_null
  | text_number (x : number).

Definition JSON_stringify (x : number) : JSONText :=
  if PrimFloat.is_finite x
  then text_number (if PrimFloat.is_zero x then 0 else x)
  else text_null.

(** [JSON.parse(text)]; [null] is [None]. *)
Definition JSON_parse (text : JSONText) : option number :=
  match text with
  | text_null => None
  | text_number x => Some x
  end.

(** The Redis client ([ioredis]) and its server, under the keys of the
    scoring engine, where the texts are those of numbers.  A command is
    rejected (the connection is lost, the server refuses it) or it is served;
    an entry set with [setex] expires when its time has run out.  What
    becomes of the commands to come is listed in [fates], one item for each;
    a command beyond the list is served, nothing having expired. *)
Module Redis.

Inductive Fate : Type :=
  | rejected (message : string)
  | served (expired : list string).

Record t : Type := mk {
  entries : gmap string JSONText;
  fates : list Fate
}.

(** A server that holds nothing and serves every command. *)
Definition init : t := mk ∅ [].

Definition command {A} (run : gmap string JSONText -> Res A * gmap string JSONText)
  : M t A :=
  fun st =>
    match fates st with
    | rejected message :: rest => (Throw (Error message), mk (entries st) rest)
    | served expired :: rest =>
        let (r, es) := run (foldr delete (entries st) expired) in (r, mk es rest)
    | [] =>
        let (r, es) := run (entries st) in (r, mk es [])
    end.

(** [redis.get(key)]: the text, or [null]. *)
Definition get (key : string) : M t (option JSONText) :=
  command (fun es => (Ok (es !! key), es)).

(** [redis.setex(key, seconds, value)]; the server refuses a time that is
    not positive. *)
Definition setex (key : string) (seconds : Z) (value : JSONText) : M t unit :=
  command (fun es =>
             if (seconds <=? 0)%Z
             then (Throw (Error "ERR invalid expire time in 'setex' command"), es)
             else (Ok tt, <[key := value]> es)).

(** [redis.del(key)] and [redis.exists(key)]: the number of keys found. *)
Definition del (key : string) : M t Z :=
  command (fun es => (Ok (match es !! key with Some _ => 1 | None => 0 end)%Z,
                      delete key es)).

Definition exists_ (key : string) : M t Z :=
  command (fun es => (Ok (match es !! key with Some _ => 1 | None => 0 end)%Z, es)).

End Redis.

(** [class CacheService], at the type of the values the scoring engine
    caches (numbers). *)
Module CacheService.

Definition DEFAULT_TTL : Z := 3600.

(** [get<T>(key)]: [value ? JSON.parse(value) : null]; a text is not empty. *)
Definition get (key : string) : M Redis.t (option number) :=
  try_catch
    (let! value := Redis.get key in
     ret (match value with
          | Some text => JSON_parse text
          | None => None
          end))
    (fun error => ret None).

(** [set(key, value, ttl)] *)
Definition set (key : string) (value : number) (ttl : Z) : M Redis.t bool :=
  try_catch
    (Redis.setex key ttl (JSON_stringify value) ;;;
     ret true)
    (fun error => ret false).

(** [del(key)] *)
Definition del (key : string) : M Redis.t bool :=
  try_catch
    (Redis.del key ;;;
     ret true)
    (fun error => ret false).

(** [exists(key)]: [result === 1] *)
Definition exists_ (key : string) : M Redis.t bool :=
  try_catch
    (let! result := Redis.exists_ key in
     ret (result =? 1)%Z)
    (fun error => ret false).

(** [`tank:${tankId}`], [`tanks:list:${filters}`] and [`ranking:${category}`] *)
Definition getTankCacheKey (tankId : Z) : string := "tank:" +:+ pretty tankId.
Definition getTankListCacheKey (filters : string) : string := "tanks:list:" +:+ filters.
Definition getRankingCacheKey (category : string) : string := "ranking:" +:+ category.

End CacheService.

(** ** The columns of the table

    What a column makes of a parameter of a statement.  node-postgres sends a
    number [x] as the text [String(x)], and PostgreSQL reads the text at the
    type of the column; an error of the database is an exception that carries
    its SQLSTATE code. *)

(** An [INTEGER] column: the text must be that of an integer, between
    [-2^31] and [2^31 - 1]. *)
Definition int4_of_Z {S} (n : Z) : M S Z :=
  if ((- 2 ^ 31 <=? n) && (n <? 2 ^ 31))%Z then ret n
  else if (Z.abs n <? 10 ^ 21)%Z then throw (Error "22003")
  else throw (Error "22P02").

Definition int4_in {S} (x : number) : M S Z :=
  match integer_value x with
  | Some n => int4_of_Z n
  | None => throw (Error "22P02")
  end.

(** A [DECIMAL(precision, scale)] column: the decimal of the text is rounded
    to [scale] digits, half away from zero; a value that then needs more than
    [precision] digits is refused, as is an infinity; NaN is a value of the
    column. *)
Definition numeric_in {S} (precision scale : Z) (x : number) : M S numeric :=
  match Prim2SF x with
  | S754_nan => ret numeric_NaN
  | S754_infinity _ => throw (Error "22003")
  | S754_zero _ => ret (numeric_units 0)
  | S754_finite s m e =>
      let '(digits, t) := shortest_decimal (Z.pos m) e in
      let shift := (t + scale)%Z in
      let units :=
        (if 0 <=? shift then digits * 10 ^ shift
         else (2 * digits + 10 ^ (- shift)) / (2 * 10 ^ (- shift)))%Z in
      if (10 ^ precision <=? units)%Z then throw (Error "22003")
      else ret (numeric_units (if s then - units else units)%Z)
  end.

(** A [VARCHAR(n)] column.  A text holds no zero byte; a text of more than
    [n] characters is refused unless what exceeds them is spaces, which are
    cut off.  A character is a byte that does not continue another (UTF-8). *)
Definition continues (c : ascii) : bool :=
  ((128 <=? Z.of_N (N_of_ascii c)) && (Z.of_N (N_of_ascii c) <? 192))%Z.

Fixpoint split_characters (n : nat) (s : string) : string * string :=
  match s with
  | EmptyString => (EmptyString, EmptyString)
  | String c rest =>
      if continues c
      then let (front, back) := split_characters n rest in (String c front, back)
      else match n with
           | O => (EmptyString, s)
           | S n' => let (front, back) := split_characters n' rest in (String c front, back)
           end
  end.

Definition text_in {S} (s : string) : M S string :=
  if existsb (Ascii.eqb Ascii.zero) (list_ascii_of_string s) then throw (Error "22021")
  else ret s.

Definition varchar_in {S} (n : Z) (s : string) : M S string :=
  let (front, back) := split_characters (Z.to_nat n) s in
  if forallb (Ascii.eqb " "%char) (list_ascii_of_string back) then ret front
  else throw (Error "22001").

(** Object references.  A [ScoringWeights] object lives in the heap; the
    service's field [this.defaultWeights] holds a reference to one. *)
Definition loc : Set := positive.

Record World (E : Type) : Type := mkWorld {
  heap : gmap loc ScoringWeights;
  defaultWeights : loc;            (* this.defaultWeights *)
  ext : E                          (* the state of the collaborators *)
}.
Arguments mkWorld {E} _ _ _.
Arguments heap {E} _.
Arguments defaultWeights {E} _.
Arguments ext {E} _.

(** The field refers to a live object. *)
Definition wf_world {E} (w : World E) : Prop := is_Some (heap w !! defaultWeights w).

(** [new ScoringService()] over a given state of the collaborators. *)
Definition new_ScoringService {E} (e : E) : World E :=
  mkWorld {[ 1%positive := initialWeights ]} 1%positive e.

(** Allocation of an object literal. *)
Definition alloc {E} (o : ScoringWeights) : M (World E) loc :=
  fun w => let l := fresh (dom (heap w)) in
           (Ok l, mkWorld (<[l := o]> (heap w)) (defaultWeights w) (ext w)).

(** Reading an object through a reference; a dangling reference does not
    exist in JavaScript, the case is a [TypeError] here. *)
Definition deref {E} (l : loc) : M (World E) ScoringWeights :=
  fun w => match heap w !! l with
           | Some o => (Ok o, w)
           | None => (Throw (Error "TypeError"), w)
           end.

(** [obj[key] = f(obj[key])] on the object at [l]. *)
Definition update_key {E} (l : loc) (k : WeightKey) (f : number -> number) : M (World E) unit :=
  fun w => match heap w !! l with
           | Some o => (Ok tt, mkWorld (<[l := set_key k (f (get_key k o)) o]> (heap w))
                                       (defaultWeights w) (ext w))
           | None => (Throw (Error "TypeError"), w)
           end.

Definition get_this_defaultWeights {E} : M (World E) loc :=
  fun w => (Ok (defaultWeights w), w).
Definition set_this_defaultWeights {E} (l : loc) : M (World E) unit :=
  fun w => (Ok tt, mkWorld (heap w) l (ext w)).

(** [keys.forEach(key => body(key))] *)
Fixpoint forEach {S A} (l : list A) (body : A -> M S unit) : M S unit :=
  match l with
  | [] => ret tt
  | x :: rest => body x ;;; forEach rest body
  end.

(** ** Weight configuration ([updateScoringWeights], [getCurrentWeights]) *)

(** [updateScoringWeights(newWeights)]: the result is the reference held by
    [this.defaultWeights], not a copy. *)
Definition updateScoringWeights {E} (newWeights : PartialWeights) : M (World E) loc :=
  let! old := get_this_defaultWeights in
  let! current := deref old in
  let! merged := alloc (spread current newWeights) in
  set_this_defaultWeights merged ;;;
  let! this_weights := get_this_defaultWeights in
  let! o := deref this_weights in
  let total := fold_left (fun sum weight => sum + weight) (Object_values o) 0 in
  (if strict_neq total 1
   then forEach weightKeys (fun key =>
          let! l := get_this_defaultWeights in
          update_key l key (fun v => v / total))
   else ret tt) ;;;
  get_this_defaultWeights.

(** [getCurrentWeights()]: [{ ...this.defaultWeights }], a new object. *)
Definition getCurrentWeights {E} : M (World E) loc :=
  let! l := get_this_defaultWeights in
  let! o := deref l in
  alloc o.

(** [calculateOverallScore(tank)]: the default parameter [weights = this.defaultWeights]. *)
Definition calculateOverallScore_default {E} (tank : Tank) : M (World E) number :=
  let! l := get_this_defaultWeights in
  let! weights := deref l in
  ret (calculateOverallScore tank weights).

(** ** The collaborators: storage ([TankModel]) and cache ([CacheService]) *)

(** [interface TankFilters]; [search] is never set by the scoring engine and
    is left out. *)
Module Filters.
Record t : Type := mk {
  tier : option (list Z);
  type : option (list TankType);
  nation : option (list string);
  is_premium : option bool
}.
(** The filter [{}]. *)
Definition none : t := mk None None None None.
End Filters.

(** [interface SortOptions]: [field] is a column name; the scoring engine
    sorts on ['id'] and on ['score_overall'] only. *)
Inductive SortField : Set := by_id | by_score_overall.
Inductive SortOrder : Set := asc | desc.
Record SortOptions : Type := mkSort { field : SortField; order : SortOrder }.

(** [interface PaginationOptions] *)
Record PaginationOptions : Type := mkPagination { page : Z; limit : Z }.

(** The result of [getTanks]. *)
Record TanksResult : Type := mkTanksResult { tanks : list Tank; total : Z }.

(** The [scores] argument of [TankModel.updateTankScores]. *)
Module Scores.
Record t : Type := mk {
  overall : option number;
  tier : option number;
  type : option number
}.
End Scores.

(** What the service calls on its collaborators, over a state [E] of theirs:
    the operations of [CacheService] and of [TankModel].  A property stated
    for every instance holds whatever the cache and the database do, each
    call returning or throwing; the instance of the repository is
    [Store.collaborators] below. *)
Class Collaborators (E : Type) : Type := {
  CacheService_get : string -> M E (option number);
  CacheService_set : string -> number -> Z -> M E bool;
  CacheService_del : string -> M E bool;
  CacheService_getTankCacheKey : Z -> string;
  CacheService_getRankingCacheKey : string -> string;
  tankModel_getTanks : Filters.t -> SortOptions -> PaginationOptions -> M E TanksResult;
  tankModel_updateTankScores : Z -> Scores.t -> M E (option Tank)
}.

(** A call on a collaborator, seen from the service. *)
Definition call {E A} (c : M E A) : M (World E) A :=
  fun w => let (r, e') := c (ext w) in (r, mkWorld (heap w) (defaultWeights w) e').

(** The summary [{ updated, errors }] of a bulk recalculation. *)
Record Summary : Type := mkSummary { updated : Z; errors : Z }.

(** ** The asynchronous part of [ScoringService]

    An [await] is a [bind]; what the methods write to the console is not
    modelled. *)

Section Service.
Context {E : Type} {collab : Collaborators E}.

(** [t.score_overall || 0]: the text of the score, which is not empty, or
    the number 0 for a score that is [null]. *)
Definition score_or_0 (x : option numeric) : Primitive :=
  match x with
  | Some d => PString (score_text d)
  | None => PNumber 0
  end.

(** [`tier_average_${tank.tier}`] and [`type_average_${tank.type}`] *)
Definition tier_average_key (tank : Tank) : string :=
  "tier_average_" +:+ pretty (tier tank).
Definition type_average_key (tank : Tank) : string :=
  "type_average_" +:+ TankType_value (type tank).

(** The cohort average, as both relative scorers compute it: the cached
    value unless it is falsy ([if (!average)]: absent, [0] or NaN), else
    [totalScore / length] over the cohort when it has a member (cached for an
    hour), else 75.  [totalScore] is what [reduce] makes of the scores with
    [+]: a string as soon as a row has a score. *)
Definition cohortAverage (cacheKey : string) (filters : Filters.t) : M (World E) number :=
  let! cached := call (CacheService_get cacheKey) in
  let recompute : M (World E) number :=
    let! cohort := call (tankModel_getTanks filters
                           (mkSort by_score_overall desc) (mkPagination 1 1000)) in
    if (0 <? Z.of_nat (length (tanks cohort)))%Z then
      let totalScore :=
        fold_left (fun sum t => plus sum (score_or_0 (score_overall t)))
                  (tanks cohort) (PNumber 0) in
      let average := ToNumber totalScore / of_Z (Z.of_nat (length (tanks cohort))) in
      call (CacheService_set cacheKey average 3600) ;;;
      ret average
    else ret 75 in
  match cached with
  | Some average => if truthy average then ret average else recompute
  | None => recompute
  end.

Definition relativeScore (tank : Tank) (average : number) : M (World E) number :=
  let! overallScore := calculateOverallScore_default tank in
  let relativeScore := (overallScore / average) * 75 in
  ret (Math_min 100 (Math_max 0 relativeScore)).

Definition calculateTierScore (tank : Tank) : M (World E) number :=
  let! tierAverage :=
    cohortAverage (tier_average_key tank)
      (Filters.mk (Some [tier tank]) None None None) in
  relativeScore tank tierAverage.

Definition calculateTypeScore (tank : Tank) : M (World E) number :=
  let! typeAverage :=
    cohortAverage (type_average_key tank)
      (Filters.mk None (Some [type tank]) None None) in
  relativeScore tank typeAverage.

Definition invalidateScoreCache (tank : Tank) : M (World E) unit :=
  let keys := [
    CacheService_getTankCacheKey (id tank);
    CacheService_getRankingCacheKey "overall";
    CacheService_getRankingCacheKey ("tier_" +:+ pretty (tier tank));
    CacheService_getRankingCacheKey ("type_" +:+ TankType_value (type tank));
    tier_average_key tank;
    type_average_key tank
  ] in
  Promise_all (map (fun key => call (CacheService_del key)) keys) ;;;
  ret tt.

Definition invalidateAllScoreCache : M (World E) unit :=
  let keys := ["tanks:stats"; "wargaming:all_tanks"] in
  Promise_all (map (fun key => call (CacheService_del key)) keys) ;;;
  ret tt.

(** The body of the [try] block of [updateTankScores]. *)
Definition updateTankScores_body (tank : Tank) (customWeights : option ScoringWeights)
  : M (World E) (option Tank) :=
  let! weights :=
    match customWeights with
    | Some cw => ret cw
    | None => let! l := get_this_defaultWeights in deref l
    end in
  let overallScore := calculateOverallScore tank weights in
  let! tierScore := calculateTierScore tank in
  let! typeScore := calculateTypeScore tank in
  let! updatedTank :=
    call (tankModel_updateTankScores (id tank)
            (Scores.mk (Some overallScore) (Some tierScore) (Some typeScore))) in
  invalidateScoreCache tank ;;;
  ret updatedTank.

(** [updateTankScores(tank, customWeights?)]: [null] is [None]. *)
Definition updateTankScores (tank : Tank) (customWeights : option ScoringWeights)
  : M (World E) (option Tank) :=
  try_catch (updateTankScores_body tank customWeights)
            (fun error => ret None).

(** The [for (const tank of result.tanks)] loop of [recalculateAllScores],
    on the counters [updated] and [errors]. *)
Fixpoint processPage (page_tanks : list Tank) (customWeights : option ScoringWeights)
         (counters : Summary) : M (World E) Summary :=
  match page_tanks with
  | [] => ret counters
  | tank :: rest =>
      let! counters' :=
        try_catch
          (updateTankScores tank customWeights ;;;
           ret (mkSummary (updated counters + 1) (errors counters)))
          (fun error => ret (mkSummary (updated counters) (errors counters + 1))) in
      processPage rest customWeights counters'
  end.

(** The [while (true)] loop of [recalculateAllScores].  [fuel] bounds the
    number of pages fetched; [None] is a loop still running when the fuel
    is spent. *)
Fixpoint sweep (fuel : nat) (customWeights : option ScoringWeights)
         (page : Z) (counters : Summary) (w : World E)
  : option (Res Summary * World E) :=
  match fuel with
  | O => None
  | S fuel' =>
      let limit := 50%Z in
      match call (tankModel_getTanks Filters.none (mkSort by_id asc)
                    (mkPagination page limit)) w with
      | (Throw e, w1) => Some (Throw e, w1)
      | (Ok result, w1) =>
          if (Z.of_nat (length (tanks result)) =? 0)%Z then Some (Ok counters, w1)
          else
            match processPage (tanks result) customWeights counters w1 with
            | (Throw e, w2) => Some (Throw e, w2)
            | (Ok counters', w2) => sweep fuel' customWeights (page + 1)%Z counters' w2
            end
      end
  end.

(** [recalculateAllScores(customWeights?)]; the outer [catch] rethrows. *)
Definition recalculateAllScores (fuel : nat) (customWeights : option ScoringWeights)
         (w : World E) : option (Res Summary * World E) :=
  match sweep fuel customWeights 1%Z (mkSummary 0 0) w with
  | None => None
  | Some (Throw error, w1) => Some (Throw error, w1)
  | Some (Ok counters, w1) =>
      match invalidateAllScoreCache w1 with
      | (Throw error, w2) => Some (Throw error, w2)
      | (Ok _, w2) => Some (Ok counters, w2)
      end
  end.

End Service.

(** ** The storage and the cache

    The [tanks] table as a list of rows, with the queries of [TankModel] read
    off their SQL text, and the Redis server behind [CacheService].  Writes to
    the rows whose identity is listed in [failing] throw; the queries of the
    scoring engine ([getTanks] and the [UPDATE] of the scores) are recorded in
    [trace]. *)

Module Store.

Inductive Event : Type :=
  | GetTanks (filters : Filters.t) (sort : SortOptions) (pagination : PaginationOptions)
  | UpdateScores (id : Z) (persisted : bool).

Record t : Type := mk {
  rows : list Tank;
  cache : Redis.t;
  failing : list Z;
  trace : list Event
}.

Definition record (ev : Event) (st : t) : t :=
  mk (rows st) (cache st) (failing st) (trace st ++ [ev]).

(** Insertion sort, stable, by a boolean order. *)
Fixpoint insert_by {A} (le : A -> A -> bool) (x : A) (l : list A) : list A :=
  match l with
  | [] => [x]
  | y :: l' => if le x y then x :: y :: l' else y :: insert_by le x l'
  end.
Definition sort_by {A} (le : A -> A -> bool) (l : list A) : list A :=
  fold_right (insert_by le) [] l.

(** [col = ANY(values)], applied when the filter is set and not empty. *)
Definition any_of {A} (eqb : A -> A -> bool) (f : option (list A)) (x : A) : bool :=
  match f with
  | Some (v :: vs) => existsb (eqb x) (v :: vs)
  | _ => true
  end.

Definition matches (filters : Filters.t) (r : Tank) : bool :=
  any_of Z.eqb (Filters.tier filters) (tier r)
  && any_of TankType_eqb (Filters.type filters) (type r)
  && any_of String.eqb (Filters.nation filters) (nation r)
  && match Filters.is_premium filters with
     | Some b => Bool.eqb (is_premium r) b
     | None => true
     end.

(** The order of a nullable numeric column: NULL above every value, NaN
    above every number. *)
Definition numeric_le (a b : option numeric) : bool :=
  match a, b with
  | _, None => true
  | None, Some _ => false
  | Some _, Some numeric_NaN => true
  | Some numeric_NaN, Some (numeric_units _) => false
  | Some (numeric_units x), Some (numeric_units y) => (x <=? y)%Z
  end.

Definition row_le (sort : SortOptions) (a b : Tank) : bool :=
  let le x y :=
    match field sort with
    | by_id => (id x <=? id y)%Z
    | by_score_overall => numeric_le (score_overall x) (score_overall y)
    end in
  match order sort with
  | asc => le a b
  | desc => le b a
  end.

(** [getTanks(filters, sort, pagination)]: [COUNT( * )] of the filtered rows,
    and the rows at [LIMIT limit OFFSET (page - 1) * limit] of their sorted
    list.  A negative [LIMIT] or [OFFSET] is an error of the database. *)
Definition getTanks (filters : Filters.t) (sort : SortOptions)
           (pagination : PaginationOptions) : M t TanksResult :=
  fun st =>
    let st' := record (GetTanks filters sort pagination) st in
    let selected := filter (fun r => matches filters r = true) (rows st) in
    let total := Z.of_nat (length selected) in
    let offset := ((page pagination - 1) * limit pagination)%Z in
    if ((limit pagination <? 0) || (offset <? 0))%Z
    then (Throw (Error "LIMIT or OFFSET must not be negative"), st')
    else
      let data := take (Z.to_nat (limit pagination))
                       (drop (Z.to_nat offset) (sort_by (row_le sort) selected)) in
      (Ok (mkTanksResult data total), st').

(** The values of the [SET] clause of [updateTankScores]: each score that is
    given, as its [DECIMAL(8,3)] column takes it. *)
Module Stored.
Record t : Type := mk {
  overall : option numeric;
  tier : option numeric;
  type : option numeric
}.
End Stored.

Definition score_in {S} (x : option number) : M S (option numeric) :=
  match x with
  | Some v => let! d := numeric_in 8 3 v in ret (Some d)
  | None => ret None
  end.

Definition stored_scores {S} (scores : Scores.t) : M S Stored.t :=
  let! overall := score_in (Scores.overall scores) in
  let! tier := score_in (Scores.tier scores) in
  let! type := score_in (Scores.type scores) in
  ret (Stored.mk overall tier type).

(** The [SET] clause of [updateTankScores] on one row. *)
Definition set_scores (values : Stored.t) (r : Tank) : Tank :=
  mkTank (id r) (name r) (tier r) (type r) (nation r) (is_premium r)
         (health r) (armor_front r) (armor_side r) (armor_rear r)
         (gun_damage r) (gun_penetration r) (gun_rof r)
         (mobility_speed r) (mobility_power r)
         (match Stored.overall values with Some d => Some d | None => score_overall r end)
         (match Stored.tier values with Some d => Some d | None => score_tier r end)
         (match Stored.type values with Some d => Some d | None => score_type r end).

(** [updateTankScores(id, scores)]: with no score given, the row as it is
    ([getTankById]); else [UPDATE ... WHERE id = $n RETURNING *], which fails
    as a whole when a column refuses its value.  The result is
    [rows[0] || null]. *)
Definition updateTankScores (tank_id : Z) (scores : Scores.t) : M t (option Tank) :=
  fun st =>
    if existsb (Z.eqb tank_id) (failing st)
    then (Throw (Error "PersistenceError"), record (UpdateScores tank_id false) st)
    else
      match Scores.overall scores, Scores.tier scores, Scores.type scores with
      | None, None, None =>
          match int4_of_Z tank_id st with
          | (Throw e, _) => (Throw e, st)
          | (Ok i, _) => (Ok (head (filter (fun r => id r = i) (rows st))), st)
          end
      | _, _, _ =>
          match (let! values := stored_scores scores in
                 let! i := int4_of_Z tank_id in
                 ret values) st with
          | (Throw e, _) => (Throw e, record (UpdateScores tank_id false) st)
          | (Ok values, _) =>
              let rows' := map (fun r => if (id r =? tank_id)%Z then set_scores values r
                                         else r)
                               (rows st) in
              (Ok (head (filter (fun r => id r = tank_id) rows')),
               record (UpdateScores tank_id true)
                      (mk rows' (cache st) (failing st) (trace st)))
          end
      end.

(** An operation of [CacheService], on the Redis server of the store. *)
Definition on_cache {A} (op : M Redis.t A) : M t A :=
  fun st => let (r, c) := op (cache st) in (r, mk (rows st) c (failing st) (trace st)).

Definition cache_get (key : string) : M t (option number) :=
  on_cache (CacheService.get key).
Definition cache_set (key : string) (value : number) (ttl : Z) : M t bool :=
  on_cache (CacheService.set key value ttl).
Definition cache_del (key : string) : M t bool :=
  on_cache (CacheService.del key).

(** The collaborators over a store, for given key builders. *)
Definition collaborators (tankKey : Z -> string) (rankingKey : string -> string)
  : Collaborators t :=
  {| CacheService_get := cache_get;
     CacheService_set := cache_set;
     CacheService_del := cache_del;
     CacheService_getTankCacheKey := tankKey;
     CacheService_getRankingCacheKey := rankingKey;
     tankModel_getTanks := getTanks;
     tankModel_updateTankScores := updateTankScores |}.

(** The identities on which a score update was attempted, in order. *)
Definition updates_of (tr : list Event) : list Z :=
  omap (fun ev => match ev with UpdateScores i _ => Some i | _ => None end) tr.
(** The identities whose scores were written, in order. *)
Definition persisted_of (tr : list Event) : list Z :=
  omap (fun ev => match ev with UpdateScores i true => Some i | _ => None end) tr.
(** The pages fetched by the sweep (the queries sorted on [id]), in order. *)
Definition pages_of (tr : list Event) : list PaginationOptions :=
  omap (fun ev => match ev with
                  | GetTanks _ (mkSort by_id _) p => Some p
                  | _ => None
                  end) tr.

End Store.

(** ** The weight endpoint ([ScoringController.updateWeights]) *)

(** A parsed JSON value. *)
Inductive JValue : Type :=
  | JNull
  | JBool (b : bool)
  | JNumber (x : number)
  | JString (s : string)
  | JArray (items : list JValue)
  | JObject (members : list (string * JValue)).

(** The own properties of a value that passed [typeof weights === 'object']:
    the members of an object, the indexed items of an array. *)
Definition own_properties (v : JValue) : list (string * JValue) :=
  match v with
  | JObject members => members
  | JArray items => imap (fun i item => (pretty i, item)) items
  | _ => []
  end.

(** An array index: the canonical text of an integer below [2^32 - 1]. *)
Definition array_index (key : string) : option Z :=
  match read_digits 10 key 0 0 with
  | (n, count, EmptyString) =>
      if ((0 <? count) && (n <? 2 ^ 32 - 1))%Z && String.eqb (pretty n) key
      then Some n else None
  | _ => None
  end.

(** [Object.keys(weights)]: the keys that are array indices, ascending, then
    the other keys in the order of their creation.  [weights[key]]. *)
Definition Object_keys (props : list (string * JValue)) : list string :=
  let keys := map fst props in
  map pretty (merge_sort Z.le (omap array_index keys))
  ++ filter (fun key => array_index key = None) keys.
Definition property (key : string) (props : list (string * JValue)) : option JValue :=
  snd <$> find (fun kv => String.eqb key (fst kv)) props.

(** [!weights || typeof weights !== 'object'], on [req.body.weights]
    ([None] when the body has no such member). *)
Definition not_an_object (weights : option JValue) : bool :=
  match weights with
  | Some (JObject _) | Some (JArray _) => false
  | _ => true
  end.

Definition validKeys : list string :=
  ["damage"; "winRate"; "survival"; "armor"; "mobility"; "penetration"].

(** [validKeys.includes(key)] *)
Definition includes (keys : list string) (key : string) : bool :=
  existsb (String.eqb key) keys.

(** [typeof v !== 'number' || v < 0 || v > 1] *)
Definition invalid_value (v : option JValue) : bool :=
  match v with
  | Some (JNumber x) => PrimFloat.ltb x 0 || PrimFloat.ltb 1 x
  | _ => true
  end.

(** The three ways the endpoint refuses a request with status 400. *)
Inductive WeightError : Type :=
  | InvalidWeights                       (* 'Poids de scoring invalides' *)
  | InvalidWeightKey (key : string)      (* `Clé de poids invalide: ${key}` *)
  | InvalidWeightValue (key : string).   (* `Valeur de poids invalide pour ${key}: ...` *)

Inductive Response : Type :=
  | Json200 (data : ScoringWeights)
  | Status400 (error : WeightError)
  | Status500.

(** The validation loop [for (const key of providedKeys)]: the first
    offending key, if any. *)
Fixpoint validate (props : list (string * JValue)) (providedKeys : list string)
  : option WeightError :=
  match providedKeys with
  | [] => None
  | key :: rest =>
      if negb (includes validKeys key) then Some (InvalidWeightKey key)
      else if invalid_value (property key props) then Some (InvalidWeightValue key)
      else validate props rest
  end.

(** The validated body seen as a [Partial<ScoringWeights>]. *)
Definition as_partial (props : list (string * JValue)) : PartialWeights :=
  fun k => match property (WeightKey_name k) props with
           | Some (JNumber x) => Some x
           | _ => None
           end.

(** [updateWeights(req, res)], on [req.body.weights]; the response carries
    the content of the object at the moment [res.json] serialises it. *)
Definition updateWeights {E} (weights : option JValue) : M (World E) Response :=
  try_catch
    (if not_an_object weights then ret (Status400 InvalidWeights)
     else
       let props := own_properties (default JNull weights) in
       let providedKeys := Object_keys props in
       match validate props providedKeys with
       | Some error => ret (Status400 error)
       | None =>
           let! updatedWeights := updateScoringWeights (as_partial props) in
           let! data := deref updatedWeights in
           ret (Json200 data)
       end)
    (fun error => ret Status500).

(** The key builders of [CacheService], for the examples. *)
Definition sample_tankKey (i : Z) : string := CacheService.getTankCacheKey i.
Definition sample_rankingKey (category : string) : string :=
  CacheService.getRankingCacheKey category.

(** ** Fixtures *)

(** The vehicle of the specification's worked example. *)
Definition heavy_example : Tank :=
  {| id := 1; name := "heavy"; tier := 10; type := HEAVY; nation := "ussr";
     is_premium := false; health := 1800;
     armor_front := 300; armor_side := 200; armor_rear := 100;
     gun_damage := 400; gun_penetration := 200; gun_rof := 6;
     mobility_speed := 45; mobility_power := 650;
     score_overall := None; score_tier := None; score_type := None |}.

(** The same vehicle under another identity. *)
Definition heavy_example2 : Tank :=
  {| id := 2; name := "heavy2"; tier := 10; type := HEAVY; nation := "ussr";
     is_premium := false; health := 1800;
     armor_front := 300; armor_side := 200; armor_rear := 100;
     gun_damage := 400; gun_penetration := 200; gun_rof := 6;
     mobility_speed := 45; mobility_power := 650;
     score_overall := None; score_tier := None; score_type := None |}.

(** A vehicle all of whose attributes are zero. *)
Definition zero_vehicle : Tank :=
  {| id := 3; name := "zero"; tier := 1; type := LIGHT; nation := "other";
     is_premium := false; health := 0;
     armor_front := 0; armor_side := 0; armor_rear := 0;
     gun_damage := 0; gun_penetration := 0; gun_rof := 0;
     mobility_speed := 0; mobility_power := 0;
     score_overall := None; score_tier := None; score_type := None |}.

(** A vehicle without a gun (no damage), otherwise ordinary. *)
Definition unarmed_vehicle : Tank :=
  {| id := 4; name := "unarmed"; tier := 5; type := MEDIUM; nation := "uk";
     is_premium := false; health := 900;
     armor_front := 60; armor_side := 40; armor_rear := 30;
     gun_damage := 0; gun_penetration := 0; gun_rof := 0;
     mobility_speed := 50; mobility_power := 400;
     score_overall := None; score_tier := None; score_type := None |}.

Definition sample_collaborators : Collaborators Store.t :=
  Store.collaborators sample_tankKey sample_rankingKey.

(** A store with the two heavy vehicles, no score computed yet, an empty
    cache, and writes failing for vehicle 2. *)
Definition store_one_failing : Store.t :=
  Store.mk [heavy_example2; heavy_example] Redis.init [2%Z] [].

(** What a finished sweep is observed by: its result, the identities whose
    update was attempted, and those whose scores were written. *)
Definition observe (run : option (Res Summary * World Store.t))
  : option (Res Summary * list Z * list Z) :=
  match run with
  | Some (r, w) => Some (r, Store.updates_of (Store.trace (ext w)),
                            Store.persisted_of (Store.trace (ext w)))
  | None => None
  end.

(** The request body [{damage: 0, winRate: 0, survival: 0, armor: 0, mobility: 0, penetration: 0}]. *)
Definition all_zero_request : JValue :=
  JObject [("damage", JNumber 0); ("winRate", JNumber 0); ("survival", JNumber 0);
           ("armor", JNumber 0); ("mobility", JNumber 0); ("penetration", JNumber 0)].

(** The sum of the weights, as [updateScoringWeights] computes it. *)
Definition weights_total (o : ScoringWeights) : number :=
  fold_left (fun sum weight => sum + weight) (Object_values o) 0.

(** [|total - 1| <= 1e-9] *)
Definition sums_to_one (o : ScoringWeights) : bool :=
  PrimFloat.leb (PrimFloat.abs (weights_total o - 1)) 1e-9.

(** [0 <= x <= 100] *)
Definition in_0_100 (x : number) : bool :=
  PrimFloat.leb 0 x && PrimFloat.leb x 100.

(** A table holding one vehicle, not scored yet, and an empty cache. *)
Definition fresh_store (tank : Tank) : Store.t := Store.mk [tank] Redis.init [] [].

(** The update [{damage: 1, winRate: 0, survival: 0, armor: 0, mobility: 0, penetration: 0}]. *)
Definition damage_only : PartialWeights :=
  fun k => match k with k_damage => Some 1 | _ => Some 0 end.

(** The tier-relative and the type-relative score of a vehicle in a world. *)
Definition relative_scores (w : World Store.t) (tank : Tank) : Res number * Res number :=
  (fst (calculateTierScore (collab := sample_collaborators) tank w),
   fst (calculateTypeScore (collab := sample_collaborators) tank w)).

(** A caller writing [obj[key] = v], for each [(key, v)] of [writes] in turn,
    on the object it holds a reference [l] to. *)
Definition mutate {E} (l : loc) (writes : list (WeightKey * number)) : M (World E) unit :=
  forEach writes (fun kv => update_key l (fst kv) (fun _ => snd kv)).

(** Every weight of [o] divided by [total]. *)
Definition divided_by (total : number) (o : ScoringWeights) : ScoringWeights :=
  mkWeights (damage o / total) (winRate o / total) (survival o / total)
            (armor o / total) (mobility o / total) (penetration o / total).

(** The update [{damage: 0.5}]. *)
Definition damage_half : PartialWeights :=
  fun k => match k with k_damage => Some 0.5 | _ => None end.

(** The request body [{damage: 0.5}]. *)
Definition damage_half_request : JValue := JObject [("damage", JNumber 0.5)].

(** ** The aggregation formula, as the specification words it (section 4.2)

    [overall = round2 (sum of subscore_i * weight_i)] over the six dimensions,
    [round2] being a half-up rounding of the value scaled by 100.  The
    rounding is stated on exact values: a finite number is [(-1)^s m 2^e]
    for the [s], [m] and [e] of its representation. *)

Definition dimension_terms (tank : Tank) (weights : ScoringWeights) : list (number * number) :=
  [(calculateDamageScore tank, damage weights);
   (calculateWinRateScore tank, winRate weights);
   (calculateSurvivalScore tank, survival weights);
   (calculateArmorScore tank, armor weights);
   (calculateMobilityScore tank, mobility weights);
   (calculatePenetrationScore tank, penetration weights)].

Definition weighted_sum (terms : list (number * number)) : number :=
  match terms with
  | [] => 0
  | first :: rest =>
      fold_left (fun sum term => sum + fst term * snd term) rest (fst first * snd first)
  end.

(** [n] is [x] rounded half-up: the integer with [n - 1/2 <= x < n + 1/2]. *)
Definition half_up (x : number) (n : Z) : Prop :=
  match Prim2SF x with
  | S754_zero _ => n = 0%Z
  | S754_finite s m e =>
      if (0 <=? e)%Z then n = (signed s m * 2 ^ e)%Z
      else ((2 * n - 1) * 2 ^ (- e) <= 2 * signed s m
            /\ 2 * signed s m < (2 * n + 1) * 2 ^ (- e))%Z
  | _ => False
  end.

(** The sign bit of a number. *)
Definition sign_bit (x : number) : bool :=
  match Prim2SF x with
  | S754_zero s | S754_infinity s | S754_finite s _ _ => s
  | S754_nan => false
  end.

(** [r] is [x] rounded to two decimals: the scaled value [x * 100], rounded
    half-up to an integer, a zero keeping the sign, and divided by 100.  A
    scaled value that is not finite is divided as it is. *)
Definition round2 (x r : number) : Prop :=
  match Prim2SF (x * 100) with
  | S754_nan | S754_infinity _ => r = x * 100 / 100
  | _ =>
      exists (q : number) (n : Z),
        half_up (x * 100) n
        /\ integer_value q = Some n
        /\ (n = 0%Z -> q = if sign_bit (x * 100) then PrimFloat.neg_zero else PrimFloat.zero)
        /\ r = q / 100
  end.

(** ** What a step of the sweep changes in a store

    [Store.advanced us ps st st']: from [st] to [st'] the identities of the
    rows and the failing writes are the same, the updates [us] were attempted
    and the pages [ps] were fetched by the sweep, in that order. *)

Definition Store_advanced (us : list Z) (ps : list PaginationOptions) (st st' : Store.t)
  : Prop :=
  map id (Store.rows st') = map id (Store.rows st)
  /\ Store.failing st' = Store.failing st
  /\ Store.updates_of (Store.trace st') = Store.updates_of (Store.trace st) ++ us
  /\ Store.pages_of (Store.trace st') = Store.pages_of (Store.trace st) ++ ps.

(** The same for a world: the weights of the service are not touched. *)
Definition advanced (us : list Z) (ps : list PaginationOptions) (w w' : World Store.t)
  : Prop :=
  heap w' = heap w
  /\ defaultWeights w' = defaultWeights w
  /\ Store_advanced us ps (ext w) (ext w').

(** The pages [first], [first + 1], ..., [count] of them, of 50 vehicles each. *)
Definition pages_from (first count : nat) : list PaginationOptions :=
  map (fun p => mkPagination (Z.of_nat p) 50) (seq first count).

(** The identities of the rows, ascending. *)
Definition sorted_ids (st : Store.t) : list Z :=
  Store.sort_by Z.leb (map id (Store.rows st)).

(** * Further code of the repository *)

(** ** Collaborators that cannot be reached *)

(** A database every query on which throws, and a cache whose Redis server
    cannot be reached: [CacheService] answers [null] and [false]. *)
Definition unreachable : Collaborators unit :=
  {| CacheService_get := fun _ => ret None;
     CacheService_set := fun _ _ _ => ret false;
     CacheService_del := fun _ => ret false;
     CacheService_getTankCacheKey := sample_tankKey;
     CacheService_getRankingCacheKey := sample_rankingKey;
     tankModel_getTanks := fun _ _ _ => throw (Error "ECONNREFUSED");
     tankModel_updateTankScores := fun _ _ => throw (Error "ECONNREFUSED") |}.

(** The update [{}]. *)
Definition no_change : PartialWeights := fun _ => None.

(** The service over a table that holds the worked example, while Redis
    cannot be reached: each of the next twelve commands is rejected. *)
Definition world_without_redis : World Store.t :=
  new_ScoringService
    (Store.mk [heavy_example]
              (Redis.mk ∅ (repeat (Redis.rejected "ECONNREFUSED") 12)) [] []).

(** A vehicle without health and without engine power; the other attributes
    are those of the worked example. *)
Definition wreck : Tank :=
  {| id := 5; name := "wreck"; tier := 10; type := HEAVY; nation := "ussr";
     is_premium := false; health := 0;
     armor_front := 300; armor_side := 200; armor_rear := 100;
     gun_damage := 400; gun_penetration := 200; gun_rof := 6;
     mobility_speed := 45; mobility_power := 0;
     score_overall := None; score_tier := None; score_type := None |}.

(** ** What the cache and the relative scorers leave alone in a store *)

(** From [st] to [st'] the table, the failing writes and the trace are the
    same: only the Redis server may differ. *)
Definition same_rows (st st' : Store.t) : Prop :=
  Store.rows st' = Store.rows st
  /\ Store.failing st' = Store.failing st
  /\ Store.trace st' = Store.trace st.

(** From [w] to [w'] the table, the failing writes and the weights of the
    service are the same: only the cache and the trace may differ. *)
Definition same_table (w w' : World Store.t) : Prop :=
  heap w' = heap w
  /\ defaultWeights w' = defaultWeights w
  /\ Store.rows (ext w') = Store.rows (ext w)
  /\ Store.failing (ext w') = Store.failing (ext w).

(** ** [TankModel]: the other queries

    As in [Store], each query is read off its SQL text, and each parameter is
    read by the column it is compared with or written to.  A write to a row
    whose identity is listed in [failing] throws.  The queries of this module
    are not recorded in the trace. *)

Module TankModel.

(** [CHECK (tier >= 1 AND tier <= 10)] *)
Definition tier_check (t : Tank) : bool := (1 <=? tier t)%Z && (tier t <=? 10)%Z.

(** [getTankById(id)]: [SELECT * FROM tanks WHERE id = $1], [rows[0] || null]. *)
Definition getTankById (tank_id : Z) : M Store.t (option Tank) :=
  let! i := int4_of_Z tank_id in
  fun st => (Ok (head (filter (fun r => id r = i) (Store.rows st))), st).

(** The attributes of the row the statement of [upsertTank] writes, as they
    are read back: each parameter as its column of [createTable] takes it,
    the [CHECK] on [tier] last.  The result keeps the scores of [tank]. *)
Definition columns_of {S} (tank : Tank) : M S Tank :=
  let! id' := int4_of_Z (id tank) in
  let! name' := text_in (name tank) in
  let! tier' := int4_of_Z (tier tank) in
  let! nation' := text_in (nation tank) in
  let! health' := int4_in (health tank) in
  let! armor_front' := int4_in (armor_front tank) in
  let! armor_side' := int4_in (armor_side tank) in
  let! armor_rear' := int4_in (armor_rear tank) in
  let! gun_damage' := int4_in (gun_damage tank) in
  let! gun_penetration' := int4_in (gun_penetration tank) in
  let! mobility_speed' := int4_in (mobility_speed tank) in
  let! mobility_power' := int4_in (mobility_power tank) in
  let! name'' := varchar_in 255 name' in
  let! nation'' := varchar_in 50 nation' in
  let! gun_rof' := numeric_in 5 2 (gun_rof tank) in
  if negb ((1 <=? tier') && (tier' <=? 10))%Z then throw (Error "23514")
  else
    ret (mkTank id' name'' tier' (type tank) nation'' (is_premium tank)
                (of_Z health') (of_Z armor_front') (of_Z armor_side') (of_Z armor_rear')
                (of_Z gun_damage') (of_Z gun_penetration')
                (StringToNumber (numeric_out 2 gun_rof'))
                (of_Z mobility_speed') (of_Z mobility_power')
                (score_overall tank) (score_tier tank) (score_type tank)).

Definition row_of (tank : Tank) : Res Tank := fst (columns_of (S := unit) tank tt).

(** The row [INSERT INTO tanks (id, name, ..., mobility_power, updated_at)]
    adds: the three score columns take their [DEFAULT 0]. *)
Definition inserted (row : Tank) : Tank :=
  mkTank (id row) (name row) (tier row) (type row) (nation row) (is_premium row)
         (health row) (armor_front row) (armor_side row) (armor_rear row)
         (gun_damage row) (gun_penetration row) (gun_rof row)
         (mobility_speed row) (mobility_power row)
         (Some (numeric_units 0)) (Some (numeric_units 0)) (Some (numeric_units 0)).

(** [ON CONFLICT (id) DO UPDATE SET name = EXCLUDED.name, ...] on the row [r]:
    the attributes are replaced, the score columns are not in the list. *)
Definition excluded_into (row r : Tank) : Tank :=
  mkTank (id r) (name row) (tier row) (type row) (nation row) (is_premium row)
         (health row) (armor_front row) (armor_side row) (armor_rear row)
         (gun_damage row) (gun_penetration row) (gun_rof row)
         (mobility_speed row) (mobility_power row)
         (score_overall r) (score_tier r) (score_type r).

(** The table after the statement of [upsertTank] has written [row], and the
    row it returns. *)
Definition written (row : Tank) (rows : list Tank) : list Tank :=
  if existsb (fun r => id r =? id row)%Z rows
  then map (fun r => if (id r =? id row)%Z then excluded_into row r else r) rows
  else rows ++ [inserted row].

Definition returned (row : Tank) (rows : list Tank) : Tank :=
  match find (fun r => id r =? id row)%Z rows with
  | Some r => excluded_into row r
  | None => inserted row
  end.

(** The table after the statement of [upsertTank] for [tank]: as it was when
    a column refuses its value. *)
Definition rows_after_upsert (tank : Tank) (rows : list Tank) : list Tank :=
  match row_of tank with
  | Ok row => written row rows
  | Throw _ => rows
  end.

(** Whether the database accepts the statement of [upsertTank]. *)
Definition upsert_error (tank : Tank) (st : Store.t) : option exn :=
  if existsb (Z.eqb (id tank)) (Store.failing st) then Some (Error "PersistenceError")
  else match row_of tank with
       | Ok _ => None
       | Throw e => Some e
       end.

(** [upsertTank(tank)]: [INSERT ... ON CONFLICT (id) DO UPDATE ... RETURNING *],
    [rows[0]]. *)
Definition upsertTank (tank : Tank) : M Store.t Tank :=
  fun st =>
    if existsb (Z.eqb (id tank)) (Store.failing st)
    then (Throw (Error "PersistenceError"), st)
    else
      match row_of tank with
      | Throw e => (Throw e, st)
      | Ok row =>
          (Ok (returned row (Store.rows st)),
           Store.mk (written row (Store.rows st))
                    (Store.cache st) (Store.failing st) (Store.trace st))
      end.

(** [deleteTank(id)]: [DELETE FROM tanks WHERE id = $1],
    [rowCount !== null && rowCount > 0]. *)
Definition deleteTank (tank_id : Z) : M Store.t bool :=
  fun st =>
    if existsb (Z.eqb tank_id) (Store.failing st)
    then (Throw (Error "PersistenceError"), st)
    else
      match int4_of_Z tank_id st with
      | (Throw e, _) => (Throw e, st)
      | (Ok i, _) =>
          let rowCount := Z.of_nat (length (filter (fun r => id r = i) (Store.rows st))) in
          (Ok (0 <? rowCount)%Z,
           Store.mk (filter (fun r => id r <> i) (Store.rows st))
                    (Store.cache st) (Store.failing st) (Store.trace st))
      end.

(** The [category] of a ranking, and its column [score_${category}]. *)
Inductive Category : Set := by_overall | by_tier | by_type.

Definition score_column (category : Category) (r : Tank) : option numeric :=
  match category with
  | by_overall => score_overall r
  | by_tier => score_tier r
  | by_type => score_type r
  end.

(** [getTopTanks(category, limit, tier?, type?)]:
    [SELECT * FROM tanks WHERE ... ORDER BY score_${category} DESC LIMIT $n]. *)
Definition top_filter (tier_eq : option Z) (type_eq : option TankType) (r : Tank) : bool :=
  match tier_eq with Some t => (tier r =? t)%Z | None => true end
  && match type_eq with Some t => TankType_eqb (type r) t | None => true end.

Definition getTopTanks (category : Category) (limit : Z)
           (tier_eq : option Z) (type_eq : option TankType) : M Store.t (list Tank) :=
  let! tier_eq' :=
    match tier_eq with
    | Some t => let! t' := int4_of_Z t in ret (Some t')
    | None => ret None
    end in
  fun st =>
    let selected := filter (fun r => top_filter tier_eq' type_eq r = true) (Store.rows st) in
    let le a b := Store.numeric_le (score_column category b) (score_column category a) in
    if (limit <? 0)%Z then (Throw (Error "LIMIT must not be negative"), st)
    else (Ok (take (Z.to_nat limit) (Store.sort_by le selected)), st).

(** [GROUP BY key] with [COUNT( * )], reduced to an object: a count for each
    key that occurs. *)
Definition tally {A K} `{Countable K} (key : A -> K) (l : list A) : gmap K Z :=
  fold_left (fun acc x => <[key x := (default 0 (acc !! key x) + 1)%Z]> acc) l ∅.

(** The result of [getStats]. *)
Record Stats : Type := mkStats {
  total : Z;
  byTier : gmap Z Z;
  byType : gmap string Z;
  byNation : gmap string Z
}.

Definition getStats : M Store.t Stats :=
  fun st =>
    (Ok (mkStats (Z.of_nat (length (Store.rows st)))
                 (tally tier (Store.rows st))
                 (tally (fun r => TankType_value (type r)) (Store.rows st))
                 (tally nation (Store.rows st))),
     st).

(** The loop [for (const tank of tanks)] of [bulkUpsertTanks]. *)
Fixpoint upsert_each (tanks : list Tank) (insertedCount : Z) : M Store.t Z :=
  match tanks with
  | [] => ret insertedCount
  | tank :: rest => upsertTank tank ;;; upsert_each rest (insertedCount + 1)%Z
  end.

(** A statement on the client that [this.db.connect()] checked out.  The
    upserts do not run on that client: [upsertTank] calls [this.db.query],
    which takes a connection of its own from the pool and commits at once.
    The transaction of the client holds no statement, and its [BEGIN],
    [COMMIT] and [ROLLBACK] change nothing in the table. *)
Definition client_query (sql : string) : M Store.t unit := ret tt.

(** [bulkUpsertTanks(tanks)] *)
Definition bulkUpsertTanks (tanks : list Tank) : M Store.t Z :=
  if (Z.of_nat (length tanks) =? 0)%Z then ret 0%Z
  else
    try_catch
      (client_query "BEGIN" ;;;
       let! insertedCount := upsert_each tanks 0 in
       client_query "COMMIT" ;;;
       ret insertedCount)
      (fun error => client_query "ROLLBACK" ;;; throw error).

End TankModel.

(** The attributes of a vehicle: every column but the identity and the scores. *)
Definition attributes (t : Tank) :=
  (name t, tier t, type t, nation t, is_premium t,
   (health t, armor_front t, armor_side t, armor_rear t),
   (gun_damage t, gun_penetration t, gun_rof t, mobility_speed t, mobility_power t)).

(** The three scores of a row. *)
Definition scores_of (t : Tank) := (score_overall t, score_tier t, score_type t).

(** The characters of a text: the bytes that do not continue another. *)
Definition characters (s : string) : nat :=
  length (List.filter (fun c => negb (continues c)) (list_ascii_of_string s)).

(** A number given for an [INTEGER] column, and the number read back: the
    same integer, of 32 bits. *)
Definition integer_column (given stored : number) : Prop :=
  exists n : Z,
    integer_value given = Some n /\ (- 2 ^ 31 <= n < 2 ^ 31)%Z
    /\ integer_value stored = Some n.

(** A text given for a [VARCHAR(n)] column, and the text read back: the same
    but for spaces at its end, and of [n] characters at most. *)
Definition varchar_column (n : nat) (given stored : string) : Prop :=
  exists spaces : string,
    given = stored +:+ spaces
    /\ Forall (fun c => c = " "%char) (list_ascii_of_string spaces)
    /\ (characters stored <= n)%nat.

(** The vehicle given to [upsertTank], and its attributes in the row read
    back. *)
Definition stored_as (tank res : Tank) : Prop :=
  id res = id tank
  /\ tier res = tier tank /\ (1 <= tier tank <= 10)%Z
  /\ type res = type tank
  /\ is_premium res = is_premium tank
  /\ varchar_column 255 (name tank) (name res)
  /\ varchar_column 50 (nation tank) (nation res)
  /\ integer_column (health tank) (health res)
  /\ integer_column (armor_front tank) (armor_front res)
  /\ integer_column (armor_side tank) (armor_side res)
  /\ integer_column (armor_rear tank) (armor_rear res)
  /\ integer_column (gun_damage tank) (gun_damage res)
  /\ integer_column (gun_penetration tank) (gun_penetration res)
  /\ integer_column (mobility_speed tank) (mobility_speed res)
  /\ integer_column (mobility_power tank) (mobility_power res)
  /\ exists d : numeric,
       fst (numeric_in (S := unit) 5 2 (gun_rof tank) tt) = Ok d
       /\ gun_rof res = StringToNumber (numeric_out 2 d).

(** What the schema keeps true of the table: the identities are distinct
    (the primary key) and every tier is in 1..10 (the check). *)
Definition table_ok (rows : list Tank) : Prop :=
  NoDup (map id rows) /\ Forall (fun r => TankModel.tier_check r = true) rows.

(** The entry of a tally for a key that occurs [n] times: none when [n] is 0. *)
Definition count_entry (n : nat) : option Z :=
  if (n =? 0)%nat then None else Some (Z.of_nat n).

(** The table after the upserts of [tanks], one after the other. *)
Definition rows_after_upserts (tanks : list Tank) (rows : list Tank) : list Tank :=
  foldl (fun rows tank => TankModel.rows_after_upsert tank rows) rows tanks.

(** A store in which the write of vehicle 2 fails, holding vehicle 1. *)
Definition store_rejecting_2 : Store.t := Store.mk [heavy_example] Redis.init [2%Z] [].

(** A row with the overall score [overall / 1000] and the two other scores at
    their default. *)
Definition scored (t : Tank) (overall : Z) : Tank :=
  mkTank (id t) (name t) (tier t) (type t) (nation t) (is_premium t)
         (health t) (armor_front t) (armor_side t) (armor_rear t)
         (gun_damage t) (gun_penetration t) (gun_rof t)
         (mobility_speed t) (mobility_power t)
         (Some (numeric_units overall)) (Some (numeric_units 0)) (Some (numeric_units 0)).

(** A table with the two heavy vehicles of tier 10, scored 65.170 and 70.000,
    and an empty cache. *)
Definition scored_cohort : Store.t :=
  Store.mk [scored heavy_example 65170; scored heavy_example2 70000] Redis.init [] [].

(** A vehicle of tier 11. *)
Definition tier_11_vehicle : Tank :=
  {| id := 9; name := "t11"; tier := 11; type := HEAVY; nation := "ussr";
     is_premium := false; health := 1800;
     armor_front := 300; armor_side := 200; armor_rear := 100;
     gun_damage := 400; gun_penetration := 200; gun_rof := 6;
     mobility_speed := 45; mobility_power := 650;
     score_overall := None; score_tier := None; score_type := None |}.

(** ** [ScoringService.generateScoreReport] *)

(** The triple [{ overall, tier, type }] of the averages. *)
Record Averages : Type := mkAverages {
  avg_overall : number;
  avg_tier : number;
  avg_type : number
}.

(** The report; the counts of [scoreDistribution] are integers. *)
Record ScoreReport : Type := mkReport {
  totalTanks : Z;
  averageScores : Averages;
  topPerformers : list Tank;
  scoreDistribution : gmap string Z
}.

(** The first [reduce]: what [+] makes of the three scores of the rows, a
    score that is [null] counting as 0. *)
Record Totals : Type := mkTotals {
  total_overall : Primitive;
  total_tier : Primitive;
  total_type : Primitive
}.

Definition totalScores (all : list Tank) : Totals :=
  fold_left (fun acc tank =>
               mkTotals (plus (total_overall acc) (score_or_0 (score_overall tank)))
                        (plus (total_tier acc) (score_or_0 (score_tier tank)))
                        (plus (total_type acc) (score_or_0 (score_type tank))))
            all (mkTotals (PNumber 0) (PNumber 0) (PNumber 0)).

(** The band of a score; [score >= 90] compares the number a text reads as. *)
Definition score_range (score : Primitive) : string :=
  if PrimFloat.leb 90 (ToNumber score) then "90-100"
  else if PrimFloat.leb 80 (ToNumber score) then "80-89"
  else if PrimFloat.leb 70 (ToNumber score) then "70-79"
  else if PrimFloat.leb 60 (ToNumber score) then "60-69"
  else "0-59".

(** The second [reduce]: [acc[range] = (acc[range] || 0) + 1]. *)
Definition distribution (all : list Tank) : gmap string Z :=
  fold_left (fun acc tank =>
               let score := score_or_0 (score_overall tank) in
               let range := score_range score in
               <[range := (default 0 (acc !! range) + 1)%Z]> acc)
            all ∅.

Section Report.
Context {E : Type} {collab : Collaborators E}.
(** The two queries of [TankModel] the report makes besides [getTanks]. *)
Variable tankModel_getStats : M E TankModel.Stats.
Variable tankModel_getTopTanks :
  TankModel.Category -> Z -> option Z -> option TankType -> M E (list Tank).

Definition generateScoreReport : M (World E) ScoreReport :=
  let! stats := call tankModel_getStats in
  let! topTanks := call (tankModel_getTopTanks TankModel.by_overall 10%Z None None) in
  let! allTanks := call (tankModel_getTanks Filters.none
                           (mkSort by_score_overall desc) (mkPagination 1 1000)) in
  let totals := totalScores (tanks allTanks) in
  let n := of_Z (Z.of_nat (length (tanks allTanks))) in
  let averages := mkAverages (ToNumber (total_overall totals) / n)
                             (ToNumber (total_tier totals) / n)
                             (ToNumber (total_type totals) / n) in
  ret (mkReport (TankModel.total stats) averages topTanks (distribution (tanks allTanks))).

End Report.

(** The five bands, and the sum of their counts in a distribution. *)
Definition bands : list string := ["90-100"; "80-89"; "70-79"; "60-69"; "0-59"].

Definition band_total (d : gmap string Z) : Z :=
  fold_right (fun band sum => (default 0 (d !! band) + sum)%Z) 0%Z bands.

(** The band of a vehicle. *)
Definition band_of (t : Tank) : string := score_range (score_or_0 (score_overall t)).

(** ** [WargamingService]: from the data of the game API to a vehicle *)

(** [enum Nation], with its values. *)
Inductive Nation : Set :=
  | USSR | GERMANY | USA | CHINA | FRANCE | UK | JAPAN | OTHER.

Definition Nation_value (n : Nation) : string :=
  match n with
  | USSR => "ussr" | GERMANY => "germany" | USA => "usa" | CHINA => "china"
  | FRANCE => "france" | UK => "uk" | JAPAN => "japan" | OTHER => "other"
  end.

(** [interface WargamingTank] and [WargamingTankResponse].  [armor], [hull]
    and [turret] are optional, as [transformSingleTank] reads them with [?.];
    [images], [description] and [meta] feed no field that is modelled.  The
    members of [data] are in the order [Object.values] lists them. *)
Module WG.
Record Engine : Type := mkEngine { power : number }.
Record Gun : Type := mkGun {
  damage : list number;
  penetration : list number;
  rate : number
}.
Record Plate : Type := mkPlate { front : number; sides : number; rear : number }.
Record Armor : Type := mkArmor { hull : option Plate; turret : option Plate }.
Record Tank : Type := mkTank {
  tank_id : Z;
  name : string;
  tier : Z;
  type : string;
  nation : string;
  is_premium : bool;
  engines : list Engine;
  guns : list Gun;
  armor : option Armor;
  speed_forward : number;
  hp : number
}.
Record Response : Type := mkResponse { status : string; data : list (string * Tank) }.
End WG.

Definition mapTankType (wgType : string) : TankType :=
  if String.eqb wgType "lightTank" then LIGHT
  else if String.eqb wgType "mediumTank" then MEDIUM
  else if String.eqb wgType "heavyTank" then HEAVY
  else if String.eqb wgType "AT-SPG" then DESTROYER
  else if String.eqb wgType "SPG" then SPG
  else MEDIUM.

Definition mapNation (wgNation : string) : Nation :=
  if String.eqb wgNation "ussr" then USSR
  else if String.eqb wgNation "germany" then GERMANY
  else if String.eqb wgNation "usa" then USA
  else if String.eqb wgNation "china" then CHINA
  else if String.eqb wgNation "france" then FRANCE
  else if String.eqb wgNation "uk" then UK
  else if String.eqb wgNation "japan" then JAPAN
  else OTHER.

(** [x || 0] on a number, and [list[0] || 0]. *)
Definition or_0 (x : number) : number := if truthy x then x else 0.
Definition first_or_0 (l : list number) : number :=
  match l with
  | x :: _ => or_0 x
  | [] => 0
  end.

(** [armor?.hull?.front || 0], for a plate and a side of it. *)
Definition plate_or_0 (armor : option WG.Armor) (plate : WG.Armor -> option WG.Plate)
           (side : WG.Plate -> number) : number :=
  match armor with
  | Some a => match plate a with
              | Some p => or_0 (side p)
              | None => 0
              end
  | None => 0
  end.

(** [Math.max(...values)] *)
Definition Math_max_of (values : list number) : number :=
  fold_left Math_max values PrimFloat.neg_infinity.

Definition transformSingleTank (wgTank : WG.Tank) : Tank :=
  let guns := WG.guns wgTank in
  let engines := WG.engines wgTank in
  let guns_length := of_Z (Z.of_nat (length guns)) in
  let avgGunDamage :=
    if (0 <? Z.of_nat (length guns))%Z
    then Math_round (fold_left (fun sum gun => sum + first_or_0 (WG.damage gun)) guns 0
                     / guns_length)
    else 0 in
  let avgGunPenetration :=
    if (0 <? Z.of_nat (length guns))%Z
    then Math_round (fold_left (fun sum gun => sum + first_or_0 (WG.penetration gun)) guns 0
                     / guns_length)
    else 0 in
  let avgGunRof :=
    if (0 <? Z.of_nat (length guns))%Z
    then Math_round ((fold_left (fun sum gun => sum + or_0 (WG.rate gun)) guns 0
                      / guns_length) * 100) / 100
    else 0 in
  let maxEnginePower :=
    if (0 <? Z.of_nat (length engines))%Z
    then Math_max_of (map WG.power engines)
    else 0 in
  {| id := WG.tank_id wgTank;
     name := WG.name wgTank;
     tier := WG.tier wgTank;
     type := mapTankType (WG.type wgTank);
     nation := Nation_value (mapNation (WG.nation wgTank));
     is_premium := WG.is_premium wgTank;
     health := WG.hp wgTank;
     armor_front := Math_max (plate_or_0 (WG.armor wgTank) WG.hull WG.front)
                             (plate_or_0 (WG.armor wgTank) WG.turret WG.front);
     armor_side := Math_max (plate_or_0 (WG.armor wgTank) WG.hull WG.sides)
                            (plate_or_0 (WG.armor wgTank) WG.turret WG.sides);
     armor_rear := Math_max (plate_or_0 (WG.armor wgTank) WG.hull WG.rear)
                            (plate_or_0 (WG.armor wgTank) WG.turret WG.rear);
     gun_damage := avgGunDamage;
     gun_penetration := avgGunPenetration;
     gun_rof := avgGunRof;
     mobility_speed := WG.speed_forward wgTank;
     mobility_power := maxEnginePower;
     score_overall := None; score_tier := None; score_type := None |}.

(** [Object.values(data).map(tank => this.transformSingleTank(tank))] *)
Definition transformWargamingData (data : list (string * WG.Tank)) : list Tank :=
  map (fun member => transformSingleTank (snd member)) data.

(** What [WargamingService] calls: [CacheService.get] and [CacheService.set]
    at the types of a list of vehicles and of a vehicle, and the HTTP client
    of the game API, whose request carries a [tank_id] or none. *)
Class WargamingCollaborators (E : Type) : Type := {
  cache_get_tanks : string -> M E (option (list Tank));
  cache_set_tanks : string -> list Tank -> Z -> M E bool;
  cache_get_tank : string -> M E (option Tank);
  cache_set_tank : string -> Tank -> Z -> M E bool;
  cache_tank_key : Z -> string;
  api_get_vehicles : option Z -> M E WG.Response
}.

Section Wargaming.
Context {E : Type} {wg : WargamingCollaborators E}.

Definition getAllTanks_body : M E (list Tank) :=
  let cacheKey := "wargaming:all_tanks" in
  let! cached := cache_get_tanks cacheKey in
  match cached with
  | Some tanks => ret tanks
  | None =>
      let! response := api_get_vehicles None in
      if negb (String.eqb (WG.status response) "ok")
      then throw (Error ("Erreur API Wargaming: " +:+ WG.status response))
      else
        let tanks := transformWargamingData (WG.data response) in
        cache_set_tanks cacheKey tanks 21600 ;;;
        ret tanks
  end.

(** [getAllTanks()] *)
Definition getAllTanks : M E (list Tank) :=
  try_catch getAllTanks_body
    (fun error => throw (Error "Impossible de récupérer les données des chars")).

Definition WargamingService_getTankById_body (tankId : Z) : M E (option Tank) :=
  let cacheKey := cache_tank_key tankId in
  let! cached := cache_get_tank cacheKey in
  match cached with
  | Some tank => ret (Some tank)
  | None =>
      let! response := api_get_vehicles (Some tankId) in
      match (if String.eqb (WG.status response) "ok"
             then snd <$> find (fun member => String.eqb (pretty tankId) (fst member))
                               (WG.data response)
             else None) with
      | None => ret None
      | Some wgTank =>
          let tank := transformSingleTank wgTank in
          cache_set_tank cacheKey tank 3600 ;;;
          ret (Some tank)
      end
  end.

(** [getTankById(tankId)] of [WargamingService] *)
Definition WargamingService_getTankById (tankId : Z) : M E (option Tank) :=
  try_catch (WargamingService_getTankById_body tankId) (fun error => ret None).

End Wargaming.

(** ** [ScoringController.recalculateTankScore] *)

Inductive TankResponse : Type :=
  | TankJson200 (data : option Tank)   (* success: true, data: updatedTank *)
  | TankStatus400                      (* 'ID de char invalide' *)
  | TankStatus404                      (* 'Char non trouvé' *)
  | TankStatus500.

Section ScoringController.
Context {E : Type} {collab : Collaborators E}.
(** [this.tankModel.getTankById] *)
Variable tankModel_getTankById : number -> M E (option Tank).

(** [recalculateTankScore(req, res)], on [tankId = parseInt(req.params.id)]
    and [req.body.weights]. *)
Definition recalculateTankScore (tankId : number) (weights : option ScoringWeights)
  : M (World E) TankResponse :=
  try_catch
    (if PrimFloat.is_nan tankId then ret TankStatus400
     else
       let! tank := call (tankModel_getTankById tankId) in
       match tank with
       | None => ret TankStatus404
       | Some tank =>
           let! updatedTank := updateTankScores tank weights in
           ret (TankJson200 updatedTank)
       end)
    (fun error => ret TankStatus500).

End ScoringController.

(** ** The error middleware ([errorHandler]) *)

(** [interface CustomError] *)
Record CustomError : Type := mkError {
  err_name : string;
  err_message : string;
  err_stack : option string;
  err_statusCode : option number;
  err_code : option string
}.

(** What [res.status(...).json(...)] sends; [success] is [false] throughout. *)
Record ErrorResponse : Type := mkErrorResponse {
  res_status : number;
  res_error : string;
  res_message : option string
}.

(** [text.includes(pattern)] *)
Fixpoint includes_text (pattern text : string) : bool :=
  String.prefix pattern text
  || match text with
     | String _ rest => includes_text pattern rest
     | EmptyString => false
     end.

(** [error.code === value] *)
Definition code_is (error : CustomError) (value : string) : bool :=
  match err_code error with
  | Some c => String.eqb c value
  | None => false
  end.

(** [errorHandler(error, req, res, next)], on the error and
    [process.env.NODE_ENV]. *)
Definition errorHandler (error : CustomError) (NODE_ENV : option string) : ErrorResponse :=
  if String.eqb (err_name error) "ValidationError"
  then mkErrorResponse 400 "Données de requête invalides" (Some (err_message error))
  else if code_is error "23505"
  then mkErrorResponse 409 "Conflit de données" (Some "Cette ressource existe déjà")
  else if code_is error "23503"
  then mkErrorResponse 400 "Référence invalide"
                       (Some "La ressource référencée n'existe pas")
  else if code_is error "ECONNABORTED" || includes_text "timeout" (err_message error)
  then mkErrorResponse 504 "Timeout de requête"
                       (Some "La requête a pris trop de temps à s'exécuter")
  else
    let statusCode :=
      match err_statusCode error with
      | Some c => if truthy c then c else 500
      | None => 500
      end in
    mkErrorResponse statusCode
      (if PrimFloat.eqb statusCode 500 then "Erreur interne du serveur"
       else err_message error)
      (match NODE_ENV with
       | Some env => if String.eqb env "development" then err_stack error else None
       | None => None
       end).

(** The error with another stack. *)
Definition with_stack (stack : option string) (error : CustomError) : CustomError :=
  mkError (err_name error) (err_message error) stack (err_statusCode error) (err_code error).

(** ** Sample data of the game API *)

(** A vehicle the game API lists without hit points and without an engine. *)
Definition hulk : WG.Tank :=
  {| WG.tank_id := 7; WG.name := "hulk"; WG.tier := 5; WG.type := "heavyTank";
     WG.nation := "uk"; WG.is_premium := false;
     WG.engines := [];
     WG.guns := [WG.mkGun [160; 200] [120] 10];
     WG.armor := Some (WG.mkArmor (Some (WG.mkPlate 100 60 40)) None);
     WG.speed_forward := 30; WG.hp := 0 |}.

(** A cache and a game API that cannot be reached: [CacheService] answers
    [null] and [false], the request throws. *)
Definition wg_offline : WargamingCollaborators unit :=
  {| cache_get_tanks := fun _ => ret None;
     cache_set_tanks := fun _ _ _ => ret false;
     cache_get_tank := fun _ => ret None;
     cache_set_tank := fun _ _ _ => ret false;
     cache_tank_key := sample_tankKey;
     api_get_vehicles := fun _ => throw (Error "timeout of 10000ms exceeded") |}.

(** A lookup that finds the worked example under every id. *)
Definition finds_heavy_example : number -> M unit (option Tank) :=
  fun _ => ret (Some heavy_example).

(** An [Error] thrown with a status code and a stack. *)
Definition teapot : CustomError :=
  mkError "Error" "no coffee" (Some "Error: no coffee at brew (pot.js:4:18)")
          (Some 418) None.

(** * Theorems *)

(** ** Error isolation *)

Section ErrorIsolation.
Context {E : Type} {collab : Collaborators E}.

(** C9: [updateTankScores] never throws.  Whatever the collaborators do,
    its result is that of the [try] block when the block returns, and
    [null] when the block throws; in both cases it returns. *)
Theorem updateTankScores_never_throws (tank : Tank) (customWeights : option ScoringWeights)
        (w : World E) :
  updateTankScores tank customWeights w =
    match updateTankScores_body tank customWeights w with
    | (Ok r, w') => (Ok r, w')
    | (Throw _, w') => (Ok None, w')
    end
  /\ exists r w', updateTankScores tank customWeights w = (Ok r, w').
Proof.
  unfold updateTankScores, try_catch.
  destruct (updateTankScores_body tank customWeights w) as [[r | e] w'];
    split; eauto.
Qed.

(** Since [updateTankScores] returns, the [catch] of the sweep's inner [try]
    is dead: every vehicle of a page is counted as updated. *)
Lemma updateTankScores_returns (tank : Tank) (cw : option ScoringWeights) (w : World E) :
  exists r w', updateTankScores tank cw w = (Ok r, w').
Proof.
  unfold updateTankScores, try_catch.
  destruct (updateTankScores_body tank cw w) as [[r | e] w']; eauto.
Qed.

Lemma processPage_counts (ts : list Tank) (cw : option ScoringWeights) :
  forall (c : Summary) (w : World E),
    exists w', processPage ts cw c w
               = (Ok (mkSummary (updated c + Z.of_nat (length ts)) (errors c)), w').
Proof.
  induction ts as [| t ts IH]; intros c w; simpl.
  - exists w. unfold ret. destruct c as [u e]; simpl. do 3 f_equal. lia.
  - unfold bind, try_catch.
    destruct (updateTankScores_returns t cw w) as (r & w1 & Hu). rewrite Hu.
    unfold ret. destruct (IH (mkSummary (updated c + 1) (errors c)) w1) as (w' & Hp).
    exists w'. rewrite Hp. simpl. do 3 f_equal. lia.
Qed.

Lemma sweep_errors (fuel : nat) (cw : option ScoringWeights) :
  forall (p : Z) (c c' : Summary) (w w' : World E),
    sweep fuel cw p c w = Some (Ok c', w') -> errors c' = errors c.
Proof.
  induction fuel as [| fuel IH]; intros p c c' w w' Hs; simpl in Hs; [discriminate |].
  destruct (call _ w) as [[result | e] w1]; [| discriminate].
  destruct (Z.of_nat (length (tanks result)) =? 0)%Z; [congruence |].
  destruct (processPage_counts (tanks result) cw c w1) as (w2 & Hp).
  rewrite Hp in Hs. apply IH in Hs. exact Hs.
Qed.

(** The error counter of a finished bulk recalculation is always zero. *)
Lemma recalculateAllScores_errors_zero (fuel : nat) (cw : option ScoringWeights)
      (w w' : World E) (s : Summary) :
  recalculateAllScores fuel cw w = Some (Ok s, w') -> errors s = 0%Z.
Proof.
  unfold recalculateAllScores.
  destruct (sweep fuel cw 1 (mkSummary 0 0) w) as [[[c | e] w1] |] eqn:Hs; try discriminate.
  destruct (invalidateAllScoreCache w1) as [[u | e] w2]; try discriminate.
  intros [= <- _]. apply sweep_errors in Hs. exact Hs.
Qed.

End ErrorIsolation.

(** C1: two vehicles, the write failing for one of them ([N = 2], [k = 1]).
    The update is attempted on both and written for one, and the sweep
    reports [{updated: 2, errors: 0}], not [{updated: 1, errors: 1}]. *)
Theorem recalculateAllScores_counts_failed_vehicle_as_updated :
  observe (recalculateAllScores (collab := sample_collaborators) 3 None
             (new_ScoringService store_one_failing))
  = Some (Ok (mkSummary 2 0), [1%Z; 2%Z], [1%Z]).
Proof. vm_compute. reflexivity. Qed.

(** ** The order of numbers

    The comparisons of primitive floats, read through their specification. *)

Lemma SFcompare_antisym (a b : spec_float) :
  SFcompare b a = option_map CompOpp (SFcompare a b).
Proof.
  destruct a as [sa | sa | | sa ma ea], b as [sb | sb | | sb mb eb];
    cbn [SFcompare option_map];
    try reflexivity;
    try (destruct sa; reflexivity);
    try (destruct sb; reflexivity);
    try (destruct sa, sb; reflexivity).
  destruct sa, sb; cbn [CompOpp]; try reflexivity;
    rewrite (Z.compare_antisym ea eb);
    destruct (ea ?= eb)%Z; cbn [CompOpp]; try reflexivity;
    rewrite (Pos.compare_cont_antisym ma mb Eq); reflexivity.
Qed.

Lemma is_nan_false (x : number) :
  PrimFloat.is_nan x = false -> Prim2SF x <> S754_nan.
Proof.
  unfold PrimFloat.is_nan. rewrite FloatAxioms.eqb_spec. unfold SFeqb.
  intros H Hn. rewrite Hn in H. discriminate H.
Qed.

Lemma ltb_leb (a b : number) :
  PrimFloat.ltb a b = true -> PrimFloat.leb a b = true.
Proof.
  rewrite FloatAxioms.ltb_spec, FloatAxioms.leb_spec. unfold SFltb, SFleb.
  destruct (SFcompare (Prim2SF a) (Prim2SF b)) as [[| |] |]; congruence.
Qed.

Lemma ltb_false_leb (a b : number) :
  PrimFloat.is_nan a = false -> PrimFloat.is_nan b = false ->
  PrimFloat.ltb a b = false -> PrimFloat.leb b a = true.
Proof.
  intros Ha Hb. apply is_nan_false in Ha, Hb.
  rewrite FloatAxioms.ltb_spec, FloatAxioms.leb_spec. unfold SFltb, SFleb.
  rewrite (SFcompare_antisym (Prim2SF a) (Prim2SF b)).
  destruct (Prim2SF a) as [sa | sa | | sa ma ea], (Prim2SF b) as [sb | sb | | sb mb eb];
    try congruence;
    match goal with
    | |- context [SFcompare ?x ?y] => destruct (SFcompare x y) as [[| |] |] eqn:Hc
    end;
    cbn [option_map CompOpp]; try congruence;
    cbn [SFcompare] in Hc; discriminate Hc.
Qed.

(** [Math.min(100, Math.max(0, x))] is in [0,100] unless [x] is NaN, and NaN
    then. *)
Lemma clamp_in_range (x : number) :
  PrimFloat.is_nan x = false -> in_0_100 (Math_min 100 (Math_max 0 x)) = true.
Proof.
  intros Hx.
  assert (Hy : PrimFloat.is_nan (Math_max 0 x) = false
               /\ PrimFloat.leb 0 (Math_max 0 x) = true).
  { unfold Math_max. change (PrimFloat.is_nan 0) with false. rewrite Hx. cbn [orb].
    destruct (PrimFloat.ltb 0 x) eqn:H0x; [auto using ltb_leb |].
    destruct (PrimFloat.ltb x 0); [split; reflexivity |].
    change (PrimFloat.Leibniz.eqb 0 PrimFloat.zero) with true. split; reflexivity. }
  destruct Hy as [Hy Hy0]. set (y := Math_max 0 x) in *.
  unfold Math_min, in_0_100. change (PrimFloat.is_nan 100) with false. rewrite Hy.
  cbn [orb].
  destruct (PrimFloat.ltb 100 y) eqn:H100; [reflexivity |].
  destruct (PrimFloat.ltb y 100) eqn:Hlt.
  - rewrite Hy0, (ltb_leb _ _ Hlt). reflexivity.
  - change (PrimFloat.Leibniz.eqb 100 PrimFloat.neg_zero) with false. cbn iota.
    rewrite Hy0, (ltb_false_leb 100 y eq_refl Hy H100). reflexivity.
Qed.

Lemma clamp_NaN (x : number) :
  PrimFloat.is_nan x = true -> Math_min 100 (Math_max 0 x) = NaN.
Proof.
  intros Hx. unfold Math_max. rewrite Hx, orb_true_r. reflexivity.
Qed.

(** ** The per-dimension scorers *)

(** The final clamp does its work on every input: [Math.min(100, x)] is never
    above 100 (it is NaN when [x] is). *)
Lemma Math_min_100_not_above (x : number) :
  PrimFloat.ltb 100 (Math_min 100 x) = false.
Proof.
  unfold Math_min.
  change (PrimFloat.is_nan 100) with false. cbn [orb].
  destruct (PrimFloat.is_nan x); [reflexivity |].
  destruct (PrimFloat.ltb 100 x) eqn:Hlt; [reflexivity |].
  destruct (PrimFloat.ltb x 100); [exact Hlt |].
  change (PrimFloat.Leibniz.eqb 100 PrimFloat.neg_zero) with false. cbn iota.
  exact Hlt.
Qed.

(** X1: none of the six scorers returns a value above 100. *)
Lemma scorers_not_above_100 (tank : Tank) :
  Forall (fun score => PrimFloat.ltb 100 score = false)
    [calculateDamageScore tank; calculateSurvivalScore tank; calculateArmorScore tank;
     calculateMobilityScore tank; calculatePenetrationScore tank;
     calculateWinRateScore tank].
Proof.
  repeat constructor; apply Math_min_100_not_above.
Qed.

(** C4: on the vehicle whose attributes are all zero, the power-to-weight
    ratio is [0 / (0 / 1000)], that is NaN: the mobility score and the
    simulated win-rate score are NaN, outside [0,100]; the four other scores
    are 0. *)
Theorem mobility_score_of_zero_vehicle_is_NaN :
  PrimFloat.is_nan (calculateMobilityScore zero_vehicle) = true
  /\ in_0_100 (calculateMobilityScore zero_vehicle) = false
  /\ PrimFloat.is_nan (calculateWinRateScore zero_vehicle) = true
  /\ in_0_100 (calculateWinRateScore zero_vehicle) = false
  /\ map (fun scorer => scorer zero_vehicle)
         [calculateDamageScore; calculateSurvivalScore; calculateArmorScore;
          calculatePenetrationScore]
     = [0; 0; 0; 0].
Proof. vm_compute. repeat split. Qed.

(** ** The weight configuration *)

(** C3: the update that sets the six weights to 0 passes the validation of
    the endpoint; the merged sum is 0, each weight becomes [0 / 0], and the
    WeightSet returned and installed is NaN throughout: its sum is not 1
    within any tolerance. *)
Theorem all_zero_update_installs_NaN_weights :
  let run := updateWeights (Some all_zero_request) (new_ScoringService tt) in
  let nan_weights := mkWeights NaN NaN NaN NaN NaN NaN in
  fst run = Ok (Json200 nan_weights)
  /\ heap (snd run) !! defaultWeights (snd run) = Some nan_weights
  /\ sums_to_one nan_weights = false
  /\ sums_to_one initialWeights = true.
Proof. vm_compute. repeat split. Qed.

(** ** The relative scores *)

(** The relative score is the clamped quotient: it is in [0,100] unless the
    quotient [overall / average * 75] is NaN, and NaN then. *)
Lemma relativeScore_in_range_or_NaN {E} (tank : Tank) (average : number)
      (w w' : World E) (r : number) :
  relativeScore tank average w = (Ok r, w') ->
  exists overall,
    calculateOverallScore_default tank w = (Ok overall, w')
    /\ r = Math_min 100 (Math_max 0 (overall / average * 75))
    /\ (if PrimFloat.is_nan (overall / average * 75)
        then r = NaN else in_0_100 r = true).
Proof.
  unfold relativeScore, bind.
  destruct (calculateOverallScore_default tank w) as [[overall | e] w1]; [| discriminate].
  unfold ret. intros [= <- <-]. exists overall.
  split; [reflexivity |]. split; [reflexivity |].
  destruct (PrimFloat.is_nan (overall / average * 75)) eqn:Hnan.
  - apply clamp_NaN. exact Hnan.
  - apply clamp_in_range. exact Hnan.
Qed.

(** ** The cache

    [CacheService] swallows the failures of Redis: its three operations
    return whatever becomes of the command.  None of them adds an entry
    except [set], under its key. *)

Lemma foldr_delete_lookup (keys : list string) (es : gmap string JSONText) k v :
  foldr delete es keys !! k = Some v -> es !! k = Some v.
Proof.
  induction keys as [| key keys IH]; cbn [foldr]; [auto |].
  intros H. apply lookup_delete_Some in H as [_ H]. auto.
Qed.

Lemma CacheService_get_spec (key : string) (rs : Redis.t) :
  exists r rs',
    CacheService.get key rs = (Ok r, rs')
    /\ (forall k v, Redis.entries rs' !! k = Some v -> Redis.entries rs !! k = Some v)
    /\ (forall x, r = Some x -> Redis.entries rs !! key = Some (text_number x)).
Proof.
  unfold CacheService.get, try_catch, bind, Redis.get, Redis.command, ret.
  destruct (Redis.fates rs) as [| [message | expired] rest];
    cbn [Redis.entries]; do 2 eexists; (split; [reflexivity |]); split.
  - auto.
  - intros x Hx. destruct (Redis.entries rs !! key) as [[| y] |]; cbn in Hx;
      congruence.
  - auto.
  - discriminate.
  - intros k v. apply foldr_delete_lookup.
  - intros x Hx.
    destruct (foldr delete (Redis.entries rs) expired !! key) as [[| y] |] eqn:E;
      cbn in Hx; try discriminate.
    injection Hx as ->. exact (foldr_delete_lookup _ _ _ _ E).
Qed.

Lemma CacheService_set_spec (key : string) (value : number) (ttl : Z) (rs : Redis.t) :
  exists b rs',
    CacheService.set key value ttl rs = (Ok b, rs')
    /\ (forall k v, k <> key -> Redis.entries rs' !! k = Some v ->
                    Redis.entries rs !! k = Some v).
Proof.
  unfold CacheService.set, try_catch, bind, Redis.setex, Redis.command, ret.
  destruct (Redis.fates rs) as [| [message | expired] rest];
    destruct (ttl <=? 0)%Z;
    cbn [Redis.entries]; do 2 eexists; (split; [reflexivity |]);
    intros k v Hk H; cbn [Redis.entries] in H;
    try rewrite lookup_insert_ne in H by congruence;
    first [exact H | exact (foldr_delete_lookup _ _ _ _ H)].
Qed.

Lemma CacheService_del_spec (key : string) (rs : Redis.t) :
  exists b rs',
    CacheService.del key rs = (Ok b, rs')
    /\ (forall k v, Redis.entries rs' !! k = Some v -> Redis.entries rs !! k = Some v).
Proof.
  unfold CacheService.del, try_catch, bind, Redis.del, Redis.command, ret.
  destruct (Redis.fates rs) as [| [message | expired] rest];
    cbn [Redis.entries]; do 2 eexists; (split; [reflexivity |]);
    intros k v H; cbn [Redis.entries] in H;
    try (apply lookup_delete_Some in H as [_ H]);
    first [exact H | exact (foldr_delete_lookup _ _ _ _ H)].
Qed.

(** The same on a store: the table, the failing writes and the trace are not
    touched. *)
Lemma on_cache_spec {A} (op : M Redis.t A) (st : Store.t) :
  exists r c, op (Store.cache st) = (r, c)
    /\ Store.on_cache op st = (r, Store.mk (Store.rows st) c (Store.failing st) (Store.trace st)).
Proof.
  unfold Store.on_cache. destruct (op (Store.cache st)) as [r c]. eauto.
Qed.

Lemma cache_get_spec (key : string) (st : Store.t) :
  exists r st',
    Store.cache_get key st = (Ok r, st')
    /\ same_rows st st'
    /\ (forall k v, Redis.entries (Store.cache st') !! k = Some v ->
                    Redis.entries (Store.cache st) !! k = Some v)
    /\ (forall x, r = Some x ->
                  Redis.entries (Store.cache st) !! key = Some (text_number x)).
Proof.
  destruct (CacheService_get_spec key (Store.cache st)) as (r & c & Hop & Hsub & Hr).
  exists r. eexists. unfold Store.cache_get, Store.on_cache. rewrite Hop.
  split; [reflexivity |]. unfold same_rows. cbn. auto.
Qed.

Lemma cache_set_spec (key : string) (value : number) (ttl : Z) (st : Store.t) :
  exists b st',
    Store.cache_set key value ttl st = (Ok b, st')
    /\ same_rows st st'
    /\ (forall k v, k <> key -> Redis.entries (Store.cache st') !! k = Some v ->
                    Redis.entries (Store.cache st) !! k = Some v).
Proof.
  destruct (CacheService_set_spec key value ttl (Store.cache st)) as (b & c & Hop & Hsub).
  exists b. eexists. unfold Store.cache_set, Store.on_cache. rewrite Hop.
  split; [reflexivity |]. unfold same_rows. cbn. auto.
Qed.

Lemma cache_del_spec (key : string) (st : Store.t) :
  exists b st',
    Store.cache_del key st = (Ok b, st')
    /\ same_rows st st'
    /\ (forall k v, Redis.entries (Store.cache st') !! k = Some v ->
                    Redis.entries (Store.cache st) !! k = Some v).
Proof.
  destruct (CacheService_del_spec key (Store.cache st)) as (b & c & Hop & Hsub).
  exists b. eexists. unfold Store.cache_del, Store.on_cache. rewrite Hop.
  split; [reflexivity |]. unfold same_rows. cbn. auto.
Qed.

(** A cohort without a member, and no usable cached average: the average is
    the constant 75, whatever becomes of the commands sent to Redis. *)
Lemma cohortAverage_of_empty_cohort (tankKey : Z -> string) (rankingKey : string -> string)
      (key : string) (filters : Filters.t) (w : World Store.t) :
  (forall x, Redis.entries (Store.cache (ext w)) !! key = Some (text_number x) ->
             truthy x = false) ->
  Forall (fun r => Store.matches filters r = false) (Store.rows (ext w)) ->
  fst (cohortAverage (collab := Store.collaborators tankKey rankingKey) key filters w) = Ok 75.
Proof.
  intros Hcache Hrows.
  assert (Hsel : filter (fun r => Store.matches filters r = true) (Store.rows (ext w)) = []).
  { induction Hrows as [| r rows Hr _ IH]; [reflexivity |].
    rewrite filter_cons_False by congruence. exact IH. }
  assert (Hq : forall st, Store.rows st = Store.rows (ext w) ->
               Store.getTanks filters (mkSort by_score_overall desc) (mkPagination 1 1000) st
               = (Ok (mkTanksResult [] 0),
                  Store.record (Store.GetTanks filters (mkSort by_score_overall desc)
                                  (mkPagination 1 1000)) st)).
  { intros st Hst. unfold Store.getTanks. rewrite Hst, Hsel. reflexivity. }
  unfold cohortAverage, bind, call.
  cbn [CacheService_get tankModel_getTanks Store.collaborators].
  destruct (cache_get_spec key (ext w)) as (r & st1 & Hget & (Hrows1 & _ & _) & _ & Hr).
  rewrite Hget. cbn [ext heap defaultWeights].
  destruct r as [x |].
  - rewrite (Hcache x (Hr x eq_refl)). cbn [ext heap defaultWeights].
    rewrite (Hq st1 Hrows1). reflexivity.
  - cbn [ext heap defaultWeights]. rewrite (Hq st1 Hrows1). reflexivity.
Qed.

(** C2: a cohort that has members but whose overall scores sum to 0 (none is
    scored yet) has average [0 / n = 0], and the code divides by it.
    (1) With the weights [{damage: 1, others: 0}] an unarmed vehicle has the
    overall score 0, and both relative scores are [0 / 0 * 75], NaN.
    (2) With the default weights the worked example has the overall score
    65.17 and both relative scores are 100, through [65.17 / 0 = Infinity],
    where the average 75 gives 65.17.
    (3) The vehicle whose attributes are all zero has a NaN overall score, and
    NaN relative scores. *)
Theorem relative_score_divides_by_zero_average :
  let w1 := snd (updateScoringWeights damage_only
                   (new_ScoringService (fresh_store unarmed_vehicle))) in
  let w2 := new_ScoringService (fresh_store heavy_example) in
  let w3 := new_ScoringService (fresh_store zero_vehicle) in
  (fst (calculateOverallScore_default unarmed_vehicle w1) = Ok 0
   /\ relative_scores w1 unarmed_vehicle = (Ok NaN, Ok NaN)
   /\ in_0_100 NaN = false)
  /\ (fst (calculateOverallScore_default heavy_example w2) = Ok 65.17
      /\ relative_scores w2 heavy_example = (Ok 100, Ok 100)
      /\ Math_min 100 (Math_max 0 (65.17 / 75 * 75)) = 65.17
      /\ Redis.entries
           (Store.cache (ext (snd (calculateTierScore (collab := sample_collaborators)
                                     heavy_example w2))))
           !! "tier_average_10" = Some (text_number 0))
  /\ relative_scores w3 zero_vehicle = (Ok NaN, Ok NaN).
Proof. vm_compute. repeat split. Qed.

(** ** The object store *)

Section HeapFacts.
Context {E : Type}.
Implicit Types (w : World E) (l : loc) (o : ScoringWeights).

Lemma bind_ok {A B} (c : M (World E) A) (k : A -> M (World E) B) w a w' :
  c w = (Ok a, w') -> bind c k w = k a w'.
Proof. unfold bind. intros ->. reflexivity. Qed.

Lemma deref_ok w l o : heap w !! l = Some o -> deref l w = (Ok o, w).
Proof. unfold deref. intros ->. reflexivity. Qed.

Lemma update_key_ok w l o k f :
  heap w !! l = Some o ->
  update_key l k f w
  = (Ok tt, mkWorld (<[l := set_key k (f (get_key k o)) o]> (heap w))
                    (defaultWeights w) (ext w)).
Proof. unfold update_key. intros ->. reflexivity. Qed.

Lemma alloc_fresh w o l w' :
  alloc o w = (Ok l, w') ->
  heap w !! l = None
  /\ w' = mkWorld (<[l := o]> (heap w)) (defaultWeights w) (ext w).
Proof.
  unfold alloc. intros [= <- <-]. split; [| reflexivity].
  apply not_elem_of_dom, is_fresh.
Qed.

(** Six in-place divisions, one per key, divide the whole object. *)
Lemma forEach_divide w l o total :
  defaultWeights w = l ->
  heap w !! l = Some o ->
  forEach weightKeys
    (fun key => bind get_this_defaultWeights
                  (fun l' => update_key l' key (fun v => v / total))) w
  = (Ok tt, mkWorld (<[l := divided_by total o]> (heap w)) l (ext w)).
Proof.
  intros Hl Ho. destruct w as [h d e]. simpl in *. subst d.
  unfold weightKeys, forEach, bind, get_this_defaultWeights, update_key, ret.
  cbn [heap defaultWeights ext].
  rewrite Ho.
  repeat (cbn [heap defaultWeights ext]; rewrite lookup_insert_eq).
  cbn [heap defaultWeights ext].
  rewrite !insert_insert_eq.
  destruct o; reflexivity.
Qed.

(** Writes through a reference leave every other object as it is. *)
Lemma mutate_frame (writes : list (WeightKey * number)) :
  forall w l,
    is_Some (heap w !! l) ->
    exists w', mutate l writes w = (Ok tt, w')
               /\ is_Some (heap w' !! l)
               /\ defaultWeights w' = defaultWeights w
               /\ ext w' = ext w
               /\ forall l', l' <> l -> heap w' !! l' = heap w !! l'.
Proof.
  induction writes as [| [k v] writes IH]; intros w l [o Ho].
  - exists w. unfold mutate; simpl. unfold ret. eauto 10.
  - unfold mutate; simpl. erewrite bind_ok; [| apply update_key_ok; exact Ho].
    edestruct (IH (mkWorld (<[l := set_key k v o]> (heap w)) (defaultWeights w) (ext w)) l)
      as (w' & Hm & Hs & Hd & He & Hf).
    { simpl. rewrite lookup_insert_eq. eauto. }
    exists w'. split; [exact Hm |]. repeat split; try assumption.
    intros l' Hne. rewrite (Hf l' Hne). simpl. apply lookup_insert_ne. congruence.
Qed.

End HeapFacts.

(** C7: when the merged sum is not 1, the WeightSet installed and returned is
    the merged one with every weight divided by that sum; a weight the update
    does not mention ends up as its former value divided by the sum. *)
Theorem renormalization_divides_every_weight {E} (w : World E)
        (current : ScoringWeights) (newWeights : PartialWeights) :
  heap w !! defaultWeights w = Some current ->
  strict_neq (weights_total (spread current newWeights)) 1 = true ->
  let merged := spread current newWeights in
  let total := weights_total merged in
  exists l w' result,
    updateScoringWeights newWeights w = (Ok l, w')
    /\ defaultWeights w' = l
    /\ heap w' !! l = Some result
    /\ result = divided_by total merged
    /\ (forall k, get_key k result = get_key k merged / total)
    /\ (forall k, newWeights k = None -> get_key k result = get_key k current / total).
Proof.
  intros Hcur Hne merged total.
  destruct (alloc merged w) as [r w1] eqn:Ha.
  assert (exists l, r = Ok l) as [l ->] by (unfold alloc in Ha; inversion Ha; eauto).
  destruct (alloc_fresh _ _ _ _ Ha) as [Hfresh ->].
  exists l. eexists. exists (divided_by total merged).
  split.
  - unfold updateScoringWeights.
    erewrite bind_ok; [| reflexivity]. cbn beta.
    erewrite bind_ok; [| apply deref_ok; exact Hcur].
    erewrite bind_ok; [| exact Ha].
    erewrite bind_ok; [| reflexivity].
    erewrite bind_ok; [| reflexivity]. cbn [defaultWeights].
    erewrite bind_ok; [| apply deref_ok; simpl; apply lookup_insert_eq].
    cbv zeta.
    change (fold_left (fun sum weight => sum + weight) (Object_values merged) 0)
      with (weights_total merged).
    subst merged. rewrite Hne.
    erewrite bind_ok; [| apply forEach_divide; [reflexivity | simpl; apply lookup_insert_eq]].
    reflexivity.
  - simpl. split; [reflexivity |]. split; [apply lookup_insert_eq |].
    split; [reflexivity |]. split.
    + intros []; reflexivity.
    + intros k Hk. subst merged. destruct k; simpl; unfold spread; rewrite Hk; reflexivity.
Qed.

(** A witness: the default weights and the update [{damage: 0.5}]; the sum is
    1.25 and the untouched [winRate] becomes [0.2 / 1.25 = 0.16]. *)
Lemma renormalization_divides_every_weight_witness :
  exists l w' result,
    updateScoringWeights damage_half (new_ScoringService tt) = (Ok l, w')
    /\ defaultWeights w' = l
    /\ heap w' !! l = Some result
    /\ result = divided_by 1.25 (spread initialWeights damage_half)
    /\ (forall k, get_key k result = get_key k (spread initialWeights damage_half) / 1.25)
    /\ (forall k, damage_half k = None -> get_key k result = get_key k initialWeights / 1.25).
Proof.
  apply (renormalization_divides_every_weight (new_ScoringService tt) initialWeights damage_half).
  - reflexivity.
  - reflexivity.
Defined.

(** [updateScoringWeights], by contrast, hands out the reference the service
    keeps: a caller writing through it changes the weights of the service. *)
Example updateScoringWeights_result_is_shared :
  let run := updateScoringWeights (E := unit) (fun _ => None) (new_ScoringService tt) in
  match fst run with
  | Ok l =>
      l = defaultWeights (snd run)
      /\ fst (bind (mutate l [(k_damage, 1)]) (fun _ => bind getCurrentWeights deref) (snd run))
         = Ok (set_key k_damage 1 initialWeights)
  | Throw _ => False
  end.
Proof. vm_compute. split; reflexivity. Qed.

(** C10: [getCurrentWeights] returns a reference to a new object that holds
    the current weights, and leaves the field of the service, the object it
    refers to and the collaborators as they were.  Whatever the caller then
    writes through the reference returned, the service still holds the same
    weights: a later scoring call with the default weights computes the same
    score, and a later [getCurrentWeights] reads the same weights. *)
Theorem getCurrentWeights_returns_fresh_copy {E} (w : World E) (current : ScoringWeights) :
  heap w !! defaultWeights w = Some current ->
  exists l w1,
    getCurrentWeights w = (Ok l, w1)
    /\ l <> defaultWeights w
    /\ heap w1 !! l = Some current
    /\ defaultWeights w1 = defaultWeights w
    /\ heap w1 !! defaultWeights w1 = Some current
    /\ ext w1 = ext w
    /\ forall writes : list (WeightKey * number),
         exists w2,
           mutate l writes w1 = (Ok tt, w2)
           /\ defaultWeights w2 = defaultWeights w
           /\ heap w2 !! defaultWeights w2 = Some current
           /\ ext w2 = ext w
           /\ (forall tank,
                 fst (calculateOverallScore_default tank w2)
                 = Ok (calculateOverallScore tank current))
           /\ (exists l' w3, getCurrentWeights w2 = (Ok l', w3)
                             /\ heap w3 !! l' = Some current).
Proof.
  intros Hcur.
  destruct (alloc current w) as [r w1] eqn:Ha.
  assert (exists l, r = Ok l) as [l ->] by (unfold alloc in Ha; inversion Ha; eauto).
  destruct (alloc_fresh _ _ _ _ Ha) as [Hfresh ->].
  assert (Hne : l <> defaultWeights w) by (intros ->; congruence).
  exists l. eexists. split.
  { unfold getCurrentWeights.
    erewrite bind_ok; [| reflexivity].
    erewrite bind_ok; [| apply deref_ok; exact Hcur].
    exact Ha. }
  cbn [heap defaultWeights ext].
  split; [exact Hne |].
  split; [apply lookup_insert_eq |].
  split; [reflexivity |].
  split; [rewrite lookup_insert_ne by exact Hne; exact Hcur |].
  split; [reflexivity |].
  intros writes.
  edestruct (mutate_frame writes
               (mkWorld (<[l := current]> (heap w)) (defaultWeights w) (ext w)) l)
    as (w2 & Hm & _ & Hd & He & Hf).
  { simpl. rewrite lookup_insert_eq. eauto. }
  simpl in Hd, He.
  assert (Hcur2 : heap w2 !! defaultWeights w2 = Some current).
  { rewrite Hd, Hf by congruence. simpl.
    rewrite lookup_insert_ne by exact Hne. exact Hcur. }
  exists w2. split; [exact Hm |]. split; [exact Hd |]. split; [exact Hcur2 |].
  split; [exact He |]. split.
  - intros tank. unfold calculateOverallScore_default.
    erewrite bind_ok; [| reflexivity].
    erewrite bind_ok; [| apply deref_ok; exact Hcur2].
    reflexivity.
  - destruct (alloc current w2) as [r' w3] eqn:Ha'.
    assert (exists l', r' = Ok l') as [l' ->] by (unfold alloc in Ha'; inversion Ha'; eauto).
    destruct (alloc_fresh _ _ _ _ Ha') as [_ ->].
    exists l'. eexists. split.
    + unfold getCurrentWeights.
      erewrite bind_ok; [| reflexivity].
      erewrite bind_ok; [| apply deref_ok; exact Hcur2].
      exact Ha'.
    + simpl. apply lookup_insert_eq.
Qed.

(** A witness: the service as constructed. *)
Lemma getCurrentWeights_returns_fresh_copy_witness :
  exists l w1,
    getCurrentWeights (new_ScoringService tt) = (Ok l, w1)
    /\ l <> defaultWeights (new_ScoringService tt)
    /\ heap w1 !! l = Some initialWeights
    /\ defaultWeights w1 = defaultWeights (new_ScoringService tt)
    /\ heap w1 !! defaultWeights w1 = Some initialWeights
    /\ ext w1 = ext (new_ScoringService tt)
    /\ forall writes : list (WeightKey * number),
         exists w2,
           mutate l writes w1 = (Ok tt, w2)
           /\ defaultWeights w2 = defaultWeights (new_ScoringService tt)
           /\ heap w2 !! defaultWeights w2 = Some initialWeights
           /\ ext w2 = ext (new_ScoringService tt)
           /\ (forall tank,
                 fst (calculateOverallScore_default tank w2)
                 = Ok (calculateOverallScore tank initialWeights))
           /\ (exists l' w3, getCurrentWeights w2 = (Ok l', w3)
                             /\ heap w3 !! l' = Some initialWeights).
Proof.
  apply (getCurrentWeights_returns_fresh_copy (new_ScoringService tt) initialWeights).
  reflexivity.
Defined.

(** ** Validation of a weight update *)

(** The validation loop finds an offending key whenever there is one. *)
Lemma validate_finds_offender (props : list (string * JValue)) (keys : list string) :
  (exists key, key ∈ keys
               /\ (includes validKeys key = false
                   \/ invalid_value (property key props) = true)) ->
  exists key, key ∈ keys
    /\ ((validate props keys = Some (InvalidWeightKey key)
         /\ includes validKeys key = false)
        \/ (validate props keys = Some (InvalidWeightValue key)
            /\ includes validKeys key = true
            /\ invalid_value (property key props) = true)).
Proof.
  induction keys as [| k keys IH]; intros (key & Hin & Hbad).
  - inversion Hin.
  - cbn [validate].
    destruct (includes validKeys k) eqn:Hk; cbn [negb].
    + destruct (invalid_value (property k props)) eqn:Hv.
      * exists k. split; [left |]. right. repeat split; auto.
      * destruct IH as (key' & Hin' & Hres).
        { exists key. split; [| exact Hbad].
          apply elem_of_cons in Hin as [-> | Hin]; [| exact Hin].
          destruct Hbad; congruence. }
        exists key'. split; [right; exact Hin' | exact Hres].
    + exists k. split; [left |]. left. split; auto.
Qed.

(** C5: a request with an unrecognized key, or with a value that is not a
    number or lies outside [0,1], is answered with status 400, carrying
    InvalidWeightKey for a key of the request that is not recognized or
    InvalidWeightValue for a recognized key of the request whose value is
    invalid, and the world (the WeightSet, the object store, the
    collaborators) is exactly as before: the whole request is validated
    before [updateScoringWeights] is called. *)
Theorem invalid_weight_update_rejected_without_mutation {E} (w : World E) (weights : JValue) :
  (exists key, key ∈ Object_keys (own_properties weights)
               /\ (includes validKeys key = false
                   \/ invalid_value (property key (own_properties weights)) = true)) ->
  exists key, key ∈ Object_keys (own_properties weights)
    /\ ((updateWeights (Some weights) w = (Ok (Status400 (InvalidWeightKey key)), w)
         /\ includes validKeys key = false)
        \/ (updateWeights (Some weights) w = (Ok (Status400 (InvalidWeightValue key)), w)
            /\ includes validKeys key = true
            /\ invalid_value (property key (own_properties weights)) = true)).
Proof.
  intros Hbad.
  assert (Hobj : not_an_object (Some weights) = false).
  { destruct Hbad as (key & Hin & _).
    destruct weights; simpl in Hin; try (inversion Hin); reflexivity. }
  destruct (validate_finds_offender _ _ Hbad) as (key & Hin & Hres).
  exists key. split; [exact Hin |].
  unfold updateWeights, try_catch. rewrite Hobj.
  change (default JNull (Some weights)) with weights. cbv zeta.
  destruct Hres as [[-> Hk] | (-> & Hk & Hv)]; [left | right]; repeat split; assumption.
Qed.

(** A witness: the body [{"foo": 0.5}]. *)
Lemma invalid_weight_update_rejected_without_mutation_witness :
  exists key, key ∈ Object_keys (own_properties (JObject [("foo", JNumber 0.5)]))
    /\ ((updateWeights (Some (JObject [("foo", JNumber 0.5)])) (new_ScoringService tt)
         = (Ok (Status400 (InvalidWeightKey key)), new_ScoringService tt)
         /\ includes validKeys key = false)
        \/ (updateWeights (Some (JObject [("foo", JNumber 0.5)])) (new_ScoringService tt)
            = (Ok (Status400 (InvalidWeightValue key)), new_ScoringService tt)
            /\ includes validKeys key = true
            /\ invalid_value (property key (own_properties (JObject [("foo", JNumber 0.5)])))
               = true)).
Proof.
  apply (invalid_weight_update_rejected_without_mutation
           (new_ScoringService tt) (JObject [("foo", JNumber 0.5)])).
  exists "foo". split.
  - simpl. left.
  - left. reflexivity.
Defined.

(** The two rejections of the specification's examples, and a value that is
    not an object. *)
Example unrecognized_key_foo_rejected :
  updateWeights (Some (JObject [("damage", JNumber 0.5); ("foo", JNumber 0.5)]))
                (new_ScoringService tt)
  = (Ok (Status400 (InvalidWeightKey "foo")), new_ScoringService tt).
Proof. reflexivity. Qed.

Example value_1_5_rejected :
  updateWeights (Some (JObject [("damage", JNumber 1.5)])) (new_ScoringService tt)
  = (Ok (Status400 (InvalidWeightValue "damage")), new_ScoringService tt).
Proof. reflexivity. Qed.

Example missing_weights_rejected :
  updateWeights None (new_ScoringService tt)
  = (Ok (Status400 InvalidWeights), new_ScoringService tt).
Proof. reflexivity. Qed.

(** ** The overall score *)

Lemma same_number_refl (a : number) : same_number a a = true.
Proof.
  unfold same_number, PrimFloat.is_nan.
  destruct (PrimFloat.eqb a a); reflexivity.
Qed.

(** [round_half_up] is the integer [n] with [n - 1/2 <= x < n + 1/2], for
    [x = signed s m / 2^(-e)]. *)
Lemma round_half_up_bounds (s : bool) (m : positive) (e : Z) :
  (e < 0)%Z ->
  ((2 * round_half_up s m e - 1) * 2 ^ (- e) <= 2 * signed s m
   /\ 2 * signed s m < (2 * round_half_up s m e + 1) * 2 ^ (- e))%Z.
Proof.
  intros He. unfold round_half_up.
  set (d := (2 ^ (- e))%Z).
  assert (Hd : (0 < d)%Z) by (apply Z.pow_pos_nonneg; lia).
  set (v := signed s m).
  pose proof (Z.div_mod (2 * v + d) (2 * d) ltac:(lia)) as Hdm.
  pose proof (Z.mod_pos_bound (2 * v + d) (2 * d) ltac:(lia)) as Hmod.
  set (q := ((2 * v + d) / (2 * d))%Z) in *.
  set (r := ((2 * v + d) mod (2 * d))%Z) in *.
  split; nia.
Qed.

(** Integers as numbers: an integer of fewer than 54 bits is a number. *)

Lemma digits2_pos_bounds (m : positive) :
  (2 ^ (Z.pos (digits2_pos m) - 1) <= Z.pos m < 2 ^ Z.pos (digits2_pos m))%Z.
Proof.
  induction m as [m IH | m IH |]; cbn [digits2_pos].
  - rewrite Pos2Z.inj_succ.
    replace (Z.succ (Z.pos (digits2_pos m)) - 1)%Z with (Z.pos (digits2_pos m)) by lia.
    rewrite Z.pow_succ_r by lia.
    replace (Z.pos (digits2_pos m)) with (Z.succ (Z.pos (digits2_pos m) - 1)) at 1 by lia.
    rewrite Z.pow_succ_r by lia. lia.
  - rewrite Pos2Z.inj_succ.
    replace (Z.succ (Z.pos (digits2_pos m)) - 1)%Z with (Z.pos (digits2_pos m)) by lia.
    rewrite Z.pow_succ_r by lia.
    replace (Z.pos (digits2_pos m)) with (Z.succ (Z.pos (digits2_pos m) - 1)) at 1 by lia.
    rewrite Z.pow_succ_r by lia. lia.
  - cbn. lia.
Qed.

Lemma iter_xO_value (m d : positive) :
  Z.pos (Pos.iter xO m d) = (Z.pos m * 2 ^ Z.pos d)%Z.
Proof.
  revert m. induction d as [| d IH] using Pos.peano_ind; intros m.
  - cbn. lia.
  - rewrite Pos.iter_succ, Pos2Z.inj_xO, IH, Pos2Z.inj_succ, Z.pow_succ_r by lia. lia.
Qed.

Lemma iter_xO_digits (m d : positive) :
  digits2_pos (Pos.iter xO m d) = (digits2_pos m + d)%positive.
Proof.
  revert m. induction d as [| d IH] using Pos.peano_ind; intros m.
  - cbn. lia.
  - rewrite Pos.iter_succ. cbn [digits2_pos]. rewrite IH. lia.
Qed.

Lemma digits2_pos_le (m : positive) (k : Z) :
  (Z.pos m < 2 ^ k)%Z -> (0 <= k)%Z -> (Z.pos (digits2_pos m) <= k)%Z.
Proof.
  intros Hm Hk. destruct (digits2_pos_bounds m) as [Hlo _].
  destruct (Z_le_gt_dec (Z.pos (digits2_pos m)) k) as [H | H]; [exact H |].
  exfalso.
  assert (2 ^ k <= 2 ^ (Z.pos (digits2_pos m) - 1))%Z by (apply Z.pow_le_mono_r; lia).
  lia.
Qed.

Lemma binary_normalize_exact (n : positive) :
  (Z.pos n < 2 ^ 53)%Z ->
  exists m e,
    binary_normalize prec emax (Z.pos n) 0 false = S754_finite false m e
    /\ (e <= 0)%Z /\ Z.pos m = (Z.pos n * 2 ^ (- e))%Z.
Proof.
  intros Hn.
  pose proof (digits2_pos_le n 53 Hn ltac:(lia)) as Hd.
  assert (Hd0 : (0 < Z.pos (digits2_pos n))%Z) by lia.
  cbn [binary_normalize]. unfold binary_round.
  assert (Hfexp : fexp prec emax (Z.pos (digits2_pos n) + 0)
                  = (Z.pos (digits2_pos n) - 53)%Z).
  { unfold fexp, emin, prec, emax. lia. }
  rewrite Hfexp. unfold shl_align.
  destruct (Z.pos (digits2_pos n) - 53 - 0)%Z as [| p | p] eqn:Hshift; try lia.
  - exists n, 0%Z. split; [| split; [lia | cbn; lia]].
    unfold binary_round_aux, shr_fexp. cbn [Zdigits2 shr_record_of_loc].
    replace (fexp prec emax (Z.pos (digits2_pos n) + 0) - 0)%Z with 0%Z
      by (rewrite Hfexp; lia).
    cbn [shr shr_m loc_of_shr_record round_nearest_even Zdigits2].
    replace (fexp prec emax (Z.pos (digits2_pos n) + 0) - 0)%Z with 0%Z
      by (rewrite Hfexp; lia).
    cbn [shr shr_m]. reflexivity.
  - assert (He : (Z.pos (digits2_pos n) - 53)%Z = Z.neg p) by lia.
    exists (Pos.iter xO n p), (Z.pos (digits2_pos n) - 53)%Z.
    split; [| split; [lia |]].
    + unfold binary_round_aux, shr_fexp. cbn [Zdigits2 shr_record_of_loc].
      rewrite iter_xO_digits.
      assert (Hf2 : (fexp prec emax (Z.pos (digits2_pos n + p)
                                     + (Z.pos (digits2_pos n) - 53))
                     - (Z.pos (digits2_pos n) - 53))%Z = 0%Z).
      { unfold fexp, emin, prec, emax. lia. }
      rewrite Hf2.
      cbn [shr shr_m loc_of_shr_record round_nearest_even Zdigits2].
      rewrite iter_xO_digits, Hf2. cbn [shr shr_m].
      replace (Z.pos (digits2_pos n) - 53 <=? emax - prec)%Z with true
        by (symmetry; apply Z.leb_le; unfold emax, prec; lia).
      reflexivity.
    + rewrite iter_xO_value. f_equal. f_equal. lia.
Qed.

(** [of_Z n] is the integer [n], for [|n| < 2^53]. *)
Lemma of_Z_exact (n : Z) :
  (- 2 ^ 53 < n < 2 ^ 53)%Z -> integer_value (of_Z n) = Some n.
Proof.
  intros Hn.
  assert (Hpos : forall k : positive, (Z.pos k < 2 ^ 53)%Z ->
             exists m e, Prim2SF (PrimFloat.of_uint63 (Uint63.of_Z (Z.pos k)))
                         = S754_finite false m e
                         /\ (e <= 0)%Z /\ Z.pos m = (Z.pos k * 2 ^ (- e))%Z).
  { intros k Hk. rewrite FloatAxioms.of_uint63_spec, Uint63.of_Z_spec.
    rewrite Z.mod_small by (change Uint63.wB with (2 ^ 63)%Z; lia).
    apply binary_normalize_exact. exact Hk. }
  assert (Hvalue : forall (s : bool) (m : positive) (e : Z) (k : positive),
             (e <= 0)%Z -> Z.pos m = (Z.pos k * 2 ^ (- e))%Z ->
             (if (0 <=? e)%Z then Some (signed s m * 2 ^ e)%Z
              else if (Z.pos m mod 2 ^ (- e) =? 0)%Z then Some (signed s m / 2 ^ (- e))%Z
                   else None)
             = Some (signed s k)).
  { intros s m e k He Hm.
    assert (Hd : (0 < 2 ^ (- e))%Z) by (apply Z.pow_pos_nonneg; lia).
    destruct (0 <=? e)%Z eqn:He0.
    - apply Z.leb_le in He0. assert (e = 0%Z) by lia. subst e.
      change (2 ^ (- 0))%Z with 1%Z in Hm. change (2 ^ 0)%Z with 1%Z.
      f_equal. unfold signed. destruct s; lia.
    - rewrite Hm, Z.mod_mul by lia. cbn [Z.eqb]. f_equal.
      unfold signed. destruct s.
      + rewrite Hm. replace (- (Z.pos k * 2 ^ (- e)))%Z with (- Z.pos k * 2 ^ (- e))%Z by lia.
        rewrite Z.div_mul by lia. reflexivity.
      + rewrite Hm, Z.div_mul by lia. reflexivity. }
  unfold of_Z, integer_value.
  destruct n as [| k | k].
  - reflexivity.
  - change (Z.pos k <? 0)%Z with false. cbn iota.
    destruct (Hpos k ltac:(lia)) as (m & e & -> & He & Hm).
    exact (Hvalue false m e k He Hm).
  - change (Z.neg k <? 0)%Z with true. cbn iota.
    change (- Z.neg k)%Z with (Z.pos k).
    rewrite FloatAxioms.opp_spec.
    destruct (Hpos k ltac:(lia)) as (m & e & -> & He & Hm).
    cbn [SFopp negb].
    exact (Hvalue true m e k He Hm).
Qed.

(** The mantissa of a number has at most 53 bits. *)
Lemma mantissa_bound (x : number) (s : bool) (m : positive) (e : Z) :
  Prim2SF x = S754_finite s m e -> (Z.pos m < 2 ^ 53)%Z.
Proof.
  intros Hx. pose proof (FloatAxioms.Prim2SF_valid x) as Hv. rewrite Hx in Hv.
  cbn [valid_binary] in Hv. unfold bounded, canonical_mantissa in Hv.
  apply andb_prop in Hv as [Hc _]. apply Z.eqb_eq in Hc.
  unfold fexp, emin, prec, emax in Hc.
  destruct (digits2_pos_bounds m) as [_ Hhi].
  assert (Hle : (Z.pos (digits2_pos m) <= 53)%Z) by lia.
  assert (2 ^ Z.pos (digits2_pos m) <= 2 ^ 53)%Z by (apply Z.pow_le_mono_r; lia).
  lia.
Qed.

(** [Math.round] yields the half-up integer, as a number. *)
Lemma Math_round_integer (x : number) (s : bool) (m : positive) (e : Z) :
  Prim2SF x = S754_finite s m e -> (e < 0)%Z ->
  integer_value (Math_round x) = Some (round_half_up s m e)
  /\ (round_half_up s m e = 0%Z ->
      Math_round x = if s then PrimFloat.neg_zero else PrimFloat.zero).
Proof.
  intros Hx He. unfold Math_round. rewrite Hx.
  replace (0 <=? e)%Z with false by (symmetry; apply Z.leb_gt; exact He).
  cbv zeta.
  destruct (round_half_up s m e =? 0)%Z eqn:Hn.
  - apply Z.eqb_eq in Hn. rewrite Hn. split; [destruct s; reflexivity | reflexivity].
  - apply Z.eqb_neq in Hn. split; [| contradiction].
    apply of_Z_exact.
    pose proof (mantissa_bound x s m e Hx) as Hm.
    pose proof (round_half_up_bounds s m e He) as [Hlo Hhi].
    assert (Hd : (2 <= 2 ^ (- e))%Z).
    { change 2%Z with (2 ^ 1)%Z at 1. apply Z.pow_le_mono_r; lia. }
    assert (Hs : (- 2 ^ 53 < signed s m < 2 ^ 53)%Z) by (unfold signed; destruct s; lia).
    set (n := round_half_up s m e) in *. set (d := (2 ^ (- e))%Z) in *.
    change (2 ^ 53)%Z with 9007199254740992%Z in *.
    split; nia.
Qed.

(** C6: [calculateOverallScore] is the specification's formula: the sum of
    the six products of a sub-score with its weight, rounded to two decimals,
    that is scaled by 100, rounded half-up to the integer [n] with
    [n - 1/2 <= x < n + 1/2] and divided by 100.  Called without weights it
    uses the WeightSet of the service. *)
Theorem calculateOverallScore_is_rounded_weighted_sum :
  (forall tank weights,
     round2 (weighted_sum (dimension_terms tank weights))
            (calculateOverallScore tank weights))
  /\ (forall (E : Type) (w : World E) tank,
        calculateOverallScore_default tank w
        = match heap w !! defaultWeights w with
          | Some current => (Ok (calculateOverallScore tank current), w)
          | None => (Throw (Error "TypeError"), w)
          end).
Proof.
  split.
  - intros tank weights.
    assert (Hcode : calculateOverallScore tank weights
                    = Math_round (weighted_sum (dimension_terms tank weights) * 100) / 100)
      by reflexivity.
    rewrite Hcode. unfold round2.
    set (x := weighted_sum (dimension_terms tank weights) * 100).
    destruct (Prim2SF x) as [s | s | | s m e] eqn:Hx.
    + exists x, 0%Z. unfold half_up, integer_value, sign_bit, Math_round. rewrite Hx.
      split; [reflexivity |]. split; [reflexivity |]. split; [| reflexivity].
      intros _. apply Prim2SF_inj. rewrite Hx. destruct s; reflexivity.
    + unfold Math_round. rewrite Hx. reflexivity.
    + unfold Math_round. rewrite Hx. reflexivity.
    + destruct (0 <=? e)%Z eqn:He.
      * exists x, (signed s m * 2 ^ e)%Z.
        unfold half_up, integer_value, sign_bit, Math_round. rewrite Hx, He.
        split; [reflexivity |]. split; [reflexivity |]. split; [| reflexivity].
        intros H0. exfalso. apply Z.leb_le in He.
        assert (0 < 2 ^ e)%Z by (apply Z.pow_pos_nonneg; lia).
        unfold signed in H0. destruct s; nia.
      * apply Z.leb_gt in He.
        destruct (Math_round_integer x s m e Hx He) as [Hint Hzero].
        exists (Math_round x), (round_half_up s m e).
        unfold half_up, sign_bit. rewrite Hx.
        replace (0 <=? e)%Z with false by (symmetry; apply Z.leb_gt; exact He).
        split; [apply round_half_up_bounds; exact He |].
        split; [exact Hint |]. split; [exact Hzero | reflexivity].
  - intros E w tank.
    unfold calculateOverallScore_default, bind, get_this_defaultWeights, deref, ret.
    destruct (heap w !! defaultWeights w); reflexivity.
Qed.

(** The worked example of the specification, under the default weights. *)
Example overall_score_of_worked_example :
  calculateOverallScore heavy_example initialWeights = 65.17
  /\ weighted_sum (dimension_terms heavy_example initialWeights) = 65.17252380952381.
Proof. vm_compute. split; reflexivity. Qed.

(** Ties go up, towards +infinity. *)
Example Math_round_ties :
  map Math_round [2.5; -2.5; 0.5; -0.5; 6517.5; 0.49999999999999994; 1.4999999999999998]
  = [3; -2; 1; -0; 6518; 0; 1].
Proof. vm_compute. reflexivity. Qed.

(** ** Sorting and pagination *)

Section SortFacts.
Context {A B : Type}.

Lemma insert_by_map (f : A -> B) (leA : A -> A -> bool) (leB : B -> B -> bool) :
  (forall a b, leA a b = leB (f a) (f b)) ->
  forall x l, map f (Store.insert_by leA x l) = Store.insert_by leB (f x) (map f l).
Proof.
  intros Hle x l. induction l as [| y l IH]; [reflexivity |].
  cbn [Store.insert_by map]. rewrite <- Hle.
  destruct (leA x y); cbn [map]; [reflexivity | rewrite IH; reflexivity].
Qed.

Lemma sort_by_map (f : A -> B) (leA : A -> A -> bool) (leB : B -> B -> bool) :
  (forall a b, leA a b = leB (f a) (f b)) ->
  forall l, map f (Store.sort_by leA l) = Store.sort_by leB (map f l).
Proof.
  intros Hle l. induction l as [| x l IH]; [reflexivity |].
  unfold Store.sort_by in *. cbn [fold_right map].
  rewrite (insert_by_map f leA leB Hle), IH. reflexivity.
Qed.

Lemma insert_by_perm (le : A -> A -> bool) x l : Store.insert_by le x l ≡ₚ x :: l.
Proof.
  induction l as [| y l IH]; [reflexivity |].
  cbn [Store.insert_by]. destruct (le x y); [reflexivity |].
  rewrite IH. apply Permutation_swap.
Qed.

Lemma sort_by_perm (le : A -> A -> bool) l : Store.sort_by le l ≡ₚ l.
Proof.
  induction l as [| x l IH]; [reflexivity |].
  unfold Store.sort_by in *. cbn [fold_right].
  rewrite insert_by_perm, IH. reflexivity.
Qed.

End SortFacts.

Lemma insert_by_sorted (x : Z) (l : list Z) :
  Sorted Z.le l -> Sorted Z.le (Store.insert_by Z.leb x l).
Proof.
  induction 1 as [| y l Hs IH Hhd]; cbn [Store.insert_by].
  - repeat constructor.
  - destruct (Z.leb_spec x y) as [Hxy | Hxy].
    + repeat constructor; assumption.
    + constructor; [exact IH |].
      destruct Hhd as [| z l Hyz]; cbn [Store.insert_by].
      * constructor. lia.
      * destruct (x <=? z)%Z; constructor; [lia | exact Hyz].
Qed.

Lemma sort_by_sorted (l : list Z) : Sorted Z.le (Store.sort_by Z.leb l).
Proof.
  induction l as [| x l IH]; [constructor |].
  unfold Store.sort_by in *. cbn [fold_right]. apply insert_by_sorted. exact IH.
Qed.

(** The filter [{}] selects every row. *)
Lemma filter_matches_none (rows : list Tank) :
  filter (fun r => Store.matches Filters.none r = true) rows = rows.
Proof.
  induction rows as [| r rows IH]; [reflexivity |].
  rewrite filter_cons_True by reflexivity. rewrite IH. reflexivity.
Qed.

(** ** The sweep over an in-memory store *)

Section StoreFacts.
Variables (tankKey : Z -> string) (rankingKey : string -> string).
Local Abbreviation C := (Store.collaborators tankKey rankingKey).
Implicit Types (w : World Store.t) (st : Store.t).

Lemma Store_advanced_refl st : Store_advanced [] [] st st.
Proof. unfold Store_advanced. rewrite !app_nil_r. auto. Qed.

Lemma advanced_refl w : advanced [] [] w w.
Proof. unfold advanced. auto using Store_advanced_refl. Qed.

Lemma advanced_trans us vs ps qs w w1 w2 :
  advanced us ps w w1 -> advanced vs qs w1 w2 -> advanced (us ++ vs) (ps ++ qs) w w2.
Proof.
  intros (Hh & Hd & Hi & Hf & Hu & Hp) (Hh' & Hd' & Hi' & Hf' & Hu' & Hp').
  unfold advanced, Store_advanced.
  rewrite Hh', Hd', Hi', Hf', Hu', Hp', Hu, Hp, !app_assoc. auto 7.
Qed.

Lemma advanced_after_steady us ps w w1 w2 :
  advanced [] [] w w1 -> advanced us ps w1 w2 -> advanced us ps w w2.
Proof. intros A1 A2. exact (advanced_trans [] us [] ps w w1 w2 A1 A2). Qed.

Lemma advanced_then_steady us ps w w1 w2 :
  advanced us ps w w1 -> advanced [] [] w1 w2 -> advanced us ps w w2.
Proof.
  intros A1 A2. pose proof (advanced_trans us [] ps [] w w1 w2 A1 A2) as A.
  rewrite !app_nil_r in A. exact A.
Qed.

Lemma advanced_wf us ps w w' :
  advanced us ps w w' -> wf_world w -> wf_world w'.
Proof. intros (Hh & Hd & _). unfold wf_world. rewrite Hh, Hd. auto. Qed.

(** A call on the store, seen from the service. *)
Lemma call_advanced {A} (op : M Store.t A) w r st' us ps :
  op (ext w) = (r, st') ->
  Store_advanced us ps (ext w) st' ->
  exists w', call op w = (r, w') /\ advanced us ps w w'.
Proof.
  intros Hop Hadv. unfold call. rewrite Hop.
  eexists. split; [reflexivity |]. unfold advanced. simpl. auto.
Qed.

Lemma record_GetTanks_cohort st filters o pagination :
  Store_advanced [] []
    st (Store.record (Store.GetTanks filters (mkSort by_score_overall o) pagination) st).
Proof.
  unfold Store_advanced, Store.record, Store.updates_of, Store.pages_of. simpl.
  rewrite !omap_app. simpl. auto.
Qed.

Lemma record_GetTanks_page st filters o pagination :
  Store_advanced [] [pagination]
    st (Store.record (Store.GetTanks filters (mkSort by_id o) pagination) st).
Proof.
  unfold Store_advanced, Store.record, Store.updates_of, Store.pages_of. simpl.
  rewrite !omap_app. simpl. rewrite app_nil_r. auto.
Qed.

(** The cohort query of the relative scorers returns. *)
Lemma getTanks_cohort st filters :
  exists result,
    Store.getTanks filters (mkSort by_score_overall desc) (mkPagination 1 1000) st
    = (Ok result,
       Store.record (Store.GetTanks filters (mkSort by_score_overall desc)
                       (mkPagination 1 1000)) st).
Proof. unfold Store.getTanks. simpl. eauto. Qed.

(** A write of the three scores, persisted or not, is one attempted update
    and keeps the identities of the rows. *)
Lemma updateTankScores_advanced st i a b c :
  exists r st',
    Store.updateTankScores i (Scores.mk (Some a) (Some b) (Some c)) st = (r, st')
    /\ Store_advanced [i] [] st st'.
Proof.
  unfold Store.updateTankScores.
  destruct (existsb (Z.eqb i) (Store.failing st)).
  - do 2 eexists. split; [reflexivity |].
    unfold Store_advanced, Store.record, Store.updates_of, Store.pages_of. simpl.
    rewrite !omap_app. simpl. rewrite app_nil_r. auto.
  - cbn [Scores.overall Scores.tier Scores.type].
    match goal with
    | |- context [let (_, _) := ?c st in _] => destruct (c st) as [[values | e] s']
    end.
    + do 2 eexists. split; [reflexivity |].
      unfold Store_advanced, Store.record, Store.updates_of, Store.pages_of. simpl.
      rewrite !omap_app. simpl. rewrite app_nil_r.
      split; [| auto].
      rewrite map_map. apply map_ext. intros r.
      destruct (id r =? i)%Z; reflexivity.
    + do 2 eexists. split; [reflexivity |].
      unfold Store_advanced, Store.record, Store.updates_of, Store.pages_of. simpl.
      rewrite !omap_app. simpl. rewrite app_nil_r. auto.
Qed.

(** An operation of the cache returns, and is no step of the sweep. *)
Lemma same_rows_advanced st st' : same_rows st st' -> Store_advanced [] [] st st'.
Proof.
  intros (Hr & Hf & Ht). unfold Store_advanced. rewrite Hr, Hf, Ht, !app_nil_r. auto.
Qed.

Lemma cache_get_advanced key w :
  exists r w', call (Store.cache_get key) w = (Ok r, w') /\ advanced [] [] w w'.
Proof.
  destruct (cache_get_spec key (ext w)) as (r & st' & Hget & Hsame & _).
  exists r. eapply call_advanced; [exact Hget | apply same_rows_advanced; exact Hsame].
Qed.

Lemma cache_set_advanced key v ttl w :
  exists b w', call (Store.cache_set key v ttl) w = (Ok b, w') /\ advanced [] [] w w'.
Proof.
  destruct (cache_set_spec key v ttl (ext w)) as (b & st' & Hset & Hsame & _).
  exists b. eapply call_advanced; [exact Hset | apply same_rows_advanced; exact Hsame].
Qed.

Lemma cache_del_advanced key w :
  exists b w', call (Store.cache_del key) w = (Ok b, w') /\ advanced [] [] w w'.
Proof.
  destruct (cache_del_spec key (ext w)) as (b & st' & Hdel & Hsame & _).
  exists b. eapply call_advanced; [exact Hdel | apply same_rows_advanced; exact Hsame].
Qed.

Lemma getTanks_cohort_advanced filters w :
  exists result w',
    call (Store.getTanks filters (mkSort by_score_overall desc) (mkPagination 1 1000)) w
    = (Ok result, w')
    /\ advanced [] [] w w'.
Proof.
  destruct (getTanks_cohort (ext w) filters) as (result & Hq).
  exists result. eapply call_advanced; [exact Hq | apply record_GetTanks_cohort].
Qed.

(** The cohort average is computed without a throw, and without a step of
    the sweep. *)
Lemma cohortAverage_advanced key filters w :
  exists a w',
    cohortAverage (collab := C) key filters w = (Ok a, w') /\ advanced [] [] w w'.
Proof.
  unfold cohortAverage. cbv zeta.
  destruct (cache_get_advanced key w) as (cached & w1 & Hget & A1).
  erewrite bind_ok; [| exact Hget].
  set (recompute := bind (call (tankModel_getTanks filters _ _)) _).
  assert (Hrc : exists a w', recompute w1 = (Ok a, w') /\ advanced [] [] w1 w').
  { subst recompute.
    destruct (getTanks_cohort_advanced filters w1) as (cohort & w2 & Hq & A2).
    erewrite bind_ok; [| exact Hq].
    destruct (0 <? Z.of_nat (length (tanks cohort)))%Z.
    - match goal with
      | |- context [CacheService_set ?k ?v ?t] =>
          destruct (cache_set_advanced k v t w2) as (b & w3 & Hset & A3)
      end.
      erewrite bind_ok; [| exact Hset].
      do 2 eexists. split; [reflexivity |].
      eapply advanced_after_steady; eassumption.
    - do 2 eexists. split; [reflexivity | exact A2]. }
  destruct Hrc as (a & w' & Hrc & A2).
  assert (A : advanced [] [] w w') by (eapply advanced_after_steady; eassumption).
  destruct cached as [average |].
  - destruct (truthy average).
    + do 2 eexists. split; [reflexivity | exact A1].
    + exists a, w'. split; [exact Hrc | exact A].
  - exists a, w'. split; [exact Hrc | exact A].
Qed.

Lemma relativeScore_returns tank average w :
  wf_world w ->
  exists r, relativeScore tank average w = (Ok r, w).
Proof.
  intros [o Ho]. unfold relativeScore, calculateOverallScore_default.
  erewrite bind_ok; [| erewrite bind_ok; [| reflexivity];
                       erewrite bind_ok; [| apply deref_ok; exact Ho]; reflexivity].
  eexists. reflexivity.
Qed.

Lemma calculateTierScore_advanced tank w :
  wf_world w ->
  exists r w', calculateTierScore (collab := C) tank w = (Ok r, w')
               /\ advanced [] [] w w'.
Proof.
  intros Hwf. unfold calculateTierScore.
  destruct (cohortAverage_advanced (tier_average_key tank)
              (Filters.mk (Some [tier tank]) None None None) w) as (a & w1 & Hc & A1).
  erewrite bind_ok; [| exact Hc].
  destruct (relativeScore_returns tank a w1 (advanced_wf _ _ _ _ A1 Hwf)) as (r & Hr).
  exists r, w1. split; [exact Hr | exact A1].
Qed.

Lemma calculateTypeScore_advanced tank w :
  wf_world w ->
  exists r w', calculateTypeScore (collab := C) tank w = (Ok r, w')
               /\ advanced [] [] w w'.
Proof.
  intros Hwf. unfold calculateTypeScore.
  destruct (cohortAverage_advanced (type_average_key tank)
              (Filters.mk None (Some [type tank]) None None) w) as (a & w1 & Hc & A1).
  erewrite bind_ok; [| exact Hc].
  destruct (relativeScore_returns tank a w1 (advanced_wf _ _ _ _ A1 Hwf)) as (r & Hr).
  exists r, w1. split; [exact Hr | exact A1].
Qed.

Lemma Promise_all_del_advanced (keys : list string) :
  forall w,
    exists bs w',
      Promise_all (map (fun key => call (Store.cache_del key)) keys) w = (Ok bs, w')
      /\ advanced [] [] w w'.
Proof.
  induction keys as [| key keys IH]; intros w.
  - exists [], w. split; [reflexivity | apply advanced_refl].
  - destruct (cache_del_advanced key w) as (b & w1 & Hd & A1).
    destruct (IH w1) as (bs & w2 & Hp & A2).
    exists (b :: bs), w2. split.
    + cbn [map Promise_all]. rewrite Hd, Hp. reflexivity.
    + eapply advanced_after_steady; eassumption.
Qed.

(** One vehicle of a page: the update is attempted once, and
    [updateTankScores] returns whether or not the write succeeds. *)
Lemma updateTankScores_step tank cw w :
  wf_world w ->
  exists r w', updateTankScores (collab := C) tank cw w = (Ok r, w')
               /\ advanced [id tank] [] w w'.
Proof.
  intros Hwf.
  assert (Hbody : exists r w', updateTankScores_body (collab := C) tank cw w = (r, w')
                               /\ advanced [id tank] [] w w').
  { unfold updateTankScores_body.
    assert (Hweights : exists weights,
               (match cw with
                | Some cw' => ret cw'
                | None => bind get_this_defaultWeights (fun l => deref l)
                end) w = (Ok weights, w)).
    { destruct cw as [cw' |]; [eexists; reflexivity |].
      destruct Hwf as [o Ho]. exists o.
      erewrite bind_ok; [| reflexivity]. apply deref_ok. exact Ho. }
    destruct Hweights as (weights & Hweights).
    erewrite bind_ok; [| exact Hweights]. cbv zeta.
    destruct (calculateTierScore_advanced tank w Hwf) as (tierScore & w1 & Htier & A1).
    erewrite bind_ok; [| exact Htier].
    pose proof (advanced_wf _ _ _ _ A1 Hwf) as Hwf1.
    destruct (calculateTypeScore_advanced tank w1 Hwf1) as (typeScore & w2 & Htype & A2).
    erewrite bind_ok; [| exact Htype].
    destruct (updateTankScores_advanced (ext w2) (id tank)
                (calculateOverallScore tank weights) tierScore typeScore)
      as (r & st3 & Hupd & S3).
    destruct (call_advanced _ w2 r st3 [id tank] [] Hupd S3) as (w3 & Hcall & A3).
    assert (A03 : advanced [id tank] [] w w3).
    { eapply advanced_after_steady; [exact A1 |].
      eapply advanced_after_steady; [exact A2 | exact A3]. }
    destruct r as [updatedTank | e].
    - erewrite bind_ok; [| exact Hcall].
      unfold invalidateScoreCache.
      match goal with
      | |- context [Promise_all (map _ ?keys)] =>
          destruct (Promise_all_del_advanced keys w3) as (bs & w4 & Hinv & A4)
      end.
      erewrite bind_ok; [| erewrite bind_ok; [reflexivity | exact Hinv]].
      do 2 eexists. split; [reflexivity |].
      eapply advanced_then_steady; eassumption.
    - exists (Throw e), w3. split; [| exact A03].
      unfold bind at 1. unfold Store.collaborators, tankModel_updateTankScores.
      rewrite Hcall. reflexivity. }
  destruct Hbody as (r & w' & Hbody & A).
  unfold updateTankScores, try_catch. rewrite Hbody.
  destruct r as [r | e]; do 2 eexists; (split; [reflexivity | exact A]).
Qed.

(** A page: every vehicle of it is updated once, in the order of the page,
    and each is counted in [updated]. *)
Lemma processPage_advanced (ts : list Tank) cw :
  forall (c : Summary) w,
    wf_world w ->
    exists w', processPage (collab := C) ts cw c w
               = (Ok (mkSummary (updated c + Z.of_nat (length ts)) (errors c)), w')
               /\ advanced (map id ts) [] w w'.
Proof.
  induction ts as [| t ts IH]; intros c w Hwf.
  - exists w. split; [| apply advanced_refl].
    cbn [processPage length]. unfold ret. destruct c as [u e]; simpl.
    do 3 f_equal. lia.
  - destruct (updateTankScores_step t cw w Hwf) as (r & w1 & Hu & A1).
    destruct (IH (mkSummary (updated c + 1) (errors c)) w1 (advanced_wf _ _ _ _ A1 Hwf))
      as (w2 & Hp & A2).
    exists w2. split.
    + cbn [processPage]. unfold bind at 1, try_catch, bind at 1. rewrite Hu.
      unfold ret at 1. rewrite Hp. cbn [updated errors length].
      do 3 f_equal. lia.
    + pose proof (advanced_trans _ _ _ _ _ _ _ A1 A2) as A. exact A.
Qed.

Lemma advanced_sorted_ids us ps w w' :
  advanced us ps w w' -> sorted_ids (ext w') = sorted_ids (ext w).
Proof. intros (_ & _ & Hi & _). unfold sorted_ids. rewrite Hi. reflexivity. Qed.

(** A page of the sweep: the rows at positions [50 (p - 1)], ..., [50 p - 1]
    of the table sorted on [id]. *)
Lemma sweep_page_fetch w (p : nat) :
  (1 <= p)%nat ->
  exists result w',
    call (Store.getTanks Filters.none (mkSort by_id asc) (mkPagination (Z.of_nat p) 50)) w
    = (Ok result, w')
    /\ map id (tanks result) = take 50 (drop (50 * (p - 1)) (sorted_ids (ext w)))
    /\ advanced [] [mkPagination (Z.of_nat p) 50] w w'.
Proof.
  intros Hp.
  assert (Hq : exists result,
             Store.getTanks Filters.none (mkSort by_id asc) (mkPagination (Z.of_nat p) 50)
                            (ext w)
             = (Ok result,
                Store.record (Store.GetTanks Filters.none (mkSort by_id asc)
                                (mkPagination (Z.of_nat p) 50)) (ext w))
             /\ map id (tanks result)
                = take 50 (drop (50 * (p - 1)) (sorted_ids (ext w)))).
  { unfold Store.getTanks. cbn [page limit].
    replace ((50 <? 0)%Z || ((Z.of_nat p - 1) * 50 <? 0)%Z) with false
      by (symmetry; apply orb_false_intro; apply Z.ltb_ge; lia).
    eexists. split; [reflexivity |]. cbn [tanks].
    rewrite filter_matches_none.
    change (Z.to_nat 50) with 50%nat.
    replace (Z.to_nat ((Z.of_nat p - 1) * 50)) with (50 * (p - 1))%nat by lia.
    rewrite <- firstn_map, <- skipn_map. unfold sorted_ids.
    rewrite (sort_by_map id (Store.row_le (mkSort by_id asc)) Z.leb); reflexivity. }
  destruct Hq as (result & Hq & Hids).
  destruct (call_advanced _ w _ _ [] [mkPagination (Z.of_nat p) 50] Hq
              (record_GetTanks_page _ _ _ _)) as (w' & Hcall & A).
  exists result, w'. auto.
Qed.

(** The loop, from page [p] on: [k] pages hold the vehicles that remain,
    one more page is fetched and found empty. *)
Lemma sweep_advanced cw (ids : list Z) :
  forall (k fuel p : nat) (c : Summary) w,
    wf_world w ->
    sorted_ids (ext w) = ids ->
    (1 <= p)%nat ->
    (length (drop (50 * (p - 1)) ids) <= 50 * k)%nat ->
    (k = 0 \/ 50 * (k - 1) < length (drop (50 * (p - 1)) ids))%nat ->
    (k + 1 <= fuel)%nat ->
    exists w',
      sweep (collab := C) fuel cw (Z.of_nat p) c w
      = Some (Ok (mkSummary (updated c + Z.of_nat (length (drop (50 * (p - 1)) ids)))
                            (errors c)), w')
      /\ advanced (drop (50 * (p - 1)) ids) (pages_from p (k + 1)) w w'.
Proof.
  induction k as [| k IH]; intros fuel p c w Hwf Hids Hp Hlen Hmin Hfuel;
    (destruct fuel as [| fuel]; [lia |]);
    destruct (sweep_page_fetch w p Hp) as (result & w1 & Hfetch & Hpage & A1);
    rewrite Hids in Hpage;
    set (rest := drop (50 * (p - 1)) ids) in *;
    cbn [sweep];
    unfold Store.collaborators at 1, tankModel_getTanks at 1;
    rewrite Hfetch.
  - assert (Hrest : rest = []) by (apply length_zero_iff_nil; lia).
    rewrite Hrest in *. cbn [take] in Hpage.
    apply map_eq_nil in Hpage. rewrite Hpage. cbn [length].
    change (Z.of_nat 0 =? 0)%Z with true. cbn iota.
    exists w1. split; [| exact A1].
    destruct c as [u e]; cbn [updated errors].
    replace (u + Z.of_nat 0)%Z with u by lia. reflexivity.
  - assert (Hne : (0 < length (tanks result))%nat).
    { rewrite <- (length_map id), Hpage, length_take. lia. }
    replace (Z.of_nat (length (tanks result)) =? 0)%Z with false
      by (symmetry; apply Z.eqb_neq; lia).
    destruct (processPage_advanced (tanks result) cw c w1 (advanced_wf _ _ _ _ A1 Hwf))
      as (w2 & Hproc & A2).
    rewrite Hproc.
    assert (A12 : advanced (map id (tanks result)) [mkPagination (Z.of_nat p) 50] w w2)
      by (exact (advanced_trans _ _ _ _ _ _ _ A1 A2)).
    assert (Hdrop : drop (50 * (S p - 1)) ids = drop 50 rest).
    { subst rest. rewrite drop_drop. f_equal. lia. }
    assert (Hlen' : length (drop 50 rest) = (length rest - 50)%nat) by apply length_drop.
    edestruct (IH fuel (S p)
                 (mkSummary (updated c + Z.of_nat (length (tanks result))) (errors c)) w2)
      as (w3 & Hsweep & A3).
    + exact (advanced_wf _ _ _ _ A12 Hwf).
    + rewrite (advanced_sorted_ids _ _ _ _ A12). exact Hids.
    + lia.
    + rewrite Hdrop, Hlen'. lia.
    + rewrite Hdrop, Hlen'. lia.
    + lia.
    + exists w3. split.
      * replace (Z.of_nat p + 1)%Z with (Z.of_nat (S p)) by lia.
        rewrite Hsweep. cbn [updated errors]. rewrite Hdrop.
        rewrite <- (length_map id (tanks result)), Hpage, length_take, Hlen'.
        match goal with
        | |- Some (Ok (mkSummary ?a _), _) = Some (Ok (mkSummary ?b _), _) =>
            replace a with b by lia
        end.
        reflexivity.
      * pose proof (advanced_trans _ _ _ _ _ _ _ A12 A3) as A.
        rewrite Hpage, Hdrop, take_drop in A.
        exact A.
Qed.

End StoreFacts.

(** C8: over a table of [n] vehicles, a bulk recalculation with enough fuel
    for its [ceil (n / 50) + 1] page fetches returns.  It fetches the pages
    1, 2, ..., [ceil (n / 50) + 1] of 50 vehicles sorted on [id] ascending, and
    no other; each of them but the last holds a vehicle and the last is empty,
    so the loop stops at the first empty page.  The updates it attempts are
    those of the identities of the table in ascending order: every vehicle
    once. *)
Theorem sweep_covers_every_vehicle_once (tankKey : Z -> string) (rankingKey : string -> string)
        (w : World Store.t) (customWeights : option ScoringWeights) (fuel : nat) :
  wf_world w ->
  (length (Store.rows (ext w)) / 50 + 2 <= fuel)%nat ->
  let n := length (Store.rows (ext w)) in
  let k := ((n + 49) / 50)%nat in
  exists w',
    recalculateAllScores (collab := Store.collaborators tankKey rankingKey)
                         fuel customWeights w
    = Some (Ok (mkSummary (Z.of_nat n) 0), w')
    /\ Store.updates_of (Store.trace (ext w'))
       = Store.updates_of (Store.trace (ext w)) ++ sorted_ids (ext w)
    /\ Store.pages_of (Store.trace (ext w'))
       = Store.pages_of (Store.trace (ext w)) ++ pages_from 1 (k + 1)
    /\ sorted_ids (ext w) ≡ₚ map id (Store.rows (ext w))
    /\ Sorted Z.le (sorted_ids (ext w))
    /\ (forall p, (1 <= p <= k)%nat ->
                  take 50 (drop (50 * (p - 1)) (sorted_ids (ext w))) <> [])
    /\ take 50 (drop (50 * k) (sorted_ids (ext w))) = [].
Proof.
  intros Hwf Hfuel n k. fold n in Hfuel.
  assert (Hperm : sorted_ids (ext w) ≡ₚ map id (Store.rows (ext w)))
    by apply sort_by_perm.
  assert (Hlen : length (sorted_ids (ext w)) = n).
  { rewrite Hperm. apply length_map. }
  assert (Hk : (n <= 50 * k /\ (k = 0 \/ 50 * (k - 1) < n) /\ k <= n / 50 + 1)%nat).
  { subst k.
    pose proof (Nat.div_mod_eq (n + 49) 50) as H1.
    pose proof (Nat.mod_upper_bound (n + 49) 50 ltac:(lia)) as H2.
    pose proof (Nat.div_mod_eq n 50) as H3.
    pose proof (Nat.mod_upper_bound n 50 ltac:(lia)) as H4.
    lia. }
  destruct Hk as (Hk1 & Hk2 & Hk3).
  destruct (sweep_advanced tankKey rankingKey customWeights (sorted_ids (ext w))
              k fuel 1 (mkSummary 0 0) w Hwf eq_refl ltac:(lia))
    as (w1 & Hsweep & A1).
  { change (50 * (1 - 1))%nat with 0%nat. rewrite drop_0. lia. }
  { change (50 * (1 - 1))%nat with 0%nat. rewrite drop_0. lia. }
  { lia. }
  change (50 * (1 - 1))%nat with 0%nat in Hsweep, A1.
  rewrite drop_0 in Hsweep, A1. cbn [updated errors] in Hsweep.
  destruct (Promise_all_del_advanced ["tanks:stats"; "wargaming:all_tanks"] w1)
    as (bs & w2 & Hinv & A2).
  pose proof (advanced_then_steady _ _ _ _ _ A1 A2) as (_ & _ & _ & _ & Hu & Hp).
  exists w2. split; [| split; [exact Hu | split; [exact Hp |]]].
  - unfold recalculateAllScores. change (Z.of_nat 1) with 1%Z in Hsweep.
    rewrite Hsweep. unfold invalidateAllScoreCache.
    unfold Store.collaborators at 1, CacheService_del at 1.
    erewrite bind_ok; [| exact Hinv]. rewrite Hlen. reflexivity.
  - split; [exact Hperm |]. split; [apply sort_by_sorted |]. split.
    + intros p Hp' Hnil. apply (f_equal length) in Hnil.
      rewrite length_take, length_drop, Hlen in Hnil. cbn [length] in Hnil.
      destruct Hk2 as [-> | Hk2]; lia.
    + apply length_zero_iff_nil. rewrite length_take, length_drop, Hlen. lia.
Qed.

(** A witness: the table of two vehicles, the write failing for one. *)
Lemma sweep_covers_every_vehicle_once_witness :
  let w := new_ScoringService store_one_failing in
  let n := length (Store.rows (ext w)) in
  let k := ((n + 49) / 50)%nat in
  exists w',
    recalculateAllScores (collab := Store.collaborators sample_tankKey sample_rankingKey)
                         3 None w
    = Some (Ok (mkSummary (Z.of_nat n) 0), w')
    /\ Store.updates_of (Store.trace (ext w'))
       = Store.updates_of (Store.trace (ext w)) ++ sorted_ids (ext w)
    /\ Store.pages_of (Store.trace (ext w'))
       = Store.pages_of (Store.trace (ext w)) ++ pages_from 1 (k + 1)
    /\ sorted_ids (ext w) ≡ₚ map id (Store.rows (ext w))
    /\ Sorted Z.le (sorted_ids (ext w))
    /\ (forall p, (1 <= p <= k)%nat ->
                  take 50 (drop (50 * (p - 1)) (sorted_ids (ext w))) <> [])
    /\ take 50 (drop (50 * k) (sorted_ids (ext w))) = [].
Proof.
  apply (sweep_covers_every_vehicle_once sample_tankKey sample_rankingKey
           (new_ScoringService store_one_failing) None 3).
  - exists initialWeights. reflexivity.
  - vm_compute. lia.
Defined.


(** * Further properties *)

(** ** NaN in the arithmetic *)

Lemma float_of_nan_spec (r : number) : Prim2SF r = S754_nan -> r = NaN.
Proof. intros H. rewrite <- (SF2Prim_Prim2SF r), H. reflexivity. Qed.

Lemma add_NaN_r (x : number) : x + NaN = NaN.
Proof.
  apply float_of_nan_spec. rewrite FloatAxioms.add_spec.
  change (Prim2SF NaN) with S754_nan. unfold SF64add, SFadd.
  destruct (Prim2SF x); reflexivity.
Qed.

Lemma add_NaN_l (x : number) : NaN + x = NaN.
Proof.
  apply float_of_nan_spec. rewrite FloatAxioms.add_spec.
  change (Prim2SF NaN) with S754_nan. reflexivity.
Qed.

Lemma mul_NaN_l (x : number) : NaN * x = NaN.
Proof.
  apply float_of_nan_spec. rewrite FloatAxioms.mul_spec.
  change (Prim2SF NaN) with S754_nan. reflexivity.
Qed.

(** ** The scorers on a vehicle without health and power *)

Lemma mobility_NaN (tank : Tank) :
  health tank = 0 -> mobility_power tank = 0 -> calculateMobilityScore tank = NaN.
Proof.
  intros Hh Hp. unfold calculateMobilityScore. rewrite Hh, Hp. cbv zeta.
  change (Math_min 1 (0 / (0 / 1000) / 30) * 0.3) with NaN.
  rewrite add_NaN_r, mul_NaN_l. reflexivity.
Qed.

Lemma winRate_NaN (tank : Tank) :
  health tank = 0 -> mobility_power tank = 0 -> calculateWinRateScore tank = NaN.
Proof.
  intros Hh Hp. unfold calculateWinRateScore. cbv zeta.
  rewrite (mobility_NaN tank Hh Hp), add_NaN_r.
  change (NaN / 3) with NaN. rewrite mul_NaN_l. reflexivity.
Qed.

Lemma overall_NaN (tank : Tank) (weights : ScoringWeights) :
  health tank = 0 -> mobility_power tank = 0 ->
  calculateOverallScore tank weights = NaN.
Proof.
  intros Hh Hp. unfold calculateOverallScore. cbv zeta.
  rewrite (mobility_NaN tank Hh Hp), (winRate_NaN tank Hh Hp).
  rewrite !mul_NaN_l, !add_NaN_r, !add_NaN_l, mul_NaN_l. reflexivity.
Qed.

(** X2: a vehicle with no health and no engine power has a NaN mobility
    score, a NaN win-rate score and, under every WeightSet, a NaN overall
    score, whatever its other attributes. *)
Theorem no_health_no_power_scores_NaN (tank : Tank) (weights : ScoringWeights) :
  health tank = 0 -> mobility_power tank = 0 ->
  calculateMobilityScore tank = NaN
  /\ calculateWinRateScore tank = NaN
  /\ calculateOverallScore tank weights = NaN.
Proof.
  intros Hh Hp. split; [exact (mobility_NaN tank Hh Hp) |].
  split; [exact (winRate_NaN tank Hh Hp) |].
  exact (overall_NaN tank weights Hh Hp).
Qed.

Lemma no_health_no_power_scores_NaN_witness :
  calculateMobilityScore wreck = NaN
  /\ calculateWinRateScore wreck = NaN
  /\ calculateOverallScore wreck initialWeights = NaN.
Proof.
  apply (no_health_no_power_scores_NaN wreck initialWeights); reflexivity.
Defined.

(** ** The weight configuration, continued *)

(** What [updateScoringWeights] does to a world, in both cases of the test
    [total !== 1]. *)
Lemma updateScoringWeights_effect {E} (w : World E) (current : ScoringWeights)
      (newWeights : PartialWeights) :
  heap w !! defaultWeights w = Some current ->
  let merged := spread current newWeights in
  let total := weights_total merged in
  let installed := if strict_neq total 1 then divided_by total merged else merged in
  exists l,
    heap w !! l = None
    /\ updateScoringWeights newWeights w
       = (Ok l, mkWorld (<[l := installed]> (heap w)) l (ext w)).
Proof.
  intros Hcur merged total installed.
  destruct (alloc merged w) as [r w1] eqn:Ha.
  assert (exists l, r = Ok l) as [l ->] by (unfold alloc in Ha; inversion Ha; eauto).
  destruct (alloc_fresh _ _ _ _ Ha) as [Hfresh ->].
  exists l. split; [exact Hfresh |].
  unfold updateScoringWeights.
  erewrite bind_ok; [| reflexivity]. cbn beta.
  erewrite bind_ok; [| apply deref_ok; exact Hcur].
  erewrite bind_ok; [| exact Ha].
  erewrite bind_ok; [| reflexivity].
  erewrite bind_ok; [| reflexivity]. cbn [defaultWeights].
  erewrite bind_ok; [| apply deref_ok; simpl; apply lookup_insert_eq].
  cbv zeta.
  change (fold_left (fun sum weight => sum + weight) (Object_values merged) 0)
    with total.
  subst installed. destruct (strict_neq total 1).
  - erewrite bind_ok; [| apply forEach_divide; [reflexivity | simpl; apply lookup_insert_eq]].
    unfold get_this_defaultWeights. cbn [heap defaultWeights ext].
    rewrite insert_insert_eq. reflexivity.
  - erewrite bind_ok; [| reflexivity]. reflexivity.
Qed.

(** X3: [updateScoringWeights] builds a new object and returns the very
    reference it stores in [this.defaultWeights].  The object the service held
    before is left as it was, and a write the caller makes through the
    reference returned is a write to the weights of the service: the next
    [getCurrentWeights] reads it. *)
Theorem updateScoringWeights_returns_the_shared_object {E} (w : World E)
        (current : ScoringWeights) (newWeights : PartialWeights) :
  heap w !! defaultWeights w = Some current ->
  exists l w' installed,
    updateScoringWeights newWeights w = (Ok l, w')
    /\ defaultWeights w' = l
    /\ l <> defaultWeights w
    /\ heap w' !! l = Some installed
    /\ heap w' !! defaultWeights w = Some current
    /\ forall key v,
         fst (bind (update_key l key (fun _ => v))
                   (fun _ => bind getCurrentWeights deref) w')
         = Ok (set_key key v installed).
Proof.
  intros Hcur.
  destruct (updateScoringWeights_effect w current newWeights Hcur) as (l & Hfresh & Hrun).
  assert (Hne : l <> defaultWeights w) by (intros ->; congruence).
  exists l. eexists. eexists. split; [exact Hrun |].
  cbn [heap defaultWeights ext].
  split; [reflexivity |]. split; [exact Hne |].
  split; [apply lookup_insert_eq |].
  split; [rewrite lookup_insert_ne by exact Hne; exact Hcur |].
  intros key v.
  erewrite bind_ok; [| apply update_key_ok; simpl; apply lookup_insert_eq].
  cbn [heap defaultWeights ext]. rewrite insert_insert_eq.
  unfold getCurrentWeights.
  erewrite bind_ok;
    [| erewrite bind_ok; [| reflexivity];
       erewrite bind_ok; [| apply deref_ok; simpl; apply lookup_insert_eq];
       reflexivity].
  unfold deref. cbn [heap fst]. rewrite lookup_insert_eq. reflexivity.
Qed.

Lemma updateScoringWeights_returns_the_shared_object_witness :
  exists l w' installed,
    updateScoringWeights damage_half (new_ScoringService tt) = (Ok l, w')
    /\ defaultWeights w' = l
    /\ l <> defaultWeights (new_ScoringService tt)
    /\ heap w' !! l = Some installed
    /\ heap w' !! defaultWeights (new_ScoringService tt) = Some initialWeights
    /\ forall key v,
         fst (bind (update_key l key (fun _ => v))
                   (fun _ => bind getCurrentWeights deref) w')
         = Ok (set_key key v installed).
Proof.
  apply (updateScoringWeights_returns_the_shared_object
           (new_ScoringService tt) initialWeights damage_half).
  reflexivity.
Defined.

(** X4: when the merged weights already sum to exactly 1, nothing is divided:
    the WeightSet installed is the merged one, each key the update names at
    its new value and each other key at its former value. *)
Theorem updateScoringWeights_keeps_a_sum_of_one {E} (w : World E)
        (current : ScoringWeights) (newWeights : PartialWeights) :
  heap w !! defaultWeights w = Some current ->
  weights_total (spread current newWeights) = 1 ->
  exists l w',
    updateScoringWeights newWeights w = (Ok l, w')
    /\ heap w' !! defaultWeights w' = Some (spread current newWeights)
    /\ forall k, get_key k (spread current newWeights)
                 = default (get_key k current) (newWeights k).
Proof.
  intros Hcur Hsum.
  destruct (updateScoringWeights_effect w current newWeights Hcur) as (l & _ & Hrun).
  cbv zeta in Hrun. rewrite Hsum in Hrun.
  change (strict_neq 1 1) with false in Hrun. cbv iota in Hrun.
  exists l. eexists. split; [exact Hrun |].
  cbn [heap defaultWeights]. split; [apply lookup_insert_eq |].
  intros []; reflexivity.
Qed.

Lemma updateScoringWeights_keeps_a_sum_of_one_witness :
  exists l w',
    updateScoringWeights no_change (new_ScoringService tt) = (Ok l, w')
    /\ heap w' !! defaultWeights w' = Some (spread initialWeights no_change)
    /\ forall k, get_key k (spread initialWeights no_change)
                 = default (get_key k initialWeights) (no_change k).
Proof.
  apply (updateScoringWeights_keeps_a_sum_of_one
           (new_ScoringService tt) initialWeights no_change).
  - reflexivity.
  - vm_compute. reflexivity.
Defined.

(** ** The weight endpoint, continued *)

Lemma validate_None_iff (props : list (string * JValue)) (keys : list string) :
  validate props keys = None
  <-> Forall (fun key => includes validKeys key = true
                         /\ invalid_value (property key props) = false) keys.
Proof.
  induction keys as [| k keys IH]; cbn [validate].
  - split; [constructor | reflexivity].
  - destruct (includes validKeys k) eqn:Hk; cbn [negb].
    + destruct (invalid_value (property k props)) eqn:Hv.
      * split; [discriminate |]. intros HF. inversion HF as [| ? ? [_ Hv'] _]. congruence.
      * rewrite IH. split.
        -- intros HF. constructor; [split; assumption | exact HF].
        -- intros HF. inversion HF; assumption.
    + split; [discriminate |]. intros HF. inversion HF as [| ? ? [Hk' _] _]. congruence.
Qed.

(** X5: the validation loop accepts a request exactly when each of its keys
    is one of the six names and holds a number that is neither below 0 nor
    above 1. *)
Theorem validate_accepts_exactly_valid_requests (props : list (string * JValue))
        (keys : list string) :
  validate props keys = None
  <-> Forall (fun key => includes validKeys key = true
                         /\ invalid_value (property key props) = false) keys.
Proof. exact (validate_None_iff props keys). Qed.

(** X6: a request that passes the validation is applied.  Each weight the
    request names takes the number the request gives, the others keep their
    value; the six are summed from 0 in key order, and when the sum is not 1
    each is divided by it.  The endpoint answers 200 with these six numbers,
    held by a new object that [this.defaultWeights] now refers to; nothing
    else of the world changes. *)
Theorem updateWeights_applies_a_valid_request {E} (w : World E) (current : ScoringWeights)
        (weights : JValue) :
  heap w !! defaultWeights w = Some current ->
  not_an_object (Some weights) = false ->
  Forall (fun key => includes validKeys key = true
                     /\ invalid_value (property key (own_properties weights)) = false)
         (Object_keys (own_properties weights)) ->
  let requested (key : string) (kept : number) : number :=
    match property key (own_properties weights) with
    | Some (JNumber x) => x
    | _ => kept
    end in
  let d := requested "damage" (damage current) in
  let wr := requested "winRate" (winRate current) in
  let s := requested "survival" (survival current) in
  let a := requested "armor" (armor current) in
  let m := requested "mobility" (mobility current) in
  let p := requested "penetration" (penetration current) in
  let total := 0 + d + wr + s + a + m + p in
  let data :=
    if PrimFloat.eqb total 1 then mkWeights d wr s a m p
    else mkWeights (d / total) (wr / total) (s / total)
                   (a / total) (m / total) (p / total) in
  exists l,
    heap w !! l = None
    /\ updateWeights (Some weights) w
       = (Ok (Json200 data), mkWorld (<[l := data]> (heap w)) l (ext w)).
Proof.
  intros Hcur Hobj Hvalid requested d wr s a m p total data.
  apply validate_None_iff in Hvalid.
  destruct (updateScoringWeights_effect w current (as_partial (own_properties weights)) Hcur)
    as (l & Hfresh & Hrun).
  assert (Hpick : forall k,
             default (get_key k current) (as_partial (own_properties weights) k)
             = requested (WeightKey_name k) (get_key k current)).
  { intros k. unfold as_partial, requested.
    destruct (property (WeightKey_name k) (own_properties weights)) as [[] |]; reflexivity. }
  assert (Hmerged : spread current (as_partial (own_properties weights))
                    = mkWeights d wr s a m p).
  { unfold spread. cbv zeta. rewrite !Hpick. reflexivity. }
  rewrite Hmerged in Hrun.
  change (weights_total (mkWeights d wr s a m p)) with total in Hrun.
  assert (Hdata : (if strict_neq total 1
                   then divided_by total (mkWeights d wr s a m p)
                   else mkWeights d wr s a m p) = data).
  { subst data. unfold strict_neq. destruct (PrimFloat.eqb total 1); reflexivity. }
  cbv zeta in Hrun. rewrite Hdata in Hrun.
  exists l. split; [exact Hfresh |].
  unfold updateWeights, try_catch. rewrite Hobj.
  change (default JNull (Some weights)) with weights. cbv zeta. rewrite Hvalid.
  erewrite bind_ok; [| exact Hrun].
  erewrite bind_ok; [| apply deref_ok; simpl; apply lookup_insert_eq].
  reflexivity.
Qed.

Lemma updateWeights_applies_a_valid_request_witness :
  let total := 0 + 0.5 + 0.20 + 0.15 + 0.15 + 0.15 + 0.10 in
  let data := mkWeights (0.5 / total) (0.20 / total) (0.15 / total)
                        (0.15 / total) (0.15 / total) (0.10 / total) in
  exists l,
    heap (new_ScoringService tt) !! l = None
    /\ updateWeights (Some damage_half_request) (new_ScoringService tt)
       = (Ok (Json200 data),
          mkWorld (<[l := data]> (heap (new_ScoringService tt))) l tt).
Proof.
  apply (updateWeights_applies_a_valid_request
           (new_ScoringService tt) initialWeights damage_half_request).
  - reflexivity.
  - reflexivity.
  - repeat constructor.
Defined.

(** ** Failures of the collaborators *)

(** X7: a page fetch that throws ends the bulk recalculation with that error:
    no vehicle is processed and the final cache invalidation is not run. *)
Theorem page_fetch_failure_aborts_the_sweep {E} {collab : Collaborators E}
        (fuel : nat) (customWeights : option ScoringWeights) (w w1 : World E) (e : exn) :
  call (tankModel_getTanks Filters.none (mkSort by_id asc) (mkPagination 1 50)) w
  = (Throw e, w1) ->
  recalculateAllScores (S fuel) customWeights w = Some (Throw e, w1).
Proof.
  intros Hfetch. unfold recalculateAllScores. cbn [sweep]. rewrite Hfetch. reflexivity.
Qed.

Lemma page_fetch_failure_aborts_the_sweep_witness :
  recalculateAllScores (collab := unreachable) 1 None (new_ScoringService tt)
  = Some (Throw (Error "ECONNREFUSED"), new_ScoringService tt).
Proof.
  apply (page_fetch_failure_aborts_the_sweep (collab := unreachable) 0 None
           (new_ScoringService tt) (new_ScoringService tt) (Error "ECONNREFUSED")).
  reflexivity.
Defined.

(** X8: a command Redis rejects does not stop the scoring of a vehicle.  When
    the read of the tier average is rejected, [CacheService.get] answers
    [null]; [updateTankScores] returns, and the write of the scores of the
    vehicle has been attempted once. *)
Theorem cache_failure_does_not_skip_the_write
        (tankKey : Z -> string) (rankingKey : string -> string)
        (tank : Tank) (customWeights : option ScoringWeights)
        (w : World Store.t) (current : ScoringWeights)
        (message : string) (rest : list Redis.Fate) :
  heap w !! defaultWeights w = Some current ->
  Redis.fates (Store.cache (ext w)) = Redis.rejected message :: rest ->
  CacheService.get (tier_average_key tank) (Store.cache (ext w))
  = (Ok None, Redis.mk (Redis.entries (Store.cache (ext w))) rest)
  /\ exists r w',
       updateTankScores (collab := Store.collaborators tankKey rankingKey)
                        tank customWeights w = (Ok r, w')
       /\ Store.updates_of (Store.trace (ext w'))
          = Store.updates_of (Store.trace (ext w)) ++ [id tank].
Proof.
  intros Hcur Hfates. split.
  - unfold CacheService.get, try_catch, bind, Redis.get, Redis.command.
    rewrite Hfates. reflexivity.
  - destruct (updateTankScores_step tankKey rankingKey tank customWeights w)
      as (r & w' & Hrun & _ & _ & _ & _ & Hus & _).
    + unfold wf_world. eauto.
    + exists r, w'. split; [exact Hrun | exact Hus].
Qed.

Lemma cache_failure_does_not_skip_the_write_witness :
  CacheService.get (tier_average_key heavy_example) (Store.cache (ext world_without_redis))
  = (Ok None, Redis.mk (Redis.entries (Store.cache (ext world_without_redis)))
                       (repeat (Redis.rejected "ECONNREFUSED") 11))
  /\ exists r w',
       updateTankScores (collab := Store.collaborators sample_tankKey sample_rankingKey)
                        heavy_example None world_without_redis = (Ok r, w')
       /\ Store.updates_of (Store.trace (ext w'))
          = Store.updates_of (Store.trace (ext world_without_redis)) ++ [id heavy_example].
Proof.
  apply (cache_failure_does_not_skip_the_write sample_tankKey sample_rankingKey
           heavy_example None world_without_redis initialWeights
           "ECONNREFUSED" (repeat (Redis.rejected "ECONNREFUSED") 11)).
  - reflexivity.
  - reflexivity.
Defined.

(** ** The relative scores, continued *)

(** X9: whatever the cache and the storage answer, a tier-relative or
    type-relative score that is returned is in [0,100] or is NaN. *)
Theorem relative_scores_in_range_or_NaN {E} {collab : Collaborators E}
        (tank : Tank) (w w' : World E) (r : number) :
  calculateTierScore tank w = (Ok r, w') \/ calculateTypeScore tank w = (Ok r, w') ->
  in_0_100 r = true \/ r = NaN.
Proof.
  assert (Hrel : forall average w1,
             relativeScore tank average w1 = (Ok r, w') -> in_0_100 r = true \/ r = NaN).
  { intros average w1 Hr.
    destruct (relativeScore_in_range_or_NaN tank average w1 w' r Hr) as (o & _ & _ & Hcase).
    destruct (PrimFloat.is_nan (o / average * 75)); auto. }
  unfold calculateTierScore, calculateTypeScore, bind.
  intros [Hrun | Hrun].
  - destruct (cohortAverage _ _ w) as [[a | e] w1]; [eauto | discriminate].
  - destruct (cohortAverage _ _ w) as [[a | e] w1]; [eauto | discriminate].
Qed.

Lemma relative_scores_in_range_or_NaN_witness :
  in_0_100 100 = true \/ 100 = NaN.
Proof.
  apply (relative_scores_in_range_or_NaN (collab := sample_collaborators) heavy_example
           (new_ScoringService (fresh_store heavy_example))
           (snd (calculateTierScore (collab := sample_collaborators) heavy_example
                   (new_ScoringService (fresh_store heavy_example))))
           100).
  left. vm_compute. reflexivity.
Defined.

(** ** One vehicle on an in-memory store *)

Section StoreFrame.
Variables (tankKey : Z -> string) (rankingKey : string -> string).
Local Abbreviation C := (Store.collaborators tankKey rankingKey).
Implicit Types (w : World Store.t) (st : Store.t).

(** Every command to come is served, nothing expiring. *)
Local Abbreviation served_all w := (Redis.fates (Store.cache (ext w)) = []).

Lemma same_table_refl w : same_table w w.
Proof. unfold same_table. auto. Qed.

Lemma same_table_trans w w1 w2 :
  same_table w w1 -> same_table w1 w2 -> same_table w w2.
Proof.
  intros (Hh & Hd & Hr & Hf) (Hh' & Hd' & Hr' & Hf').
  unfold same_table. rewrite Hh', Hd', Hr', Hf'. auto.
Qed.

Lemma call_same_table {A} (op : M Store.t A) w r st' :
  op (ext w) = (r, st') ->
  Store.rows st' = Store.rows (ext w) ->
  Store.failing st' = Store.failing (ext w) ->
  exists w', call op w = (r, w') /\ ext w' = st' /\ same_table w w'.
Proof.
  intros Hop Hr Hf. unfold call. rewrite Hop.
  eexists. split; [reflexivity |]. split; [reflexivity |].
  unfold same_table. simpl. auto.
Qed.

(** An operation of the cache, seen from the service. *)
Lemma call_on_cache {A} (op : M Redis.t A) w r c :
  op (Store.cache (ext w)) = (r, c) ->
  exists w', call (Store.on_cache op) w = (r, w')
             /\ Store.cache (ext w') = c /\ same_table w w'.
Proof.
  intros Hop. unfold call, Store.on_cache. rewrite Hop.
  eexists. split; [reflexivity |]. split; [reflexivity |].
  unfold same_table. simpl. auto.
Qed.

Lemma call_cache_get key w :
  exists r w', call (Store.cache_get key) w = (Ok r, w')
               /\ same_table w w'
               /\ (served_all w -> served_all w')
               /\ (forall x, r = Some x ->
                     Redis.entries (Store.cache (ext w)) !! key = Some (text_number x)).
Proof.
  destruct (CacheService_get_spec key (Store.cache (ext w))) as (r & c & Hop & _ & Hr).
  destruct (call_on_cache _ w _ _ Hop) as (w' & Hcall & Hc & T).
  exists r, w'. split; [exact Hcall |]. split; [exact T |]. split; [| exact Hr].
  intros Hs. rewrite Hc. revert Hop.
  unfold CacheService.get, try_catch, bind, Redis.get, Redis.command. rewrite Hs.
  intros [= _ <-]. reflexivity.
Qed.

Lemma call_cache_set key v ttl w :
  exists b w', call (Store.cache_set key v ttl) w = (Ok b, w')
               /\ same_table w w'
               /\ (served_all w -> served_all w').
Proof.
  destruct (CacheService_set_spec key v ttl (Store.cache (ext w))) as (b & c & Hop & _).
  destruct (call_on_cache _ w _ _ Hop) as (w' & Hcall & Hc & T).
  exists b, w'. split; [exact Hcall |]. split; [exact T |].
  intros Hs. rewrite Hc. revert Hop.
  unfold CacheService.set, try_catch, bind, Redis.setex, Redis.command. rewrite Hs.
  destruct (ttl <=? 0)%Z; intros [= _ <-]; reflexivity.
Qed.

Lemma call_cache_del key w :
  exists b w', call (Store.cache_del key) w = (Ok b, w')
               /\ same_table w w'
               /\ (served_all w ->
                   served_all w'
                   /\ Redis.entries (Store.cache (ext w'))
                      = delete key (Redis.entries (Store.cache (ext w)))).
Proof.
  destruct (CacheService_del_spec key (Store.cache (ext w))) as (b & c & Hop & _).
  destruct (call_on_cache _ w _ _ Hop) as (w' & Hcall & Hc & T).
  exists b, w'. split; [exact Hcall |]. split; [exact T |].
  intros Hs. rewrite Hc. revert Hop.
  unfold CacheService.del, try_catch, bind, Redis.del, Redis.command. rewrite Hs.
  intros [= _ <-]. split; reflexivity.
Qed.

Lemma call_getTanks_cohort filters w :
  exists cohort w',
    call (Store.getTanks filters (mkSort by_score_overall desc) (mkPagination 1 1000)) w
    = (Ok cohort, w')
    /\ same_table w w'
    /\ Store.cache (ext w') = Store.cache (ext w).
Proof.
  destruct (getTanks_cohort (ext w) filters) as (cohort & Hq).
  destruct (call_same_table _ w _ _ Hq eq_refl eq_refl) as (w' & Hcall & He & T).
  exists cohort, w'. split; [exact Hcall |]. split; [exact T |].
  rewrite He. reflexivity.
Qed.

Lemma cohortAverage_same_table key filters w :
  exists a w',
    cohortAverage (collab := C) key filters w = (Ok a, w')
    /\ same_table w w'
    /\ (served_all w -> served_all w').
Proof.
  unfold cohortAverage. cbv zeta.
  destruct (call_cache_get key w) as (cached & w1 & Hget & T1 & S1 & _).
  erewrite bind_ok; [| exact Hget].
  set (recompute := bind (call (tankModel_getTanks (Collaborators := C) filters _ _)) _).
  assert (Hre : exists a w', recompute w1 = (Ok a, w') /\ same_table w w'
                             /\ (served_all w -> served_all w')).
  { subst recompute.
    destruct (call_getTanks_cohort filters w1) as (cohort & w2 & Hcall & T2 & Hc2).
    erewrite bind_ok; [| exact Hcall].
    pose proof (same_table_trans _ _ _ T1 T2) as T12.
    destruct (0 <? Z.of_nat (length (tanks cohort)))%Z.
    - match goal with
      | |- context [CacheService_set ?k ?v ?t] =>
          destruct (call_cache_set k v t w2) as (b & w3 & Hset & T3 & S3)
      end.
      erewrite bind_ok; [| exact Hset].
      do 2 eexists. split; [reflexivity |].
      split; [exact (same_table_trans _ _ _ T12 T3) |].
      intros Hs. apply S3. rewrite Hc2. auto.
    - do 2 eexists. split; [reflexivity |]. split; [exact T12 |].
      intros Hs. rewrite Hc2. auto. }
  destruct Hre as (a & w' & Hre & T & S).
  destruct cached as [average |].
  - destruct (truthy average).
    + do 2 eexists. split; [reflexivity |]. split; [exact T1 | exact S1].
    + exists a, w'. auto.
  - exists a, w'. auto.
Qed.

Lemma relative_scores_same_table tank w :
  wf_world w ->
  (exists r w', calculateTierScore (collab := C) tank w = (Ok r, w') /\ same_table w w'
                /\ (served_all w -> served_all w'))
  /\ (exists r w', calculateTypeScore (collab := C) tank w = (Ok r, w') /\ same_table w w'
                   /\ (served_all w -> served_all w')).
Proof.
  intros Hwf.
  assert (Hrel : forall a w1, same_table w w1 ->
             exists r, relativeScore tank a w1 = (Ok r, w1)).
  { intros a w1 (Hh & Hd & _). apply relativeScore_returns.
    unfold wf_world. rewrite Hh, Hd. exact Hwf. }
  split.
  - unfold calculateTierScore.
    destruct (cohortAverage_same_table (tier_average_key tank)
                (Filters.mk (Some [tier tank]) None None None) w) as (a & w1 & Hc & T1 & S1).
    erewrite bind_ok; [| exact Hc].
    destruct (Hrel a w1 T1) as (r & Hr). eauto.
  - unfold calculateTypeScore.
    destruct (cohortAverage_same_table (type_average_key tank)
                (Filters.mk None (Some [type tank]) None None) w) as (a & w1 & Hc & T1 & S1).
    erewrite bind_ok; [| exact Hc].
    destruct (Hrel a w1 T1) as (r & Hr). eauto.
Qed.

(** The invalidation returns and touches nothing but the cache; when Redis
    serves its commands, each of its keys is deleted. *)
Lemma Promise_all_del_cache (keys : list string) :
  forall w,
    exists bs w',
      Promise_all (map (fun key => call (Store.cache_del key)) keys) w = (Ok bs, w')
      /\ same_table w w'
      /\ (served_all w ->
          Redis.entries (Store.cache (ext w'))
          = foldl (fun es key => delete key es) (Redis.entries (Store.cache (ext w))) keys).
Proof.
  induction keys as [| key keys IH]; intros w.
  - exists [], w. split; [reflexivity |]. split; [apply same_table_refl | reflexivity].
  - destruct (call_cache_del key w) as (b & w1 & Hd & T1 & S1).
    destruct (IH w1) as (bs & w2 & Hp & T2 & Hc).
    exists (b :: bs), w2. split; [| split].
    + cbn [map Promise_all]. rewrite Hd, Hp. reflexivity.
    + exact (same_table_trans _ _ _ T1 T2).
    + intros Hs. destruct (S1 Hs) as [Hs1 He1]. rewrite (Hc Hs1), He1. reflexivity.
Qed.

Lemma foldl_delete_lookup (keys : list string) (key : string) :
  forall es : gmap string JSONText,
    (key ∈ keys \/ es !! key = None) ->
    foldl (fun es key => delete key es) es keys !! key = None.
Proof.
  induction keys as [| k keys IH]; intros es Hk; cbn [foldl].
  - destruct Hk as [Hk | Hk]; [inversion Hk | exact Hk].
  - apply IH. destruct Hk as [Hk | Hk].
    + apply elem_of_cons in Hk as [-> | Hk]; [right; apply lookup_delete_eq | left; exact Hk].
    + right. rewrite lookup_delete_None. right. exact Hk.
Qed.

(** The steps of [updateTankScores] before the write. *)
Lemma updateTankScores_body_to_the_write tank cw w current :
  heap w !! defaultWeights w = Some current ->
  exists tierScore typeScore w1 w2,
    calculateTierScore (collab := C) tank w = (Ok tierScore, w1)
    /\ calculateTypeScore (collab := C) tank w1 = (Ok typeScore, w2)
    /\ same_table w w2
    /\ (served_all w -> served_all w2)
    /\ updateTankScores_body (collab := C) tank cw w
       = bind (call (Store.updateTankScores (id tank)
                       (Scores.mk (Some (calculateOverallScore tank (default current cw)))
                                  (Some tierScore) (Some typeScore))))
              (fun updatedTank =>
                 bind (invalidateScoreCache (collab := C) tank)
                      (fun _ => ret updatedTank)) w2.
Proof.
  intros Hcur.
  assert (Hwf : wf_world w) by (unfold wf_world; eauto).
  unfold updateTankScores_body.
  assert (Hweights :
             (match cw with
              | Some cw' => ret cw'
              | None => bind get_this_defaultWeights (fun l => deref l)
              end) w = (Ok (default current cw), w)).
  { destruct cw as [cw' |]; [reflexivity |].
    erewrite bind_ok; [| reflexivity]. apply deref_ok. exact Hcur. }
  erewrite bind_ok; [| exact Hweights]. cbv zeta.
  destruct (relative_scores_same_table tank w Hwf)
    as [(tierScore & w1 & Htier & T1 & S1) _].
  erewrite bind_ok; [| exact Htier].
  assert (Hwf1 : wf_world w1).
  { destruct T1 as (Hh & Hd & _). unfold wf_world. rewrite Hh, Hd. exact Hwf. }
  destruct (relative_scores_same_table tank w1 Hwf1)
    as [_ (typeScore & w2 & Htype & T2 & S2)].
  erewrite bind_ok; [| exact Htype].
  exists tierScore, typeScore, w1, w2.
  split; [exact Htier |]. split; [exact Htype |].
  split; [exact (same_table_trans _ _ _ T1 T2) |].
  split; [auto | reflexivity].
Qed.

(** What a column makes of a value does not depend on the state. *)
Lemma numeric_in_pure {S} (precision scale : Z) (x : number) (s : S) :
  numeric_in precision scale x s = (fst (numeric_in precision scale x tt), s).
Proof.
  unfold numeric_in. destruct (Prim2SF x) as [| | | sg m e]; try reflexivity.
  destruct (shortest_decimal (Z.pos m) e) as [digits t].
  match goal with |- context [if ?b then _ else _] => destruct b end; reflexivity.
Qed.

(** The write of three scores on a table that takes the identity. *)
Lemma Store_updateTankScores_three (i : Z) (a b c : number) st :
  existsb (Z.eqb i) (Store.failing st) = false ->
  (- 2 ^ 31 <= i < 2 ^ 31)%Z ->
  Store.updateTankScores i (Scores.mk (Some a) (Some b) (Some c)) st
  = match fst (numeric_in 8 3 a tt), fst (numeric_in 8 3 b tt), fst (numeric_in 8 3 c tt) with
    | Ok o, Ok t, Ok y =>
        let rows' := map (fun r => if (id r =? i)%Z
                                   then Store.set_scores
                                          (Store.Stored.mk (Some o) (Some t) (Some y)) r
                                   else r) (Store.rows st) in
        (Ok (head (filter (fun r => id r = i) rows')),
         Store.record (Store.UpdateScores i true)
           (Store.mk rows' (Store.cache st) (Store.failing st) (Store.trace st)))
    | Throw e, _, _ | Ok _, Throw e, _ | Ok _, Ok _, Throw e =>
        (Throw e, Store.record (Store.UpdateScores i false) st)
    end.
Proof.
  intros Hok Hi. unfold Store.updateTankScores. rewrite Hok.
  cbn [Scores.overall Scores.tier Scores.type].
  unfold Store.stored_scores, Store.score_in, bind at 1.
  cbn [Scores.overall Scores.tier Scores.type].
  unfold bind at 1, bind at 1.
  rewrite (numeric_in_pure 8 3 a st).
  destruct (fst (numeric_in 8 3 a tt)) as [o | e]; [| reflexivity].
  unfold ret at 1. unfold bind at 1, bind at 1.
  rewrite (numeric_in_pure 8 3 b st).
  destruct (fst (numeric_in 8 3 b tt)) as [t | e]; [| reflexivity].
  unfold ret at 1. unfold bind at 1, bind at 1.
  rewrite (numeric_in_pure 8 3 c st).
  destruct (fst (numeric_in 8 3 c tt)) as [y | e]; [| reflexivity].
  unfold ret at 1. unfold ret at 1. unfold bind at 1.
  unfold int4_of_Z.
  replace ((- 2 ^ 31 <=? i) && (i <? 2 ^ 31))%Z with true
    by (symmetry; apply andb_true_intro; split; [apply Z.leb_le | apply Z.ltb_lt]; lia).
  reflexivity.
Qed.

End StoreFrame.

(** X10: on a store that takes the identity of the vehicle, [updateTankScores]
    computes the tier-relative and the type-relative score, each call
    returning, and sends them with the overall score of the weights in force.
    When the three [DECIMAL(8,3)] columns take their values, the rows with
    the vehicle's identity hold these values, the other columns and the other
    rows being as they were; the first such row is returned, or [null] when
    the table has none; and when Redis serves its commands no cached average
    is left for the tier and for the type of the vehicle.  When a column
    refuses its value the result is [null] and the table is as it was. *)
Theorem updateTankScores_persists_and_invalidates
        (tankKey : Z -> string) (rankingKey : string -> string)
        (tank : Tank) (customWeights : option ScoringWeights)
        (w : World Store.t) (current : ScoringWeights) :
  heap w !! defaultWeights w = Some current ->
  existsb (Z.eqb (id tank)) (Store.failing (ext w)) = false ->
  (- 2 ^ 31 <= id tank < 2 ^ 31)%Z ->
  let overallScore := calculateOverallScore tank (default current customWeights) in
  exists tierScore typeScore w1 w2 w',
    calculateTierScore (collab := Store.collaborators tankKey rankingKey) tank w
    = (Ok tierScore, w1)
    /\ calculateTypeScore (collab := Store.collaborators tankKey rankingKey) tank w1
       = (Ok typeScore, w2)
    /\ match fst (numeric_in 8 3 overallScore tt),
             fst (numeric_in 8 3 tierScore tt),
             fst (numeric_in 8 3 typeScore tt) with
       | Ok overall, Ok tier_relative, Ok type_relative =>
           let written r :=
             mkTank (id r) (name r) (tier r) (type r) (nation r) (is_premium r)
                    (health r) (armor_front r) (armor_side r) (armor_rear r)
                    (gun_damage r) (gun_penetration r) (gun_rof r)
                    (mobility_speed r) (mobility_power r)
                    (Some overall) (Some tier_relative) (Some type_relative) in
           let rows' := map (fun r => if (id r =? id tank)%Z then written r else r)
                            (Store.rows (ext w)) in
           updateTankScores (collab := Store.collaborators tankKey rankingKey)
                            tank customWeights w
           = (Ok (head (filter (fun r => id r = id tank) rows')), w')
           /\ Store.rows (ext w') = rows'
           /\ (Redis.fates (Store.cache (ext w)) = [] ->
               Redis.entries (Store.cache (ext w')) !! tier_average_key tank = None
               /\ Redis.entries (Store.cache (ext w')) !! type_average_key tank = None)
       | _, _, _ =>
           updateTankScores (collab := Store.collaborators tankKey rankingKey)
                            tank customWeights w
           = (Ok None, w')
           /\ Store.rows (ext w') = Store.rows (ext w)
       end.
Proof.
  intros Hcur Hok Hid overallScore.
  destruct (updateTankScores_body_to_the_write tankKey rankingKey tank customWeights w current
              Hcur) as (tierScore & typeScore & w1 & w2 & Htier & Htype & T2 & S2 & Hbody).
  destruct T2 as (Hh & Hd & Hr & Hf).
  exists tierScore, typeScore, w1, w2.
  fold overallScore in Hbody.
  assert (Hupd := Store_updateTankScores_three (id tank) overallScore tierScore typeScore
                    (ext w2) ltac:(rewrite Hf; exact Hok) Hid).
  assert (Hrefused : forall e,
             Store.updateTankScores (id tank)
               (Scores.mk (Some overallScore) (Some tierScore) (Some typeScore)) (ext w2)
             = (Throw e, Store.record (Store.UpdateScores (id tank) false) (ext w2)) ->
             exists w',
               updateTankScores (collab := Store.collaborators tankKey rankingKey)
                                tank customWeights w = (Ok None, w')
               /\ Store.rows (ext w') = Store.rows (ext w)).
  { intros e He. eexists. split.
    - unfold updateTankScores, try_catch. rewrite Hbody.
      unfold bind at 1, call. rewrite He. reflexivity.
    - cbn [ext Store.record Store.rows]. exact Hr. }
  destruct (fst (numeric_in 8 3 overallScore tt)) as [overall | e1].
  2: { destruct (Hrefused e1 Hupd) as (w' & H1 & H2). exists w'.
       split; [exact Htier |]. split; [exact Htype |]. split; assumption. }
  destruct (fst (numeric_in 8 3 tierScore tt)) as [tier_relative | e2].
  2: { destruct (Hrefused e2 Hupd) as (w' & H1 & H2). exists w'.
       split; [exact Htier |]. split; [exact Htype |]. split; assumption. }
  destruct (fst (numeric_in 8 3 typeScore tt)) as [type_relative | e3].
  2: { destruct (Hrefused e3 Hupd) as (w' & H1 & H2). exists w'.
       split; [exact Htier |]. split; [exact Htype |]. split; assumption. }
  cbv zeta in Hupd. rewrite Hr in Hupd.
  change (Store.set_scores
            (Store.Stored.mk (Some overall) (Some tier_relative) (Some type_relative)))
    with (fun r => mkTank (id r) (name r) (tier r) (type r) (nation r) (is_premium r)
                          (health r) (armor_front r) (armor_side r) (armor_rear r)
                          (gun_damage r) (gun_penetration r) (gun_rof r)
                          (mobility_speed r) (mobility_power r)
                          (Some overall) (Some tier_relative) (Some type_relative))
    in Hupd.
  cbv zeta.
  set (written := fun r : Tank => mkTank _ _ _ _ _ _ _ _ _ _ _ _ _ _ _ _ _ _) in *.
  set (rows' := map (fun r => if (id r =? id tank)%Z then written r else r)
                    (Store.rows (ext w))) in *.
  match type of Hupd with
  | _ = (_, ?st) =>
      assert (Hcall : call (Store.updateTankScores (id tank)
                              (Scores.mk (Some overallScore) (Some tierScore)
                                         (Some typeScore))) w2
                      = (Ok (head (filter (fun r => id r = id tank) rows')),
                         mkWorld (heap w2) (defaultWeights w2) st))
        by (unfold call; rewrite Hupd; reflexivity)
  end.
  match type of Hcall with
  | _ = (_, ?w3) =>
      destruct (Promise_all_del_cache
                  [tankKey (id tank); rankingKey "overall";
                   rankingKey ("tier_" +:+ pretty (tier tank));
                   rankingKey ("type_" +:+ TankType_value (type tank));
                   tier_average_key tank; type_average_key tank] w3)
        as (bs & w4 & Hinv & (_ & _ & Hr4 & _) & Hc4)
  end.
  exists w4.
  split; [exact Htier |]. split; [exact Htype |].
  split; [| split; [exact Hr4 |]].
  - unfold updateTankScores, try_catch. rewrite Hbody.
    erewrite bind_ok; [| exact Hcall].
    erewrite bind_ok; [| unfold invalidateScoreCache;
                         erewrite bind_ok; [reflexivity | exact Hinv]].
    reflexivity.
  - intros Hs. rewrite (Hc4 (S2 Hs)).
    split; apply foldl_delete_lookup; left; rewrite list_elem_of_In; cbn [In]; tauto.
Qed.

Lemma updateTankScores_persists_and_invalidates_witness :
  let scored :=
    mkTank 1 "heavy" 10 HEAVY "ussr" false 1800 300 200 100 400 200 6 45 650
           (Some (numeric_units 65170)) (Some (numeric_units 100000))
           (Some (numeric_units 100000)) in
  exists w',
    updateTankScores (collab := Store.collaborators sample_tankKey sample_rankingKey)
                     heavy_example None (new_ScoringService store_one_failing)
    = (Ok (Some scored), w')
    /\ Store.rows (ext w') = [heavy_example2; scored]
    /\ Redis.entries (Store.cache (ext w')) !! tier_average_key heavy_example = None
    /\ Redis.entries (Store.cache (ext w')) !! type_average_key heavy_example = None.
Proof.
  destruct (updateTankScores_persists_and_invalidates sample_tankKey sample_rankingKey
              heavy_example None (new_ScoringService store_one_failing) initialWeights)
    as (tierScore & typeScore & w1 & w2 & w' & Htier & Htype & H).
  - reflexivity.
  - reflexivity.
  - cbn. lia.
  - vm_compute in Htier. injection Htier as <- <-.
    vm_compute in Htype. injection Htype as <- <-.
    vm_compute in H. destruct H as (Hrun & Hrows & Hcache).
    exists w'. split; [| split; [| apply Hcache; reflexivity]].
    + vm_compute. exact Hrun.
    + exact Hrows.
Defined.

(** X11: on a store that refuses the write, [updateTankScores] returns [null]
    and the table is as it was. *)
Theorem updateTankScores_failed_write_changes_no_row
        (tankKey : Z -> string) (rankingKey : string -> string)
        (tank : Tank) (customWeights : option ScoringWeights)
        (w : World Store.t) (current : ScoringWeights) :
  heap w !! defaultWeights w = Some current ->
  existsb (Z.eqb (id tank)) (Store.failing (ext w)) = true ->
  exists w',
    updateTankScores (collab := Store.collaborators tankKey rankingKey) tank customWeights w
    = (Ok None, w')
    /\ Store.rows (ext w') = Store.rows (ext w).
Proof.
  intros Hcur Hfail.
  destruct (updateTankScores_body_to_the_write tankKey rankingKey tank customWeights w current
              Hcur) as (tierScore & typeScore & w1 & w2 & _ & _ & (Hh & Hd & Hr & Hf) & _ & Hbody).
  eexists. split.
  - unfold updateTankScores, try_catch. rewrite Hbody.
    unfold bind at 1, call, Store.updateTankScores. rewrite Hf, Hfail. reflexivity.
  - cbn [ext Store.record Store.rows]. exact Hr.
Qed.

Lemma updateTankScores_failed_write_changes_no_row_witness :
  exists w',
    updateTankScores (collab := Store.collaborators sample_tankKey sample_rankingKey)
                     heavy_example2 None (new_ScoringService store_one_failing)
    = (Ok None, w')
    /\ Store.rows (ext w') = Store.rows (ext (new_ScoringService store_one_failing)).
Proof.
  apply (updateTankScores_failed_write_changes_no_row sample_tankKey sample_rankingKey
           heavy_example2 None (new_ScoringService store_one_failing) initialWeights).
  - reflexivity.
  - reflexivity.
Defined.

Section EmptyCohort.
Variables (tankKey : Z -> string) (rankingKey : string -> string).
Local Abbreviation C := (Store.collaborators tankKey rankingKey).

Lemma relativeScore_with_75 (tank : Tank) (key : string) (filters : Filters.t)
      (w : World Store.t) (current : ScoringWeights) :
  heap w !! defaultWeights w = Some current ->
  (forall x, Redis.entries (Store.cache (ext w)) !! key = Some (text_number x) ->
             truthy x = false) ->
  Forall (fun r => Store.matches filters r = false) (Store.rows (ext w)) ->
  fst (bind (cohortAverage (collab := C) key filters) (relativeScore tank) w)
  = Ok (Math_min 100 (Math_max 0 (calculateOverallScore tank current / 75 * 75))).
Proof.
  intros Hcur Hcache Hrows.
  pose proof (cohortAverage_of_empty_cohort tankKey rankingKey key filters w Hcache Hrows)
    as H75.
  destruct (cohortAverage_same_table tankKey rankingKey key filters w)
    as (a & w1 & Hc & (Hh & Hd & _) & _).
  rewrite Hc in H75. cbn [fst] in H75. injection H75 as ->.
  erewrite bind_ok; [| exact Hc].
  unfold relativeScore, calculateOverallScore_default.
  erewrite bind_ok;
    [| erewrite bind_ok; [| reflexivity];
       erewrite bind_ok; [| apply deref_ok; rewrite Hh, Hd; exact Hcur];
       reflexivity].
  reflexivity.
Qed.

End EmptyCohort.

(** X12: when the table holds no vehicle of the tier (of the type) and Redis
    holds no usable average under the key (none, or one that is 0 or not a
    number), the tier-relative (type-relative) score is the overall score
    under the weights of the service, divided by 75, multiplied by 75 and
    clamped, whatever becomes of the commands sent to Redis. *)
Theorem relative_scores_of_empty_cohorts
        (tankKey : Z -> string) (rankingKey : string -> string)
        (tank : Tank) (w : World Store.t) (current : ScoringWeights) :
  heap w !! defaultWeights w = Some current ->
  (forall x, Redis.entries (Store.cache (ext w)) !! tier_average_key tank
             = Some (text_number x) -> truthy x = false) ->
  (forall x, Redis.entries (Store.cache (ext w)) !! type_average_key tank
             = Some (text_number x) -> truthy x = false) ->
  Forall (fun r => tier r <> tier tank /\ type r <> type tank) (Store.rows (ext w)) ->
  let expected :=
    Math_min 100 (Math_max 0 (calculateOverallScore tank current / 75 * 75)) in
  fst (calculateTierScore (collab := Store.collaborators tankKey rankingKey) tank w)
  = Ok expected
  /\ fst (calculateTypeScore (collab := Store.collaborators tankKey rankingKey) tank w)
     = Ok expected.
Proof.
  intros Hcur Htier Htype Hrows expected. split.
  - apply relativeScore_with_75; [exact Hcur | exact Htier |].
    eapply Forall_impl; [exact Hrows |]. intros r [Ht _].
    unfold Store.matches, Store.any_of. cbn [Filters.tier existsb].
    apply Z.eqb_neq in Ht. rewrite Ht. reflexivity.
  - apply relativeScore_with_75; [exact Hcur | exact Htype |].
    eapply Forall_impl; [exact Hrows |]. intros r [_ Ht].
    unfold Store.matches, Store.any_of.
    cbn [Filters.tier Filters.type existsb andb].
    destruct (type r), (type tank); try reflexivity; congruence.
Qed.

Lemma relative_scores_of_empty_cohorts_witness :
  let w := new_ScoringService (fresh_store unarmed_vehicle) in
  let expected :=
    Math_min 100 (Math_max 0 (calculateOverallScore heavy_example initialWeights / 75 * 75)) in
  fst (calculateTierScore (collab := Store.collaborators sample_tankKey sample_rankingKey)
         heavy_example w) = Ok expected
  /\ fst (calculateTypeScore (collab := Store.collaborators sample_tankKey sample_rankingKey)
            heavy_example w) = Ok expected.
Proof.
  apply (relative_scores_of_empty_cohorts sample_tankKey sample_rankingKey heavy_example
           (new_ScoringService (fresh_store unarmed_vehicle)) initialWeights).
  - reflexivity.
  - intros x Hx. discriminate Hx.
  - intros x Hx. discriminate Hx.
  - repeat constructor; simpl; congruence.
Defined.

(** ** The table: lookups after writes *)

Section TableFacts.
Implicit Types (rows : list Tank) (st : Store.t) (t r : Tank).

(** The rows of identity [j], after the rows of identity [i] went through
    [f], which keeps the identity. *)
Lemma filter_id_update (f : Tank -> Tank) (i j : Z) rows :
  (forall r, id (f r) = id r) ->
  filter (fun r => id r = j) (map (fun r => if (id r =? i)%Z then f r else r) rows)
  = if decide (j = i) then map f (filter (fun r => id r = j) rows)
    else filter (fun r => id r = j) rows.
Proof.
  intros Hf. induction rows as [| r rows IH]; [destruct (decide (j = i)); reflexivity |].
  cbn [map]. destruct (Z.eqb_spec (id r) i) as [Hi | Hi].
  - destruct (decide (j = i)) as [-> | Hji].
    + rewrite !filter_cons_True by (rewrite ?Hf; exact Hi). cbn [map]. rewrite IH.
      reflexivity.
    + rewrite !filter_cons_False by (rewrite ?Hf; congruence). exact IH.
  - destruct (decide (id r = j)) as [Hj | Hj].
    + rewrite !filter_cons_True by exact Hj. rewrite IH.
      destruct (decide (j = i)); [congruence | reflexivity].
    + rewrite !filter_cons_False by exact Hj. exact IH.
Qed.

Lemma map_id_update (f : Tank -> Tank) (i : Z) rows :
  (forall r, id (f r) = id r) ->
  map id (map (fun r => if (id r =? i)%Z then f r else r) rows) = map id rows.
Proof.
  intros Hf. rewrite map_map. apply map_ext. intros r.
  destruct (id r =? i)%Z; [apply Hf | reflexivity].
Qed.

Lemma existsb_id_false (i : Z) rows :
  existsb (fun r => (id r =? i)%Z) rows = false ->
  filter (fun r => id r = i) rows = [] /\ i ∉ map id rows.
Proof.
  induction rows as [| r rows IH]; cbn [existsb map]; intros He.
  - split; [reflexivity | apply not_elem_of_nil].
  - apply orb_false_elim in He as [Hr He]. apply Z.eqb_neq in Hr.
    destruct (IH He) as [IH1 IH2]. split.
    + rewrite filter_cons_False by exact Hr. exact IH1.
    + rewrite not_elem_of_cons. split; [congruence | exact IH2].
Qed.

Lemma find_id_head (i : Z) rows :
  find (fun r => (id r =? i)%Z) rows = head (filter (fun r => id r = i) rows).
Proof.
  induction rows as [| r rows IH]; [reflexivity |].
  cbn [find]. destruct (Z.eqb_spec (id r) i) as [Hi | Hi].
  - rewrite filter_cons_True by exact Hi. reflexivity.
  - rewrite filter_cons_False by exact Hi. exact IH.
Qed.

Lemma existsb_id_find (i : Z) rows :
  existsb (fun r => (id r =? i)%Z) rows = true ->
  exists r, find (fun r => (id r =? i)%Z) rows = Some r.
Proof.
  induction rows as [| r rows IH]; cbn [existsb find]; [discriminate |].
  destruct (id r =? i)%Z; [eauto | exact IH].
Qed.

Lemma Forall_update (P : Tank -> Prop) (f : Tank -> Tank) (i : Z) rows :
  (forall r, P r -> id r = i -> P (f r)) ->
  Forall P rows -> Forall P (map (fun r => if (id r =? i)%Z then f r else r) rows).
Proof.
  intros Hf HF. induction HF as [| r rows Hr _ IH]; cbn [map]; constructor; [| exact IH].
  destruct (Z.eqb_spec (id r) i); auto.
Qed.

(** An [INTEGER] column takes the integers of 32 bits, as they are. *)
Lemma int4_of_Z_inv {S} (n : Z) (s : S) (r : Z) (s' : S) :
  int4_of_Z n s = (Ok r, s') -> r = n /\ s' = s /\ (- 2 ^ 31 <= n < 2 ^ 31)%Z.
Proof.
  unfold int4_of_Z.
  destruct ((- 2 ^ 31 <=? n) && (n <? 2 ^ 31))%Z eqn:Hr.
  - intros [= <- <-]. apply andb_prop in Hr as [H1 H2].
    apply Z.leb_le in H1. apply Z.ltb_lt in H2. auto.
  - destruct (Z.abs n <? 10 ^ 21)%Z; discriminate.
Qed.

Lemma int4_of_Z_ok {S T} (n : Z) (s : S) (s' : T) (r : Z) :
  int4_of_Z n s = (Ok r, s) -> int4_of_Z n s' = (Ok n, s').
Proof.
  unfold int4_of_Z.
  destruct ((- 2 ^ 31 <=? n) && (n <? 2 ^ 31))%Z; [reflexivity |].
  destruct (Z.abs n <? 10 ^ 21)%Z; discriminate.
Qed.

(** A lookup depends on the rows of the identity only. *)
Lemma getTankById_rows (j : Z) st st' :
  filter (fun r => id r = j) (Store.rows st') = filter (fun r => id r = j) (Store.rows st) ->
  fst (TankModel.getTankById j st') = fst (TankModel.getTankById j st).
Proof.
  intros Hj. unfold TankModel.getTankById, bind, int4_of_Z.
  destruct ((- 2 ^ 31 <=? j) && (j <? 2 ^ 31))%Z;
    [| destruct (Z.abs j <? 10 ^ 21)%Z; reflexivity].
  cbn [ret fst]. rewrite Hj. reflexivity.
Qed.

Lemma int4_in_inv {S} (x : number) (s : S) (r : Z) (s' : S) :
  int4_in x s = (Ok r, s') ->
  integer_value x = Some r /\ s' = s /\ (- 2 ^ 31 <= r < 2 ^ 31)%Z.
Proof.
  unfold int4_in. destruct (integer_value x) as [n |]; [| discriminate].
  intros H. destruct (int4_of_Z_inv n s r s' H) as (-> & -> & Hr). auto.
Qed.

End TableFacts.

(** X13: [TankModel.updateTankScores] touches nothing but the scores it is
    given, on the rows of the identity it is given: afterwards a lookup of
    that identity yields what the update returned, a lookup of any other
    identity yields what it did before, and the identity and the attributes
    of every row are as they were. *)
Theorem updateTankScores_then_lookup (i : Z) (scores : Scores.t) (st st' : Store.t)
        (res : option Tank) :
  Store.updateTankScores i scores st = (Ok res, st') ->
  fst (TankModel.getTankById i st') = Ok res
  /\ (forall j, j <> i ->
        fst (TankModel.getTankById j st') = fst (TankModel.getTankById j st))
  /\ map id (Store.rows st') = map id (Store.rows st)
  /\ map attributes (Store.rows st') = map attributes (Store.rows st).
Proof.
  unfold Store.updateTankScores.
  destruct (existsb (Z.eqb i) (Store.failing st)); [discriminate |].
  assert (Hgen : forall values (s1 : Store.t),
             int4_of_Z i s1 = (Ok i, s1) ->
             let rows' := map (fun r => if (id r =? i)%Z then Store.set_scores values r else r)
                              (Store.rows st) in
             (Ok (head (filter (fun r => id r = i) rows')),
              Store.record (Store.UpdateScores i true)
                (Store.mk rows' (Store.cache st) (Store.failing st) (Store.trace st)))
             = (Ok res, st') ->
             fst (TankModel.getTankById i st') = Ok res
             /\ (forall j, j <> i ->
                   fst (TankModel.getTankById j st') = fst (TankModel.getTankById j st))
             /\ map id (Store.rows st') = map id (Store.rows st)
             /\ map attributes (Store.rows st') = map attributes (Store.rows st)).
  { intros values s1 Hi. cbv zeta. intros [= <- <-].
    assert (Hid : forall r, id (Store.set_scores values r) = id r) by reflexivity.
    cbn [Store.record Store.rows].
    split; [| split; [| split]].
    - unfold TankModel.getTankById, bind.
      rewrite (int4_of_Z_ok i _ _ _ Hi). reflexivity.
    - intros j Hj. apply getTankById_rows. cbn [Store.record Store.rows].
      rewrite (filter_id_update (Store.set_scores values) i j _ Hid).
      destruct (decide (j = i)); [contradiction | reflexivity].
    - apply map_id_update. exact Hid.
    - rewrite map_map. apply map_ext. intros r. destruct (id r =? i)%Z; reflexivity. }
  assert (Hsome :
            match (let! values := Store.stored_scores scores in
                   let! i' := int4_of_Z i in
                   ret values) st with
            | (Throw e, _) => (Throw e, Store.record (Store.UpdateScores i false) st)
            | (Ok values, _) =>
                let rows' := map (fun r => if (id r =? i)%Z then Store.set_scores values r
                                           else r)
                                 (Store.rows st) in
                (Ok (head (filter (fun r => id r = i) rows')),
                 Store.record (Store.UpdateScores i true)
                              (Store.mk rows' (Store.cache st) (Store.failing st) (Store.trace st)))
            end = (Ok res, st') ->
            fst (TankModel.getTankById i st') = Ok res
            /\ (forall j, j <> i ->
                  fst (TankModel.getTankById j st') = fst (TankModel.getTankById j st))
            /\ map id (Store.rows st') = map id (Store.rows st)
            /\ map attributes (Store.rows st') = map attributes (Store.rows st)).
  { unfold bind at 1.
    destruct (Store.stored_scores scores st) as [[values | e] s1]; [| discriminate].
    unfold bind at 1.
    destruct (int4_of_Z i s1) as [[i' | e] s2] eqn:Hi; [| discriminate].
    destruct (int4_of_Z_inv i s1 i' s2 Hi) as (-> & -> & _).
    unfold ret. apply (Hgen values s1 Hi). }
  destruct (Scores.overall scores), (Scores.tier scores), (Scores.type scores);
    try exact Hsome.
  destruct (int4_of_Z i st) as [[i' | e] s2] eqn:Hi; [| discriminate].
  destruct (int4_of_Z_inv i st i' s2 Hi) as (-> & -> & _).
  intros [= <- <-].
  split; [| auto].
  unfold TankModel.getTankById, bind. rewrite Hi. reflexivity.
Qed.

Lemma updateTankScores_then_lookup_witness :
  let st := fresh_store heavy_example in
  let run := Store.updateTankScores 1 (Scores.mk (Some 65.17) None None) st in
  fst (TankModel.getTankById 1 (snd run))
  = Ok (Some (mkTank 1 "heavy" 10 HEAVY "ussr" false 1800 300 200 100 400 200 6 45 650
                     (Some (numeric_units 65170)) None None))
  /\ (forall j, j <> 1%Z ->
        fst (TankModel.getTankById j (snd run)) = fst (TankModel.getTankById j st))
  /\ map id (Store.rows (snd run)) = map id (Store.rows st)
  /\ map attributes (Store.rows (snd run)) = map attributes (Store.rows st).
Proof.
  apply (updateTankScores_then_lookup 1 (Scores.mk (Some 65.17) None None)
           (fresh_store heavy_example)).
  vm_compute. reflexivity.
Defined.

Section Columns.

Lemma split_characters_spec (s : string) :
  forall (n : nat) (front back : string),
    split_characters n s = (front, back) ->
    s = front +:+ back /\ (characters front <= n)%nat.
Proof.
  induction s as [| c s IH]; intros n front back; cbn [split_characters].
  - intros [= <- <-]. split; [reflexivity | cbn; lia].
  - destruct (continues c) eqn:Hc.
    + destruct (split_characters n s) as [f b] eqn:Hs. intros [= <- <-].
      destruct (IH n f b Hs) as [-> Hn]. split; [reflexivity |].
      unfold characters in *. cbn [list_ascii_of_string List.filter]. rewrite Hc. exact Hn.
    + destruct n as [| n].
      * intros [= <- <-]. split; [reflexivity | cbn; lia].
      * destruct (split_characters n s) as [f b] eqn:Hs. intros [= <- <-].
        destruct (IH n f b Hs) as [-> Hn]. split; [reflexivity |].
        unfold characters in *. cbn [list_ascii_of_string List.filter]. rewrite Hc.
        cbn [negb length]. lia.
Qed.

Lemma varchar_in_inv {S} (n : Z) (given stored : string) (s s' : S) :
  varchar_in n given s = (Ok stored, s') ->
  varchar_column (Z.to_nat n) given stored.
Proof.
  unfold varchar_in.
  destruct (split_characters (Z.to_nat n) given) as [front back] eqn:Hs.
  destruct (forallb (Ascii.eqb " "%char) (list_ascii_of_string back)) eqn:Hb; [| discriminate].
  intros [= <- <-]. destruct (split_characters_spec _ _ _ _ Hs) as [Hg Hn].
  exists back. split; [exact Hg |]. split; [| exact Hn].
  apply Forall_forall. intros c Hc. rewrite forallb_forall in Hb.
  apply list_elem_of_In in Hc. specialize (Hb c Hc). apply Ascii.eqb_eq in Hb. congruence.
Qed.

Lemma text_in_inv {S} (given stored : string) (s s' : S) :
  text_in given s = (Ok stored, s') -> stored = given.
Proof.
  unfold text_in.
  destruct (existsb (Ascii.eqb Ascii.zero) (list_ascii_of_string given)); [discriminate |].
  intros [= <- <-]. reflexivity.
Qed.

Lemma int4_in_column (x : number) (r : Z) (s s' : unit) :
  int4_in x s = (Ok r, s') -> integer_column x (of_Z r).
Proof.
  intros H. destruct (int4_in_inv x s r s' H) as (Hx & _ & Hr).
  exists r. split; [exact Hx |]. split; [exact Hr |].
  apply of_Z_exact. change (2 ^ 53)%Z with 9007199254740992%Z.
  change (2 ^ 31)%Z with 2147483648%Z in Hr. lia.
Qed.

(** What the columns make of a vehicle. *)
Lemma row_of_inv (tank row : Tank) :
  TankModel.row_of tank = Ok row -> stored_as tank row /\ scores_of row = scores_of tank.
Proof.
  unfold TankModel.row_of, TankModel.columns_of.
  unfold bind at 1.
  destruct (int4_of_Z (id tank) tt) as [[id' | e] []] eqn:Hid; [| discriminate].
  unfold bind at 1.
  destruct (text_in (name tank) tt) as [[name' | e] []] eqn:Hname; [| discriminate].
  unfold bind at 1.
  destruct (int4_of_Z (tier tank) tt) as [[tier' | e] []] eqn:Htier; [| discriminate].
  unfold bind at 1.
  destruct (text_in (nation tank) tt) as [[nation' | e] []] eqn:Hnation; [| discriminate].
  unfold bind at 1.
  destruct (int4_in (health tank) tt) as [[health' | e] []] eqn:H1; [| discriminate].
  unfold bind at 1.
  destruct (int4_in (armor_front tank) tt) as [[armor_front' | e] []] eqn:H2; [| discriminate].
  unfold bind at 1.
  destruct (int4_in (armor_side tank) tt) as [[armor_side' | e] []] eqn:H3; [| discriminate].
  unfold bind at 1.
  destruct (int4_in (armor_rear tank) tt) as [[armor_rear' | e] []] eqn:H4; [| discriminate].
  unfold bind at 1.
  destruct (int4_in (gun_damage tank) tt) as [[gun_damage' | e] []] eqn:H5; [| discriminate].
  unfold bind at 1.
  destruct (int4_in (gun_penetration tank) tt) as [[gun_penetration' | e] []] eqn:H6;
    [| discriminate].
  unfold bind at 1.
  destruct (int4_in (mobility_speed tank) tt) as [[mobility_speed' | e] []] eqn:H7;
    [| discriminate].
  unfold bind at 1.
  destruct (int4_in (mobility_power tank) tt) as [[mobility_power' | e] []] eqn:H8;
    [| discriminate].
  unfold bind at 1.
  destruct (varchar_in 255 name' tt) as [[name'' | e] []] eqn:Hname2; [| discriminate].
  unfold bind at 1.
  destruct (varchar_in 50 nation' tt) as [[nation'' | e] []] eqn:Hnation2; [| discriminate].
  unfold bind at 1.
  destruct (numeric_in 5 2 (gun_rof tank) tt) as [[gun_rof' | e] []] eqn:Hrof; [| discriminate].
  destruct (negb ((1 <=? tier') && (tier' <=? 10))%Z) eqn:Hcheck; [discriminate |].
  intros [= <-]. split; [| reflexivity].
  destruct (int4_of_Z_inv _ _ _ _ Hid) as (-> & _ & _).
  destruct (int4_of_Z_inv _ _ _ _ Htier) as (-> & _ & _).
  apply text_in_inv in Hname, Hnation. subst name' nation'.
  apply negb_false_iff, andb_prop in Hcheck as [Hc1 Hc2].
  apply Z.leb_le in Hc1, Hc2.
  unfold stored_as. cbn [id name tier type nation is_premium health armor_front armor_side
                         armor_rear gun_damage gun_penetration gun_rof mobility_speed
                         mobility_power].
  repeat match goal with
         | |- _ /\ _ => split
         | |- integer_column _ _ => eapply int4_in_column; eassumption
         | |- varchar_column _ _ _ => eapply (varchar_in_inv 255); eassumption
         | |- varchar_column _ _ _ => eapply (varchar_in_inv 50); eassumption
         end; try reflexivity; try lia.
  exists gun_rof'. rewrite Hrof. split; reflexivity.
Qed.

End Columns.

(** X14: an accepted [upsertTank] can be read back: a lookup of the vehicle's
    identity yields the row the upsert returned.  That row carries the
    attributes given, as the columns hold them: the identity, the tier (in
    1..10), the type and the premium flag as they are; the name and the
    nation without the spaces that exceed 255 and 50 characters; each integer
    attribute as the integer it is, of 32 bits; [gun_rof] as the number its
    [DECIMAL(5,2)] text reads as.  Its scores are those of the row it
    replaces, or three scores of 0 when the identity is new; the other
    identities are not touched; and distinct identities and tiers in 1..10
    stay so. *)
Theorem upsertTank_then_lookup (tank : Tank) (st st' : Store.t) (res : Tank) :
  TankModel.upsertTank tank st = (Ok res, st') ->
  fst (TankModel.getTankById (id tank) st') = Ok (Some res)
  /\ stored_as tank res
  /\ scores_of res
     = match head (filter (fun r => id r = id tank) (Store.rows st)) with
       | Some old => scores_of old
       | None => (Some (numeric_units 0), Some (numeric_units 0), Some (numeric_units 0))
       end
  /\ (forall j, j <> id tank ->
        fst (TankModel.getTankById j st') = fst (TankModel.getTankById j st))
  /\ (table_ok (Store.rows st) -> table_ok (Store.rows st')).
Proof.
  unfold TankModel.upsertTank.
  destruct (existsb (Z.eqb (id tank)) (Store.failing st)); [discriminate |].
  destruct (TankModel.row_of tank) as [row | e] eqn:Hrow; [| discriminate].
  intros [= <- <-].
  destruct (row_of_inv tank row Hrow) as [Hstored _].
  assert (Hrowid : id row = id tank) by (destruct Hstored as [H _]; exact H).
  assert (Hrange : forall s : Store.t, int4_of_Z (id tank) s = (Ok (id tank), s)).
  { intros s. revert Hrow. unfold TankModel.row_of, TankModel.columns_of, bind at 1.
    destruct (int4_of_Z (id tank) tt) as [[i | e] []] eqn:Hi; [| discriminate].
    destruct (int4_of_Z_inv _ _ _ _ Hi) as (-> & _ & _).
    intros _. exact (int4_of_Z_ok _ _ s _ Hi). }
  assert (Htier : TankModel.tier_check row = true).
  { destruct Hstored as (_ & Ht & Hr & _). unfold TankModel.tier_check. rewrite Ht.
    apply andb_true_intro. split; apply Z.leb_le; lia. }
  assert (Hlookup : forall rows',
             fst (TankModel.getTankById (id tank)
                    (Store.mk rows' (Store.cache st) (Store.failing st) (Store.trace st)))
             = Ok (head (filter (fun r => id r = id tank) rows'))).
  { intros rows'. unfold TankModel.getTankById, bind. rewrite Hrange. reflexivity. }
  assert (Hid : forall r, id (TankModel.excluded_into row r) = id r) by reflexivity.
  assert (Hsame : forall r, id r = id tank -> stored_as tank (TankModel.excluded_into row r)).
  { intros r Hr. unfold stored_as in *.
    cbn [TankModel.excluded_into id name tier type nation is_premium health armor_front
         armor_side armor_rear gun_damage gun_penetration gun_rof mobility_speed
         mobility_power].
    destruct Hstored as (_ & Hrest). split; [exact Hr | exact Hrest]. }
  rewrite Hlookup. unfold TankModel.written, TankModel.returned.
  rewrite Hrowid, find_id_head.
  destruct (existsb (fun r => (id r =? id tank)%Z) (Store.rows st)) eqn:Hex.
  - destruct (existsb_id_find _ _ Hex) as (old & Hold).
    rewrite find_id_head in Hold. rewrite Hold.
    assert (Hidold : id old = id tank).
    { apply head_Some_elem_of, list_elem_of_filter in Hold. tauto. }
    split.
    { rewrite (filter_id_update (TankModel.excluded_into row) (id tank) (id tank) _ Hid).
      destruct (decide (id tank = id tank)); [| contradiction].
      destruct (filter (fun r => id r = id tank) (Store.rows st)); [discriminate |].
      cbn [head map] in *. congruence. }
    split; [exact (Hsame old Hidold) |]. split; [reflexivity |]. split.
    { intros j Hj. apply getTankById_rows. cbn [Store.rows].
      rewrite (filter_id_update (TankModel.excluded_into row) (id tank) j _ Hid).
      destruct (decide (j = id tank)); [contradiction | reflexivity]. }
    intros [Hnd Htiers]. cbn [Store.rows]. split.
    + rewrite map_id_update by exact Hid. exact Hnd.
    + apply Forall_update; [| exact Htiers]. intros r _ _. exact Htier.
  - destruct (existsb_id_false _ _ Hex) as [Hnone Hnotin]. rewrite Hnone.
    assert (Hins : id (TankModel.inserted row) = id tank) by exact Hrowid.
    split.
    { rewrite filter_app, Hnone. rewrite filter_cons_True by exact Hins. reflexivity. }
    split.
    { unfold stored_as in *.
      cbn [TankModel.inserted id name tier type nation is_premium health armor_front
           armor_side armor_rear gun_damage gun_penetration gun_rof mobility_speed
           mobility_power].
      exact Hstored. }
    split; [reflexivity |]. split.
    { intros j Hj. apply getTankById_rows. cbn [Store.rows]. rewrite filter_app.
      rewrite (filter_cons_False _ (TankModel.inserted row)) by (rewrite Hins; congruence).
      rewrite filter_nil, app_nil_r. reflexivity. }
    intros [Hnd Htiers]. cbn [Store.rows]. split.
    + rewrite map_app. apply NoDup_app. split; [exact Hnd |]. split.
      * intros x Hx Hin. cbn [map] in Hin. apply list_elem_of_singleton in Hin.
        subst x. rewrite Hins in Hx. exact (Hnotin Hx).
      * cbn [map]. apply NoDup_singleton.
    + apply Forall_app. split; [exact Htiers |]. repeat constructor. exact Htier.
Qed.

Lemma upsertTank_then_lookup_witness :
  let st := fresh_store heavy_example in
  let res :=
    mkTank 4 "unarmed" 5 MEDIUM "uk" false 900 60 40 30 0 0 0 50 400
           (Some (numeric_units 0)) (Some (numeric_units 0)) (Some (numeric_units 0)) in
  let st' := snd (TankModel.upsertTank unarmed_vehicle st) in
  fst (TankModel.getTankById (id unarmed_vehicle) st') = Ok (Some res)
  /\ stored_as unarmed_vehicle res
  /\ scores_of res
     = match head (filter (fun r => id r = id unarmed_vehicle) (Store.rows st)) with
       | Some old => scores_of old
       | None => (Some (numeric_units 0), Some (numeric_units 0), Some (numeric_units 0))
       end
  /\ (forall j, j <> id unarmed_vehicle ->
        fst (TankModel.getTankById j st') = fst (TankModel.getTankById j st))
  /\ (table_ok (Store.rows st) -> table_ok (Store.rows st')).
Proof.
  apply (upsertTank_then_lookup unarmed_vehicle (fresh_store heavy_example)).
  vm_compute. reflexivity.
Defined.

(** X15: [upsertTank] refuses a vehicle whose tier is outside 1..10, and the
    table is then as it was. *)
Theorem upsertTank_checks_the_tier (tank : Tank) (st : Store.t) :
  (tier tank < 1 \/ 10 < tier tank)%Z ->
  exists e, TankModel.upsertTank tank st = (Throw e, st).
Proof.
  intros Ht. unfold TankModel.upsertTank.
  destruct (existsb (Z.eqb (id tank)) (Store.failing st)); [eauto |].
  destruct (TankModel.row_of tank) as [row | e] eqn:Hrow; [| eauto].
  destruct (row_of_inv tank row Hrow) as [(_ & _ & Hr & _) _]. lia.
Qed.

Lemma NoDup_map_id_filter (P : Tank -> Prop) `{forall r, Decision (P r)} (rows : list Tank) :
  NoDup (map id rows) -> NoDup (map id (filter P rows)).
Proof.
  induction rows as [| r rows IH]; cbn [map]; [intros _; constructor |].
  intros Hnd. apply NoDup_cons in Hnd as [Hnotin Hnd].
  destruct (decide (P r)) as [Hp | Hp].
  - rewrite filter_cons_True by exact Hp. cbn [map]. apply NoDup_cons. split; [| auto].
    intros Hin. apply Hnotin.
    apply list_elem_of_In, in_map_iff in Hin as (x & Hx & Hin).
    apply list_elem_of_In, in_map_iff. exists x. split; [exact Hx |].
    apply list_elem_of_In. apply list_elem_of_In, list_elem_of_filter in Hin. tauto.
  - rewrite filter_cons_False by exact Hp. auto.
Qed.

(** X16: [deleteTank] answers [true] exactly when the table held a row of that
    identity; afterwards a lookup of the identity finds nothing, every other
    lookup is as before, and distinct identities and tiers in 1..10 stay so. *)
Theorem deleteTank_then_lookup (i : Z) (st st' : Store.t) (deleted : bool) :
  TankModel.deleteTank i st = (Ok deleted, st') ->
  (deleted = true <-> exists r, fst (TankModel.getTankById i st) = Ok (Some r))
  /\ fst (TankModel.getTankById i st') = Ok None
  /\ (forall j, j <> i ->
        fst (TankModel.getTankById j st') = fst (TankModel.getTankById j st))
  /\ (table_ok (Store.rows st) -> table_ok (Store.rows st')).
Proof.
  unfold TankModel.deleteTank.
  destruct (existsb (Z.eqb i) (Store.failing st)); [discriminate |].
  destruct (int4_of_Z i st) as [[i' | e] s1] eqn:Hi; [| discriminate].
  destruct (int4_of_Z_inv i st i' s1 Hi) as (-> & -> & _).
  intros [= <- <-].
  assert (Hlookup : forall s : Store.t,
             fst (TankModel.getTankById i s)
             = Ok (head (filter (fun r => id r = i) (Store.rows s)))).
  { intros s. unfold TankModel.getTankById, bind.
    rewrite (int4_of_Z_ok i st s i Hi). reflexivity. }
  rewrite !Hlookup. cbn [Store.rows]. split; [| split; [| split]].
  - destruct (filter (fun r => id r = i) (Store.rows st)) as [| r l]; cbn [length head].
    + split; [discriminate | intros [r [=]]].
    + split; [eauto | reflexivity].
  - rewrite list_filter_filter.
    replace (filter _ (Store.rows st)) with (@nil Tank); [reflexivity |].
    symmetry. induction (Store.rows st) as [| r rows IH]; [reflexivity |].
    rewrite filter_cons_False by tauto. exact IH.
  - intros j Hj. apply getTankById_rows. cbn [Store.rows]. rewrite list_filter_filter.
    apply (list_filter_iff (fun a => id a = j /\ id a <> i) (fun r => id r = j)).
    intros r. split; [tauto | intros Hr; split; congruence].
  - intros [Hnd Htiers]. split.
    + apply NoDup_map_id_filter. exact Hnd.
    + clear Hnd. induction Htiers as [| r rows Hr _ IH]; [constructor |].
      destruct (decide (id r <> i)).
      * rewrite filter_cons_True by assumption. constructor; [exact Hr | exact IH].
      * rewrite filter_cons_False by assumption. exact IH.
Qed.

Lemma deleteTank_then_lookup_witness :
  let st := fresh_store heavy_example in
  let st' := snd (TankModel.deleteTank 1 st) in
  (true = true <-> exists r, fst (TankModel.getTankById 1 st) = Ok (Some r))
  /\ fst (TankModel.getTankById 1 st') = Ok None
  /\ (forall j, j <> 1%Z ->
        fst (TankModel.getTankById j st') = fst (TankModel.getTankById j st))
  /\ (table_ok (Store.rows st) -> table_ok (Store.rows st')).
Proof.
  apply (deleteTank_then_lookup 1 (fresh_store heavy_example)).
  reflexivity.
Defined.

Lemma upsertTank_checks_the_tier_witness :
  exists e, TankModel.upsertTank tier_11_vehicle (fresh_store heavy_example)
            = (Throw e, fresh_store heavy_example).
Proof.
  apply (upsertTank_checks_the_tier tier_11_vehicle (fresh_store heavy_example)).
  right. simpl. lia.
Defined.

(** ** [bulkUpsertTanks] *)

Section BulkUpsert.
Implicit Types (st : Store.t) (ts : list Tank).

Lemma upsert_error_rows tank st rows' :
  TankModel.upsert_error tank
    (Store.mk rows' (Store.cache st) (Store.failing st) (Store.trace st))
  = TankModel.upsert_error tank st.
Proof. reflexivity. Qed.

Lemma upsertTank_accepted tank st :
  TankModel.upsert_error tank st = None ->
  exists res,
    TankModel.upsertTank tank st
    = (Ok res, Store.mk (TankModel.rows_after_upsert tank (Store.rows st))
                        (Store.cache st) (Store.failing st) (Store.trace st)).
Proof.
  unfold TankModel.upsert_error, TankModel.upsertTank, TankModel.rows_after_upsert.
  destruct (existsb (Z.eqb (id tank)) (Store.failing st)); [discriminate |].
  destruct (TankModel.row_of tank); [eauto | discriminate].
Qed.

Lemma upsertTank_refused tank st e :
  TankModel.upsert_error tank st = Some e ->
  TankModel.upsertTank tank st = (Throw e, st).
Proof.
  unfold TankModel.upsert_error, TankModel.upsertTank.
  destruct (existsb (Z.eqb (id tank)) (Store.failing st)); [intros [= <-]; reflexivity |].
  destruct (TankModel.row_of tank); [discriminate | intros [= <-]; reflexivity].
Qed.

Lemma upsert_each_accepted ts :
  forall (n : Z) st,
    Forall (fun t => TankModel.upsert_error t st = None) ts ->
    TankModel.upsert_each ts n st
    = (Ok (n + Z.of_nat (length ts))%Z,
       Store.mk (rows_after_upserts ts (Store.rows st))
                (Store.cache st) (Store.failing st) (Store.trace st)).
Proof.
  induction ts as [| t ts IH]; intros n st Hall.
  - cbn [TankModel.upsert_each length rows_after_upserts foldl]. unfold ret.
    destruct st. cbn [Store.rows Store.cache Store.failing Store.trace].
    do 2 f_equal. lia.
  - apply Forall_cons in Hall as [Ht Hall].
    cbn [TankModel.upsert_each]. unfold bind.
    destruct (upsertTank_accepted t st Ht) as (res & ->).
    rewrite IH.
    + cbn [Store.rows Store.cache Store.failing Store.trace length rows_after_upserts foldl].
      do 2 f_equal. lia.
    + eapply Forall_impl; [exact Hall |]. intros t' Ht'.
      rewrite upsert_error_rows. exact Ht'.
Qed.

Lemma upsert_each_refused (good : list Tank) (bad : Tank) (rest : list Tank) (e : exn) :
  forall (n : Z) st,
    Forall (fun t => TankModel.upsert_error t st = None) good ->
    TankModel.upsert_error bad st = Some e ->
    TankModel.upsert_each (good ++ bad :: rest) n st
    = (Throw e,
       Store.mk (rows_after_upserts good (Store.rows st))
                (Store.cache st) (Store.failing st) (Store.trace st)).
Proof.
  induction good as [| t good IH]; intros n st Hall Hbad.
  - cbn [app TankModel.upsert_each rows_after_upserts foldl].
    unfold bind. rewrite (upsertTank_refused bad st e Hbad). destruct st. reflexivity.
  - apply Forall_cons in Hall as [Ht Hall].
    cbn [app TankModel.upsert_each]. unfold bind at 1.
    destruct (upsertTank_accepted t st Ht) as (res & ->).
    rewrite IH.
    + reflexivity.
    + eapply Forall_impl; [exact Hall |]. intros t' Ht'.
      rewrite upsert_error_rows. exact Ht'.
    + rewrite upsert_error_rows. exact Hbad.
Qed.

End BulkUpsert.

(** X17: when the database accepts every vehicle, [bulkUpsertTanks] returns
    their number and the table is the one their upserts produce, taken in
    order. *)
Theorem bulkUpsertTanks_counts_every_vehicle (tanks : list Tank) (st : Store.t) :
  Forall (fun t => TankModel.upsert_error t st = None) tanks ->
  TankModel.bulkUpsertTanks tanks st
  = (Ok (Z.of_nat (length tanks)),
     Store.mk (rows_after_upserts tanks (Store.rows st))
              (Store.cache st) (Store.failing st) (Store.trace st)).
Proof.
  intros Hall. unfold TankModel.bulkUpsertTanks.
  destruct tanks as [| t ts].
  - cbn [length Z.of_nat Z.eqb rows_after_upserts foldl]. destruct st. reflexivity.
  - replace (Z.of_nat (length (t :: ts)) =? 0)%Z with false
      by (symmetry; apply Z.eqb_neq; cbn [length]; lia).
    unfold try_catch, bind at 1, TankModel.client_query at 1, ret at 1, bind at 1.
    rewrite (upsert_each_accepted (t :: ts) 0 st Hall). reflexivity.
Qed.

Lemma bulkUpsertTanks_counts_every_vehicle_witness :
  TankModel.bulkUpsertTanks [unarmed_vehicle; heavy_example] (fresh_store heavy_example)
  = (Ok (Z.of_nat (length [unarmed_vehicle; heavy_example])),
     Store.mk (rows_after_upserts [unarmed_vehicle; heavy_example]
                 (Store.rows (fresh_store heavy_example)))
              (Store.cache (fresh_store heavy_example))
              (Store.failing (fresh_store heavy_example))
              (Store.trace (fresh_store heavy_example))).
Proof.
  apply (bulkUpsertTanks_counts_every_vehicle [unarmed_vehicle; heavy_example]
           (fresh_store heavy_example)).
  repeat constructor.
Defined.

(** X18: [bulkUpsertTanks] is not all-or-nothing.  When the database refuses a
    vehicle, the error is rethrown, and the upserts of the vehicles before it
    stay in the table: they ran on connections of the pool, outside the
    transaction that is rolled back. *)
Theorem bulkUpsertTanks_keeps_the_upserts_before_a_failure
        (good : list Tank) (bad : Tank) (rest : list Tank) (e : exn) (st : Store.t) :
  Forall (fun t => TankModel.upsert_error t st = None) good ->
  TankModel.upsert_error bad st = Some e ->
  TankModel.bulkUpsertTanks (good ++ bad :: rest) st
  = (Throw e,
     Store.mk (rows_after_upserts good (Store.rows st))
              (Store.cache st) (Store.failing st) (Store.trace st)).
Proof.
  intros Hall Hbad. unfold TankModel.bulkUpsertTanks.
  replace (Z.of_nat (length (good ++ bad :: rest)) =? 0)%Z with false
    by (symmetry; apply Z.eqb_neq; rewrite length_app; cbn [length]; lia).
  unfold try_catch, bind at 1, TankModel.client_query at 1, ret at 1, bind at 1.
  rewrite (upsert_each_refused good bad rest e 0 st Hall Hbad). reflexivity.
Qed.

Lemma bulkUpsertTanks_keeps_the_upserts_before_a_failure_witness :
  TankModel.bulkUpsertTanks ([unarmed_vehicle] ++ heavy_example2 :: [zero_vehicle])
                            store_rejecting_2
  = (Throw (Error "PersistenceError"),
     Store.mk (rows_after_upserts [unarmed_vehicle] (Store.rows store_rejecting_2))
              (Store.cache store_rejecting_2) (Store.failing store_rejecting_2)
              (Store.trace store_rejecting_2)).
Proof.
  apply (bulkUpsertTanks_keeps_the_upserts_before_a_failure
           [unarmed_vehicle] heavy_example2 [zero_vehicle]
           (Error "PersistenceError") store_rejecting_2).
  - repeat constructor.
  - reflexivity.
Defined.

(** ** Scores read from the table *)

Lemma div_NaN_r (x : number) : x / NaN = NaN.
Proof.
  apply float_of_nan_spec. rewrite FloatAxioms.div_spec.
  change (Prim2SF NaN) with S754_nan. destruct (Prim2SF x); reflexivity.
Qed.

(** X19: a cohort of two scored vehicles has no average.  The scores of the
    rows reach JavaScript as the texts of their [DECIMAL(8,3)] column, and
    [sum + (t.score_overall || 0)] concatenates them: for the scores 70.000
    and 65.170 of tier 10 the total is the text ["070.00065.170"], which is no
    number.  The average is NaN, the tier-relative score of every vehicle of
    tier 10 is NaN, and what is cached under the key of the tier is [null]. *)
Theorem scored_cohort_has_no_average (tank : Tank) :
  tier tank = 10%Z ->
  let w := new_ScoringService scored_cohort in
  let cohort := [scored heavy_example2 70000; scored heavy_example 65170] in
  fst (Store.getTanks (Filters.mk (Some [10%Z]) None None None)
                      (mkSort by_score_overall desc) (mkPagination 1 1000) scored_cohort)
  = Ok (mkTanksResult cohort 2)
  /\ fold_left (fun sum t => plus sum (score_or_0 (score_overall t))) cohort (PNumber 0)
     = PString "070.00065.170"
  /\ exists w',
       calculateTierScore (collab := sample_collaborators) tank w = (Ok NaN, w')
       /\ Redis.entries (Store.cache (ext w')) !! "tier_average_10" = Some text_null.
Proof.
  intros Htier w cohort.
  split; [vm_compute; reflexivity |]. split; [vm_compute; reflexivity |].
  assert (Hc : exists w1,
             cohortAverage (collab := sample_collaborators)
               ("tier_average_" +:+ pretty 10%Z)
               (Filters.mk (Some [10%Z]) None None None) w = (Ok NaN, w1)
             /\ heap w1 !! defaultWeights w1 = Some initialWeights
             /\ Redis.entries (Store.cache (ext w1)) !! "tier_average_10" = Some text_null).
  { eexists. split; [vm_compute; reflexivity |]. split; vm_compute; reflexivity. }
  destruct Hc as (w1 & Hc & Hw1 & Hcache).
  exists w1. split; [| exact Hcache].
  unfold calculateTierScore, tier_average_key. rewrite Htier.
  erewrite bind_ok; [| exact Hc].
  unfold relativeScore, calculateOverallScore_default.
  erewrite bind_ok; [| erewrite bind_ok; [| reflexivity];
                       erewrite bind_ok; [| apply deref_ok; exact Hw1]; reflexivity].
  cbv zeta. unfold ret. rewrite div_NaN_r, mul_NaN_l. reflexivity.
Qed.

Lemma scored_cohort_has_no_average_witness :
  let w := new_ScoringService scored_cohort in
  let cohort := [scored heavy_example2 70000; scored heavy_example 65170] in
  fst (Store.getTanks (Filters.mk (Some [10%Z]) None None None)
                      (mkSort by_score_overall desc) (mkPagination 1 1000) scored_cohort)
  = Ok (mkTanksResult cohort 2)
  /\ fold_left (fun sum t => plus sum (score_or_0 (score_overall t))) cohort (PNumber 0)
     = PString "070.00065.170"
  /\ exists w',
       calculateTierScore (collab := sample_collaborators) heavy_example w = (Ok NaN, w')
       /\ Redis.entries (Store.cache (ext w')) !! "tier_average_10" = Some text_null.
Proof.
  apply (scored_cohort_has_no_average heavy_example). reflexivity.
Defined.

(** ** Rankings *)

Lemma elem_of_take_drop_sorted {A} (le : A -> A -> bool) (n m : nat) (l : list A) (x : A) :
  x ∈ take n (drop m (Store.sort_by le l)) -> x ∈ l.
Proof.
  intros Hx. rewrite <- (sort_by_perm le l).
  eapply elem_of_sublist; [exact Hx |].
  etransitivity; [apply sublist_take | apply sublist_drop].
Qed.

(** X20: a ranking [getTopTanks] returns holds at most [limit] rows, each a
    row of the table of the tier and of the type asked for, and no row
    twice when the identities of the table are distinct. *)
Theorem getTopTanks_is_bounded_and_filtered (category : TankModel.Category) (n : Z)
        (tier_eq : option Z) (type_eq : option TankType)
        (st st' : Store.t) (top : list Tank) :
  TankModel.getTopTanks category n tier_eq type_eq st = (Ok top, st') ->
  (Z.of_nat (length top) <= n)%Z
  /\ Forall (fun r => r ∈ Store.rows st
                      /\ (forall t, tier_eq = Some t -> tier r = t)
                      /\ (forall t, type_eq = Some t -> type r = t)) top
  /\ (NoDup (map id (Store.rows st)) -> NoDup (map id top))
  /\ st' = st.
Proof.
  unfold TankModel.getTopTanks, bind at 1.
  assert (Htier : exists tier_eq',
             (match tier_eq with
              | Some t => bind (int4_of_Z t) (fun t' => ret (Some t'))
              | None => ret None
              end) st = (Ok tier_eq', st) /\ tier_eq' = tier_eq
             \/ exists e, (match tier_eq with
                           | Some t => bind (int4_of_Z t) (fun t' => ret (Some t'))
                           | None => ret None
                           end) st = (Throw e, st)).
  { destruct tier_eq as [t |]; [| exists None; left; split; reflexivity].
    unfold bind, int4_of_Z.
    destruct ((- 2 ^ 31 <=? t) && (t <? 2 ^ 31))%Z;
      [exists (Some t); left; split; reflexivity |].
    exists None. right. destruct (Z.abs t <? 10 ^ 21)%Z; eexists; reflexivity. }
  destruct Htier as (tier_eq' & [[-> ->] | [e ->]]); [| discriminate].
  destruct (n <? 0)%Z eqn:Hn; [discriminate |]. apply Z.ltb_ge in Hn.
  intros [= <- <-].
  split; [rewrite length_take; lia |]. split; [| split; [| reflexivity]].
  - apply Forall_forall. intros r Hr.
    rewrite <- (drop_0 (Store.sort_by _ _)) in Hr.
    apply elem_of_take_drop_sorted, list_elem_of_filter in Hr as [Hf Hin].
    split; [exact Hin |].
    unfold TankModel.top_filter in Hf. apply andb_true_iff in Hf as [Ht Hy].
    split.
    + intros t ->. apply Z.eqb_eq. exact Ht.
    + intros t ->. destruct (type r), t; try reflexivity; discriminate Hy.
  - intros Hnd.
    match goal with
    | |- NoDup (map id (take ?k (Store.sort_by ?le ?sel))) =>
        assert (Hs : NoDup (map id (Store.sort_by le sel)))
          by (rewrite (Permutation_map id (sort_by_perm le sel));
              apply NoDup_map_id_filter; exact Hnd)
    end.
    rewrite <- firstn_map.
    exact (sublist_NoDup _ _ Hs (sublist_take _ _)).
Qed.

Lemma getTopTanks_is_bounded_and_filtered_witness :
  let st := fresh_store heavy_example in
  (Z.of_nat (length [heavy_example]) <= 10)%Z
  /\ Forall (fun r => r ∈ Store.rows st
                      /\ (forall t, Some 10%Z = Some t -> tier r = t)
                      /\ (forall t, @None TankType = Some t -> type r = t)) [heavy_example]
  /\ (NoDup (map id (Store.rows st)) -> NoDup (map id [heavy_example]))
  /\ st = st.
Proof.
  apply (getTopTanks_is_bounded_and_filtered TankModel.by_overall 10 (Some 10%Z) None
           (fresh_store heavy_example) (fresh_store heavy_example) [heavy_example]).
  reflexivity.
Defined.

(** ** Tallies *)

Section Tally.
Context {A K : Type} `{Countable K}.

Lemma tally_step_lookup (key : A -> K) (l : list A) (k : K) :
  forall acc : gmap K Z,
    fold_left (fun acc x => <[key x := (default 0 (acc !! key x) + 1)%Z]> acc) l acc !! k
    = match length (filter (fun x => key x = k) l) with
      | O => acc !! k
      | S n => Some (default 0 (acc !! k) + Z.of_nat (S n))%Z
      end.
Proof.
  induction l as [| x l IH]; intros acc; [reflexivity |].
  cbn [fold_left]. rewrite IH.
  destruct (decide (key x = k)) as [Hk | Hk].
  - rewrite filter_cons_True by exact Hk. cbn [length]. rewrite Hk, lookup_insert_eq.
    cbn [from_option Datatypes.id].
    destruct (length (filter (fun x => key x = k) l)); f_equal; lia.
  - rewrite filter_cons_False by exact Hk. rewrite lookup_insert_ne by exact Hk.
    reflexivity.
Qed.

Lemma tally_lookup (key : A -> K) (l : list A) (k : K) :
  TankModel.tally key l !! k = count_entry (length (filter (fun x => key x = k) l)).
Proof.
  unfold TankModel.tally. rewrite tally_step_lookup. unfold count_entry.
  destruct (length (filter (fun x => key x = k) l)); [reflexivity |].
  rewrite lookup_empty. reflexivity.
Qed.

End Tally.

Lemma default_count_entry (n : nat) : default 0%Z (count_entry n) = Z.of_nat n.
Proof. destruct n; reflexivity. Qed.

(** X21: [getStats] counts the rows: [total] is their number and [byTier],
    [byType] and [byNation] hold, for each tier, type and nation, the number
    of rows that have it, with no entry where that number is 0. *)
Theorem getStats_counts_the_rows (st : Store.t) :
  exists stats,
    TankModel.getStats st = (Ok stats, st)
    /\ TankModel.total stats = Z.of_nat (length (Store.rows st))
    /\ (forall t, TankModel.byTier stats !! t
                  = count_entry (length (filter (fun r => tier r = t) (Store.rows st))))
    /\ (forall t, TankModel.byType stats !! t
                  = count_entry (length (filter (fun r => TankType_value (type r) = t)
                                                (Store.rows st))))
    /\ (forall n, TankModel.byNation stats !! n
                  = count_entry (length (filter (fun r => nation r = n) (Store.rows st)))).
Proof.
  eexists. split; [reflexivity |]. cbn [TankModel.total TankModel.byTier TankModel.byType
                                        TankModel.byNation].
  split; [reflexivity |]. repeat split; intros; apply tally_lookup.
Qed.

(** ** The score report *)

Lemma band_of_cases (t : Tank) : band_of t ∈ bands.
Proof.
  unfold band_of, score_range, bands.
  repeat match goal with
         | |- context [if ?b then _ else _] => destruct b
         end; set_solver.
Qed.

Lemma band_counts_sum (l : list Tank) :
  fold_right (fun band sum =>
                (Z.of_nat (length (filter (fun t => band_of t = band) l)) + sum)%Z)
             0%Z bands
  = Z.of_nat (length l).
Proof.
  induction l as [| t l IH]; [reflexivity |].
  pose proof (band_of_cases t) as Hb. unfold bands in *. cbn [fold_right] in *.
  repeat (apply elem_of_cons in Hb as [Hb | Hb]);
    [.. | inversion Hb];
    repeat match goal with
           | |- context [filter (fun t => band_of t = ?b) (t :: l)] =>
               first [ rewrite (filter_cons_True (fun t => band_of t = b)) by exact Hb
                     | rewrite (filter_cons_False (fun t => band_of t = b))
                         by (rewrite Hb; discriminate) ]
           end;
    cbn [length]; lia.
Qed.

(** X22: every vehicle of the list falls in exactly one of the five bands of
    [scoreDistribution]: the entry of a band is the number of vehicles whose
    overall score, an unset score counting as 0, lies in it, a band without
    a vehicle has no entry, and the counts add up to the length of the list. *)
Theorem distribution_counts_every_vehicle_once (all : list Tank) :
  (forall band, distribution all !! band
                = count_entry (length (filter (fun t => band_of t = band) all)))
  /\ band_total (distribution all) = Z.of_nat (length all).
Proof.
  assert (Hentry : forall band, distribution all !! band
                     = count_entry (length (filter (fun t => band_of t = band) all))).
  { intros band. exact (tally_lookup band_of all band). }
  split; [exact Hentry |].
  unfold band_total. rewrite <- (band_counts_sum all).
  unfold bands. cbn [fold_right]. rewrite !Hentry, !default_count_entry. reflexivity.
Qed.

Lemma distribution_total_of_list (all : list Tank) :
  band_total (distribution all) = Z.of_nat (length all).
Proof.
  assert (Hentry : forall band, distribution all !! band
                     = count_entry (length (filter (fun t => band_of t = band) all))).
  { intros band. exact (tally_lookup band_of all band). }
  unfold band_total. rewrite <- (band_counts_sum all).
  unfold bands. cbn [fold_right]. rewrite !Hentry, !default_count_entry. reflexivity.
Qed.

Lemma generateScoreReport_runs (tankKey : Z -> string) (rankingKey : string -> string)
      (w : World Store.t) :
  let all := take 1000 (Store.sort_by (Store.row_le (mkSort by_score_overall desc))
                                      (Store.rows (ext w))) in
  let top := take 10 (Store.sort_by
                        (fun a b => Store.numeric_le (score_overall b) (score_overall a))
                        (filter (fun r => TankModel.top_filter None None r = true)
                                (Store.rows (ext w)))) in
  let n := of_Z (Z.of_nat (length all)) in
  exists w',
    generateScoreReport (collab := Store.collaborators tankKey rankingKey)
                        TankModel.getStats TankModel.getTopTanks w
    = (Ok (mkReport (Z.of_nat (length (Store.rows (ext w))))
                    (mkAverages (ToNumber (total_overall (totalScores all)) / n)
                                (ToNumber (total_tier (totalScores all)) / n)
                                (ToNumber (total_type (totalScores all)) / n))
                    top (distribution all)), w')
    /\ same_table w w'.
Proof.
  intros all top n. unfold generateScoreReport.
  destruct (call_same_table TankModel.getStats w _ _ eq_refl eq_refl eq_refl)
    as (w1 & Hstats & He1 & T1).
  erewrite bind_ok; [| exact Hstats].
  destruct (call_same_table (TankModel.getTopTanks TankModel.by_overall 10 None None)
              w1 _ _ eq_refl eq_refl eq_refl) as (w2 & Htop & He2 & T2).
  erewrite bind_ok; [| exact Htop].
  destruct (call_same_table
              (Store.getTanks Filters.none (mkSort by_score_overall desc)
                              (mkPagination 1 1000))
              w2 _ _ eq_refl eq_refl eq_refl) as (w3 & Hall & He3 & T3).
  erewrite bind_ok; [| exact Hall].
  exists w3. split; [| exact (same_table_trans _ _ _ (same_table_trans _ _ _ T1 T2) T3)].
  unfold ret. cbn [tanks TankModel.total]. rewrite He2, He1.
  rewrite filter_matches_none. reflexivity.
Qed.

(** X23: on a table of [n] vehicles the report gives [totalTanks = n], at most
    10 top performers, and a distribution whose counts add up to the smaller
    of [n] and 1000: the averages and the distribution are computed from the
    first page of 1000 vehicles only.  The table is not changed. *)
Theorem generateScoreReport_covers_the_first_1000
        (tankKey : Z -> string) (rankingKey : string -> string) (w : World Store.t) :
  exists report w',
    generateScoreReport (collab := Store.collaborators tankKey rankingKey)
                        TankModel.getStats TankModel.getTopTanks w
    = (Ok report, w')
    /\ totalTanks report = Z.of_nat (length (Store.rows (ext w)))
    /\ band_total (scoreDistribution report)
       = Z.of_nat (min 1000 (length (Store.rows (ext w))))
    /\ (length (topPerformers report) <= 10)%nat
    /\ same_table w w'.
Proof.
  destruct (generateScoreReport_runs tankKey rankingKey w) as (w' & Hrun & T).
  eexists. exists w'. split; [exact Hrun |].
  cbn [totalTanks scoreDistribution topPerformers].
  split; [reflexivity |]. split; [| split; [| exact T]].
  - rewrite distribution_total_of_list, length_take.
    rewrite (Permutation_length (sort_by_perm _ _)). reflexivity.
  - rewrite length_take. lia.
Qed.

(** X24: on an empty table the three averages of the report are [0 / 0], NaN,
    and the distribution has no entry. *)
Theorem generateScoreReport_of_an_empty_table
        (tankKey : Z -> string) (rankingKey : string -> string) (w : World Store.t) :
  Store.rows (ext w) = [] ->
  exists w',
    generateScoreReport (collab := Store.collaborators tankKey rankingKey)
                        TankModel.getStats TankModel.getTopTanks w
    = (Ok (mkReport 0 (mkAverages NaN NaN NaN) [] ∅), w').
Proof.
  intros Hrows.
  destruct (generateScoreReport_runs tankKey rankingKey w) as (w' & Hrun & _).
  exists w'. rewrite Hrun, Hrows. reflexivity.
Qed.

Lemma generateScoreReport_of_an_empty_table_witness :
  exists w',
    generateScoreReport (collab := Store.collaborators sample_tankKey sample_rankingKey)
                        TankModel.getStats TankModel.getTopTanks
                        (new_ScoringService (Store.mk [] Redis.init [] []))
    = (Ok (mkReport 0 (mkAverages NaN NaN NaN) [] ∅), w').
Proof.
  apply (generateScoreReport_of_an_empty_table sample_tankKey sample_rankingKey
           (new_ScoringService (Store.mk [] Redis.init [] []))).
  reflexivity.
Defined.

(** * The game API, the single-vehicle endpoint and the error middleware *)

(** X25: [mapTankType] and [mapNation] send the text of each value of the
    internal enumerations back to that value. *)
Theorem mapTankType_mapNation_round_trip :
  (forall t : TankType, mapTankType (TankType_value t) = t)
  /\ (forall n : Nation, mapNation (Nation_value n) = n).
Proof. split; intros []; reflexivity. Qed.

(** X26: a vehicle the game API lists with [hp = 0] and without an engine is
    transformed into a vehicle whose overall score is NaN under every
    WeightSet. *)
Theorem transformSingleTank_without_hp_and_engine_scores_NaN
        (wgTank : WG.Tank) (weights : ScoringWeights) :
  WG.hp wgTank = 0 -> WG.engines wgTank = [] ->
  calculateOverallScore (transformSingleTank wgTank) weights = NaN.
Proof.
  intros Hhp Hengines. apply overall_NaN.
  - exact Hhp.
  - unfold transformSingleTank. cbv zeta. cbn [mobility_power].
    rewrite Hengines. reflexivity.
Qed.

Lemma transformSingleTank_without_hp_and_engine_scores_NaN_witness :
  calculateOverallScore (transformSingleTank hulk) initialWeights = NaN.
Proof.
  apply (transformSingleTank_without_hp_and_engine_scores_NaN hulk initialWeights);
    reflexivity.
Defined.



(** X28: once the vehicle is found, [recalculateTankScore] answers 200 with
    whatever [updateTankScores] returned: a failure of the scoring or of the
    write is answered with [data: null], not with an error status. *)
Theorem recalculateTankScore_answers_200_for_a_found_vehicle
        {E} {collab : Collaborators E} (getTankById : number -> M E (option Tank))
        (tankId : number) (weights : option ScoringWeights) (tank : Tank) (w w1 : World E) :
  PrimFloat.is_nan tankId = false ->
  call (getTankById tankId) w = (Ok (Some tank), w1) ->
  exists updatedTank w',
    updateTankScores tank weights w1 = (Ok updatedTank, w')
    /\ recalculateTankScore getTankById tankId weights w
       = (Ok (TankJson200 updatedTank), w').
Proof.
  intros Hid Hfound.
  destruct (updateTankScores_returns tank weights w1) as (r & w' & Hu).
  exists r, w'. split; [exact Hu |].
  unfold recalculateTankScore, try_catch. rewrite Hid.
  erewrite bind_ok; [| exact Hfound].
  cbv beta iota.
  erewrite bind_ok; [| exact Hu].
  reflexivity.
Qed.

Lemma recalculateTankScore_answers_200_for_a_found_vehicle_witness :
  exists updatedTank w',
    updateTankScores (collab := unreachable) heavy_example None (new_ScoringService tt)
    = (Ok updatedTank, w')
    /\ recalculateTankScore (collab := unreachable) finds_heavy_example 1 None
                            (new_ScoringService tt)
       = (Ok (TankJson200 updatedTank), w').
Proof.
  apply (recalculateTankScore_answers_200_for_a_found_vehicle
           (collab := unreachable) finds_heavy_example 1 None heavy_example
           (new_ScoringService tt) (new_ScoringService tt)); reflexivity.
Defined.

(** X29: outside development the answer of [errorHandler] does not depend on
    the stack of the error: the stack is never sent. *)
Theorem errorHandler_hides_the_stack_outside_development
        (error : CustomError) (NODE_ENV stack : option string) :
  NODE_ENV <> Some "development" ->
  errorHandler (with_stack stack error) NODE_ENV = errorHandler error NODE_ENV.
Proof.
  intros Henv. unfold errorHandler, with_stack, code_is.
  cbn [err_name err_message err_stack err_statusCode err_code].
  destruct NODE_ENV as [env |]; [| reflexivity].
  destruct (String.eqb env "development") eqn:Heq; [| reflexivity].
  apply String.eqb_eq in Heq. subst env. contradiction.
Qed.

Lemma errorHandler_hides_the_stack_outside_development_witness :
  errorHandler (with_stack None teapot) (Some "production")
  = errorHandler teapot (Some "production").
Proof.
  apply (errorHandler_hides_the_stack_outside_development teapot (Some "production") None).
  discriminate.
Defined.

(** X30: an answer of [errorHandler] with status 500 carries the fixed text
    ['Erreur interne du serveur'], never the message of the error. *)
Theorem errorHandler_status_500_is_generic (error : CustomError) (NODE_ENV : option string) :
  PrimFloat.eqb (res_status (errorHandler error NODE_ENV)) 500 = true ->
  res_error (errorHandler error NODE_ENV) = "Erreur interne du serveur".
Proof.
  unfold errorHandler.
  destruct (String.eqb (err_name error) "ValidationError"); [discriminate |].
  destruct (code_is error "23505"); [discriminate |].
  destruct (code_is error "23503"); [discriminate |].
  destruct (code_is error "ECONNABORTED" || includes_text "timeout" (err_message error));
    [discriminate |].
  cbv zeta. cbn [res_status res_error]. intros ->. reflexivity.
Qed.

Lemma errorHandler_status_500_is_generic_witness :
  res_error (errorHandler (mkError "Error" "connection refused by 10.0.0.5" None None None)
                          None)
  = "Erreur interne du serveur".
Proof.
  apply (errorHandler_status_500_is_generic
           (mkError "Error" "connection refused by 10.0.0.5" None None None) None).
  reflexivity.
Defined.
